(** * sillasadmin: the reservation and availability engine

    A shallow embedding of [server/storage.ts] (class [MemStorage]) and of
    the request handlers of [server/routes.ts], with the record types of
    [shared/schema.ts].

    - A JavaScript [Map<number, V>] is an association list in insertion
      order ([JsMap]): [Array.from(map.values())] lists the values in that
      order, [set] on a present key keeps its position.
    - [Date] values are integers (milliseconds since the epoch); [Date]
      comparison with [<=] and [>=] is comparison of these integers.
    - The [async] methods of [MemStorage] read and write [this]; they are
      computations in a state monad over the record [MemStorage].
    - A route with a body is its [validateBody] middleware followed by its
      handler.  A handler is a function of the route parameter and of
      [req.body] that returns the HTTP response; [serve] runs the middleware
      and then the handler.  A request body is a record of the right shape:
      the middleware refuses it when a refinement of the schema fails and
      drops the keys the schema does not have.  A body of another shape
      (a key missing, a value of the wrong type) is answered 400 by the
      middleware with the store unchanged and has no term here.
    - [new Date()] is a parameter [today]; what the schemas take from their
      libraries (the current year, the e-mail test, the error text) is the
      record [Schemas].
    - Identifiers and counters are unbounded integers. *)

From Stdlib Require Import ZArith List String Ascii Bool Lia.
Import ListNotations.
Open Scope string_scope.
Open Scope Z_scope.

(** ** JavaScript [Map] with number keys *)

Module JsMap.

Definition t (V : Type) : Type := list (Z * V).

Definition empty {V : Type} : t V := [].

Fixpoint get {V : Type} (k : Z) (m : t V) : option V :=
  match m with
  | [] => None
  | (k', v) :: m' => if k =? k' then Some v else get k m'
  end.

Fixpoint set {V : Type} (k : Z) (v : V) (m : t V) : t V :=
  match m with
  | [] => [(k, v)]
  | (k', v') :: m' =>
      if k =? k' then (k, v) :: m' else (k', v') :: set k v m'
  end.

(** [Map.prototype.delete] returns whether the key was present. *)
Fixpoint delete {V : Type} (k : Z) (m : t V) : bool * t V :=
  match m with
  | [] => (false, [])
  | (k', v') :: m' =>
      if k =? k' then (true, m')
      else let (found, rest) := delete k m' in (found, (k', v') :: rest)
  end.

Definition values {V : Type} (m : t V) : list V := map snd m.

Definition keys {V : Type} (m : t V) : list Z := map fst m.

Definition size {V : Type} (m : t V) : Z := Z.of_nat (List.length m).

End JsMap.

(** ** Records of [shared/schema.ts] *)

Module Wheelchair.
Record t : Type := mk {
  id : Z;
  model : string;
  brand : string;
  year : Z;
  motor : string;
  rentalCount : option Z;      (* integer("rental_count").default(0): number | null *)
  wheelSize : string;
  lastService : option string  (* date("last_service"): nullable *)
}.
End Wheelchair.

Module InsertWheelchair.
Record t : Type := mk {
  model : string;
  brand : string;
  year : Z;
  motor : string;
  wheelSize : string;
  lastService : option string
}.
End InsertWheelchair.

(** [Partial<InsertWheelchair>]: [None] is an absent key. *)
Module WheelchairPatch.
Record t : Type := mk {
  model : option string;
  brand : option string;
  year : option Z;
  motor : option string;
  wheelSize : option string;
  lastService : option (option string)
}.
End WheelchairPatch.

Module Client.
Record t : Type := mk {
  id : Z;
  firstName : string;
  lastName : string;
  dni : string;
  address : string;
  phone : string;
  email : string;
  registerDate : string;
  city : string;
  country : string
}.
End Client.

Module InsertClient.
Record t : Type := mk {
  firstName : string;
  lastName : string;
  dni : string;
  address : string;
  phone : string;
  email : string;
  registerDate : string;
  city : string;
  country : string
}.
End InsertClient.

(** [Partial<InsertClient>]; [insertClientSchema] picks [registerDate]. *)
Module ClientPatch.
Record t : Type := mk {
  firstName : option string;
  lastName : option string;
  dni : option string;
  address : option string;
  phone : option string;
  email : option string;
  registerDate : option string;
  city : option string;
  country : option string
}.
End ClientPatch.

Module Reservation.
Record t : Type := mk {
  id : Z;
  clientId : Z;
  wheelchairId : Z;
  startDate : Z;
  endDate : Z;
  status : string;
  notes : option string
}.
End Reservation.

Module InsertReservation.
Record t : Type := mk {
  clientId : Z;
  wheelchairId : Z;
  startDate : Z;
  endDate : Z;
  notes : option string
}.
End InsertReservation.

(** The body of a reservation update as it is sent, and as the handler and
    [updateReservation] read it: the keys of [Partial<InsertReservation>]
    and the key [status], which the handler tests ([req.body.status]) and
    the spread [{ ...existingReservation, ...reservation }] of the store
    method copies.  [reservationSchema] has no key [status], so
    [validateBody] hands the handler a body without it
    ([reservationSchemaPartial]): through the route [status] is [None]. *)
Module ReservationPatch.
Record t : Type := mk {
  clientId : option Z;
  wheelchairId : option Z;
  startDate : option Z;
  endDate : option Z;
  status : option string;
  notes : option (option string)
}.
End ReservationPatch.

Record AvailabilityResult : Type := {
  available : bool;
  availableWheelchairs : list Wheelchair.t
}.

Module DashboardStats.
Record t : Type := mk {
  availableWheelchairs : Z;
  totalWheelchairs : Z;
  activeReservations : Z;
  totalClients : Z
}.
End DashboardStats.

(** ** The store and its monad *)

Record MemStorage : Type := {
  wheelchairsData : JsMap.t Wheelchair.t;
  clientsData : JsMap.t Client.t;
  reservationsData : JsMap.t Reservation.t;
  wheelchairCurrentId : Z;
  clientCurrentId : Z;
  reservationCurrentId : Z
}.

Definition M (A : Type) : Type := MemStorage -> A * MemStorage.

Definition ret {A : Type} (a : A) : M A := fun st => (a, st).

Definition bind {A B : Type} (c : M A) (k : A -> M B) : M B :=
  fun st => let (a, st') := c st in k a st'.

Definition gets {A : Type} (f : MemStorage -> A) : M A := fun st => (f st, st).

Definition modify (f : MemStorage -> MemStorage) : M unit := fun st => (tt, f st).

Declare Scope storage_scope.
Delimit Scope storage_scope with storage.
Notation "x <- c ;; k" := (bind c (fun x => k))
  (at level 61, c at next level, right associativity) : storage_scope.
Notation "c ;;; k" := (bind c (fun _ => k))
  (at level 61, right associativity) : storage_scope.
Open Scope storage_scope.

Definition setWheelchairs (m : JsMap.t Wheelchair.t) (st : MemStorage) : MemStorage :=
  {| wheelchairsData := m;
     clientsData := clientsData st;
     reservationsData := reservationsData st;
     wheelchairCurrentId := wheelchairCurrentId st;
     clientCurrentId := clientCurrentId st;
     reservationCurrentId := reservationCurrentId st |}.

Definition setClients (m : JsMap.t Client.t) (st : MemStorage) : MemStorage :=
  {| wheelchairsData := wheelchairsData st;
     clientsData := m;
     reservationsData := reservationsData st;
     wheelchairCurrentId := wheelchairCurrentId st;
     clientCurrentId := clientCurrentId st;
     reservationCurrentId := reservationCurrentId st |}.

Definition setReservations (m : JsMap.t Reservation.t) (st : MemStorage) : MemStorage :=
  {| wheelchairsData := wheelchairsData st;
     clientsData := clientsData st;
     reservationsData := m;
     wheelchairCurrentId := wheelchairCurrentId st;
     clientCurrentId := clientCurrentId st;
     reservationCurrentId := reservationCurrentId st |}.

(** [this.wheelchairCurrentId++] and its two siblings: the old value is the
    result. *)
Definition nextWheelchairId : M Z := fun st =>
  (wheelchairCurrentId st,
   {| wheelchairsData := wheelchairsData st;
      clientsData := clientsData st;
      reservationsData := reservationsData st;
      wheelchairCurrentId := wheelchairCurrentId st + 1;
      clientCurrentId := clientCurrentId st;
      reservationCurrentId := reservationCurrentId st |}).

Definition nextClientId : M Z := fun st =>
  (clientCurrentId st,
   {| wheelchairsData := wheelchairsData st;
      clientsData := clientsData st;
      reservationsData := reservationsData st;
      wheelchairCurrentId := wheelchairCurrentId st;
      clientCurrentId := clientCurrentId st + 1;
      reservationCurrentId := reservationCurrentId st |}).

Definition nextReservationId : M Z := fun st =>
  (reservationCurrentId st,
   {| wheelchairsData := wheelchairsData st;
      clientsData := clientsData st;
      reservationsData := reservationsData st;
      wheelchairCurrentId := wheelchairCurrentId st;
      clientCurrentId := clientCurrentId st;
      reservationCurrentId := reservationCurrentId st + 1 |}).

(** [patch ?? old] for a key of a spread: the patch's value when the key is
    present. *)
Definition spread {A : Type} (patch : option A) (old : A) : A :=
  match patch with Some v => v | None => old end.

(** [x || 0] on a [number | null]. *)
Definition orZero (x : option Z) : Z :=
  match x with
  | Some n => if n =? 0 then 0 else n
  | None => 0
  end.

(** Truthiness of an optional number: absent and [0] are falsy. *)
Definition truthyNum (x : option Z) : bool :=
  match x with Some n => negb (n =? 0) | None => false end.

(** Truthiness of an optional object ([Date]): present is truthy. *)
Definition truthyObj {A : Type} (x : option A) : bool :=
  match x with Some _ => true | None => false end.

(** [x || d] on an optional number. *)
Definition orNum (x : option Z) (d : Z) : Z :=
  match x with
  | Some n => if n =? 0 then d else n
  | None => d
  end.

(** ** [MemStorage]: entity operations (storage.ts 82-179) *)

Definition getAllWheelchairs : M (list Wheelchair.t) :=
  gets (fun st => JsMap.values (wheelchairsData st)).

Definition getWheelchair (id : Z) : M (option Wheelchair.t) :=
  gets (fun st => JsMap.get id (wheelchairsData st)).

Definition createWheelchair (wheelchair : InsertWheelchair.t) : M Wheelchair.t :=
  id <- nextWheelchairId ;;
  let newWheelchair :=
    {| Wheelchair.id := id;
       Wheelchair.model := InsertWheelchair.model wheelchair;
       Wheelchair.brand := InsertWheelchair.brand wheelchair;
       Wheelchair.year := InsertWheelchair.year wheelchair;
       Wheelchair.motor := InsertWheelchair.motor wheelchair;
       Wheelchair.rentalCount := Some 0;
       Wheelchair.wheelSize := InsertWheelchair.wheelSize wheelchair;
       Wheelchair.lastService := InsertWheelchair.lastService wheelchair |} in
  modify (fun st => setWheelchairs (JsMap.set id newWheelchair (wheelchairsData st)) st) ;;;
  ret newWheelchair.

Definition updateWheelchair (id : Z) (wheelchair : WheelchairPatch.t)
  : M (option Wheelchair.t) :=
  existingWheelchair <- gets (fun st => JsMap.get id (wheelchairsData st)) ;;
  match existingWheelchair with
  | None => ret None
  | Some existing =>
      let updatedWheelchair :=
        {| Wheelchair.id := Wheelchair.id existing;
           Wheelchair.model :=
             spread (WheelchairPatch.model wheelchair) (Wheelchair.model existing);
           Wheelchair.brand :=
             spread (WheelchairPatch.brand wheelchair) (Wheelchair.brand existing);
           Wheelchair.year :=
             spread (WheelchairPatch.year wheelchair) (Wheelchair.year existing);
           Wheelchair.motor :=
             spread (WheelchairPatch.motor wheelchair) (Wheelchair.motor existing);
           Wheelchair.rentalCount := Wheelchair.rentalCount existing;
           Wheelchair.wheelSize :=
             spread (WheelchairPatch.wheelSize wheelchair) (Wheelchair.wheelSize existing);
           Wheelchair.lastService :=
             spread (WheelchairPatch.lastService wheelchair)
                    (Wheelchair.lastService existing) |} in
      modify (fun st => setWheelchairs (JsMap.set id updatedWheelchair (wheelchairsData st)) st) ;;;
      ret (Some updatedWheelchair)
  end.

Definition deleteWheelchair (id : Z) : M bool := fun st =>
  let (found, m) := JsMap.delete id (wheelchairsData st) in (found, setWheelchairs m st).

Definition getAllClients : M (list Client.t) :=
  gets (fun st => JsMap.values (clientsData st)).

Definition getClient (id : Z) : M (option Client.t) :=
  gets (fun st => JsMap.get id (clientsData st)).

Definition createClient (client : InsertClient.t) : M Client.t :=
  id <- nextClientId ;;
  let newClient :=
    {| Client.id := id;
       Client.firstName := InsertClient.firstName client;
       Client.lastName := InsertClient.lastName client;
       Client.dni := InsertClient.dni client;
       Client.address := InsertClient.address client;
       Client.phone := InsertClient.phone client;
       Client.email := InsertClient.email client;
       Client.registerDate := InsertClient.registerDate client;
       Client.city := InsertClient.city client;
       Client.country := InsertClient.country client |} in
  modify (fun st => setClients (JsMap.set id newClient (clientsData st)) st) ;;;
  ret newClient.

Definition updateClient (id : Z) (client : ClientPatch.t) : M (option Client.t) :=
  existingClient <- gets (fun st => JsMap.get id (clientsData st)) ;;
  match existingClient with
  | None => ret None
  | Some existing =>
      let updatedClient :=
        {| Client.id := Client.id existing;
           Client.firstName :=
             spread (ClientPatch.firstName client) (Client.firstName existing);
           Client.lastName :=
             spread (ClientPatch.lastName client) (Client.lastName existing);
           Client.dni := spread (ClientPatch.dni client) (Client.dni existing);
           Client.address :=
             spread (ClientPatch.address client) (Client.address existing);
           Client.phone := spread (ClientPatch.phone client) (Client.phone existing);
           Client.email := spread (ClientPatch.email client) (Client.email existing);
           Client.registerDate :=
             spread (ClientPatch.registerDate client) (Client.registerDate existing);
           Client.city := spread (ClientPatch.city client) (Client.city existing);
           Client.country :=
             spread (ClientPatch.country client) (Client.country existing) |} in
      modify (fun st => setClients (JsMap.set id updatedClient (clientsData st)) st) ;;;
      ret (Some updatedClient)
  end.

Definition deleteClient (id : Z) : M bool := fun st =>
  let (found, m) := JsMap.delete id (clientsData st) in (found, setClients m st).

Definition getAllReservations : M (list Reservation.t) :=
  gets (fun st => JsMap.values (reservationsData st)).

Definition getReservation (id : Z) : M (option Reservation.t) :=
  gets (fun st => JsMap.get id (reservationsData st)).

(** storage.ts 232-239.  The wheelchair object is mutated in place and put
    back under the same key. *)
Definition incrementWheelchairRentalCount (id : Z) : M bool :=
  wheelchair <- gets (fun st => JsMap.get id (wheelchairsData st)) ;;
  match wheelchair with
  | None => ret false
  | Some w =>
      let w' :=
        {| Wheelchair.id := Wheelchair.id w;
           Wheelchair.model := Wheelchair.model w;
           Wheelchair.brand := Wheelchair.brand w;
           Wheelchair.year := Wheelchair.year w;
           Wheelchair.motor := Wheelchair.motor w;
           Wheelchair.rentalCount := Some (orZero (Wheelchair.rentalCount w) + 1);
           Wheelchair.wheelSize := Wheelchair.wheelSize w;
           Wheelchair.lastService := Wheelchair.lastService w |} in
      modify (fun st => setWheelchairs (JsMap.set id w' (wheelchairsData st)) st) ;;;
      ret true
  end.

(** storage.ts 153-166.  The result of the increment is not looked at. *)
Definition createReservation (reservation : InsertReservation.t) : M Reservation.t :=
  id <- nextReservationId ;;
  let newReservation :=
    {| Reservation.id := id;
       Reservation.clientId := InsertReservation.clientId reservation;
       Reservation.wheelchairId := InsertReservation.wheelchairId reservation;
       Reservation.startDate := InsertReservation.startDate reservation;
       Reservation.endDate := InsertReservation.endDate reservation;
       Reservation.status := "active";
       Reservation.notes := InsertReservation.notes reservation |} in
  modify (fun st => setReservations (JsMap.set id newReservation (reservationsData st)) st) ;;;
  incrementWheelchairRentalCount (InsertReservation.wheelchairId reservation) ;;;
  ret newReservation.

(** [{ ...existingReservation, ...reservation }]. *)
Definition spreadReservation (existing : Reservation.t) (reservation : ReservationPatch.t)
  : Reservation.t :=
  {| Reservation.id := Reservation.id existing;
     Reservation.clientId :=
       spread (ReservationPatch.clientId reservation) (Reservation.clientId existing);
     Reservation.wheelchairId :=
       spread (ReservationPatch.wheelchairId reservation)
              (Reservation.wheelchairId existing);
     Reservation.startDate :=
       spread (ReservationPatch.startDate reservation) (Reservation.startDate existing);
     Reservation.endDate :=
       spread (ReservationPatch.endDate reservation) (Reservation.endDate existing);
     Reservation.status :=
       spread (ReservationPatch.status reservation) (Reservation.status existing);
     Reservation.notes :=
       spread (ReservationPatch.notes reservation) (Reservation.notes existing) |}.

(** storage.ts 168-175. *)
Definition updateReservation (id : Z) (reservation : ReservationPatch.t)
  : M (option Reservation.t) :=
  existingReservation <- gets (fun st => JsMap.get id (reservationsData st)) ;;
  match existingReservation with
  | None => ret None
  | Some existing =>
      let updatedReservation := spreadReservation existing reservation in
      modify (fun st =>
                setReservations (JsMap.set id updatedReservation (reservationsData st)) st) ;;;
      ret (Some updatedReservation)
  end.

Definition deleteReservation (id : Z) : M bool := fun st =>
  let (found, m) := JsMap.delete id (reservationsData st) in (found, setReservations m st).

(** ** [MemStorage]: business operations (storage.ts 181-230) *)

Definition isActive (r : Reservation.t) : bool :=
  (Reservation.status r =? "active")%string.

(** The filter of [getActiveReservations] and of [getDashboardStats]. *)
Definition activeAndUnexpired (today : Z) (r : Reservation.t) : bool :=
  isActive r && (Reservation.endDate r >=? today).

Definition getActiveReservations (today : Z) : M (list Reservation.t) :=
  gets (fun st => filter (activeAndUnexpired today) (JsMap.values (reservationsData st))).

(** The filter of [checkAvailability], lines 191-199. *)
Definition overlapsActive (startDate endDate : Z) (reservation : Reservation.t) : bool :=
  let reservationStart := Reservation.startDate reservation in
  let reservationEnd := Reservation.endDate reservation in
  ((startDate <=? reservationEnd) && (endDate >=? reservationStart))
  && isActive reservation.

(** [new Set(xs)]: the distinct elements; [has] is membership. *)
Definition newSet (xs : list Z) : list Z := nodup Z.eq_dec xs.

Definition has (s : list Z) (x : Z) : bool := existsb (Z.eqb x) s.

Definition checkAvailability (startDate endDate : Z) : M AvailabilityResult :=
  gets (fun st =>
    let overlappingReservations :=
      filter (overlapsActive startDate endDate) (JsMap.values (reservationsData st)) in
    let reservedWheelchairIds :=
      newSet (map Reservation.wheelchairId overlappingReservations) in
    let availableWheelchairs :=
      filter (fun wheelchair => negb (has reservedWheelchairIds (Wheelchair.id wheelchair)))
             (JsMap.values (wheelchairsData st)) in
    {| available := (0 <? Z.of_nat (List.length availableWheelchairs));
       availableWheelchairs := availableWheelchairs |}).

Definition getDashboardStats (today : Z) : M DashboardStats.t :=
  gets (fun st =>
    let activeReservations :=
      filter (activeAndUnexpired today) (JsMap.values (reservationsData st)) in
    let reservedWheelchairIds :=
      newSet (map Reservation.wheelchairId activeReservations) in
    let totalWheelchairs := JsMap.size (wheelchairsData st) in
    {| DashboardStats.availableWheelchairs :=
         totalWheelchairs - Z.of_nat (List.length reservedWheelchairIds);
       DashboardStats.totalWheelchairs := totalWheelchairs;
       DashboardStats.activeReservations := Z.of_nat (List.length activeReservations);
       DashboardStats.totalClients := JsMap.size (clientsData st) |}).

(** ** [new MemStorage()] (storage.ts 45-80) *)

(** The inch mark of the wheel sizes. *)
Definition inches (n : string) : string :=
  String.append n (String (Ascii.ascii_of_nat 34) EmptyString).

Definition initialWheelchairs : list InsertWheelchair.t :=
  [ InsertWheelchair.mk "XR-500" "MobilityPlus" 2022 "350W" (inches "12") (Some "2023-01-15");
    InsertWheelchair.mk "CT-200" "EasyRide" 2021 "280W" (inches "10") (Some "2023-02-10");
    InsertWheelchair.mk "ZT-800" "PowerMove" 2023 "450W" (inches "14") (Some "2023-03-05");
    InsertWheelchair.mk "EV-100" "MobilityPlus" 2022 "300W" (inches "12") (Some "2023-01-20");
    InsertWheelchair.mk "LX-400" "ComfortGlide" 2021 "320W" (inches "11") (Some "2023-02-15");
    InsertWheelchair.mk "RT-600" "PowerMove" 2023 "400W" (inches "13") (Some "2023-03-10");
    InsertWheelchair.mk "JN-300" "MobilityPlus" 2022 "280W" (inches "10") (Some "2023-01-25");
    InsertWheelchair.mk "FT-700" "EasyRide" 2021 "420W" (inches "14") (Some "2023-02-20");
    InsertWheelchair.mk "GX-250" "ComfortGlide" 2023 "270W" (inches "11") (Some "2023-03-15");
    InsertWheelchair.mk "VZ-150" "PowerMove" 2022 "250W" (inches "10") (Some "2023-01-30");
    InsertWheelchair.mk "KS-550" "MobilityPlus" 2021 "380W" (inches "12") (Some "2023-02-25");
    InsertWheelchair.mk "PT-900" "EasyRide" 2023 "470W" (inches "15") (Some "2023-03-20");
    InsertWheelchair.mk "DL-350" "ComfortGlide" 2022 "310W" (inches "11") (Some "2023-01-05");
    InsertWheelchair.mk "QR-450" "PowerMove" 2021 "340W" (inches "12") (Some "2023-02-05");
    InsertWheelchair.mk "BZ-650" "MobilityPlus" 2023 "410W" (inches "13") (Some "2023-03-25") ].

Definition emptyStorage : MemStorage :=
  {| wheelchairsData := JsMap.empty;
     clientsData := JsMap.empty;
     reservationsData := JsMap.empty;
     wheelchairCurrentId := 1;
     clientCurrentId := 1;
     reservationCurrentId := 1 |}.

Fixpoint forEach {A : Type} (f : A -> M unit) (xs : list A) : M unit :=
  match xs with
  | [] => ret tt
  | x :: xs' => f x ;;; forEach f xs'
  end.

Definition initializeData : M unit :=
  forEach (fun wheelchair => createWheelchair wheelchair ;;; ret tt) initialWheelchairs.

(** The exported [storage]. *)
Definition storage : MemStorage := snd (initializeData emptyStorage).

(** ** Request handlers (routes.ts): the function after [validateBody] *)

(** Each definition of this section is the [async (req, res) => ...] of its
    route, a function of the body that [validateBody] has parsed.  It is not
    the route: the answer 400 of the middleware and the keys it strips are
    in [validateBody] below, and the route is [serve]. *)

Inductive Json : Type :=
| JsonError (error : string)
| JsonWheelchair (wheelchair : Wheelchair.t)
| JsonClient (client : Client.t)
| JsonReservation (reservation : Reservation.t)
| JsonEnd.

Record Response : Type := { statusCode : Z; json : Json }.

Definition respond (code : Z) (j : Json) : M Response :=
  ret {| statusCode := code; json := j |}.

Definition postWheelchairs (body : InsertWheelchair.t) : M Response :=
  wheelchair <- createWheelchair body ;;
  respond 201 (JsonWheelchair wheelchair).

Definition putWheelchairs (id : Z) (body : WheelchairPatch.t) : M Response :=
  updatedWheelchair <- updateWheelchair id body ;;
  match updatedWheelchair with
  | None => respond 404 (JsonError "Wheelchair not found")
  | Some w => respond 200 (JsonWheelchair w)
  end.

Definition deleteWheelchairs (id : Z) : M Response :=
  success <- deleteWheelchair id ;;
  if negb success then respond 404 (JsonError "Wheelchair not found")
  else respond 204 JsonEnd.

Definition postClients (body : InsertClient.t) : M Response :=
  client <- createClient body ;;
  respond 201 (JsonClient client).

Definition putClients (id : Z) (body : ClientPatch.t) : M Response :=
  updatedClient <- updateClient id body ;;
  match updatedClient with
  | None => respond 404 (JsonError "Client not found")
  | Some c => respond 200 (JsonClient c)
  end.

Definition deleteClients (id : Z) : M Response :=
  success <- deleteClient id ;;
  if negb success then respond 404 (JsonError "Client not found")
  else respond 204 JsonEnd.

(** [availability.availableWheelchairs.some(w => w.id === wheelchairId)]. *)
Definition someWithId (wheelchairId : Z) (ws : list Wheelchair.t) : bool :=
  existsb (fun w => Wheelchair.id w =? wheelchairId) ws.

(** The handler of [POST /reservations], routes.ts 196-231. *)
Definition postReservations (body : InsertReservation.t) : M Response :=
  client <- getClient (InsertReservation.clientId body) ;;
  match client with
  | None => respond 400 (JsonError "Client not found")
  | Some _ =>
      wheelchair <- getWheelchair (InsertReservation.wheelchairId body) ;;
      match wheelchair with
      | None => respond 400 (JsonError "Wheelchair not found")
      | Some _ =>
          let startDate := InsertReservation.startDate body in
          let endDate := InsertReservation.endDate body in
          if startDate >=? endDate
          then respond 400 (JsonError "End date must be after start date")
          else
            availability <- checkAvailability startDate endDate ;;
            let isWheelchairAvailable :=
              someWithId (InsertReservation.wheelchairId body)
                         (availableWheelchairs availability) in
            if negb isWheelchairAvailable
            then respond 400
                   (JsonError "Wheelchair is not available for the requested dates")
            else
              reservation <- createReservation body ;;
              respond 201 (JsonReservation reservation)
      end
  end.

(** The filter of [PUT /reservations/:id], routes.ts 255-261. *)
Definition overlappingReservations
    (id wheelchairId startDate endDate : Z) (allReservations : list Reservation.t)
  : list Reservation.t :=
  filter (fun r =>
            negb (Reservation.id r =? id)
            && (Reservation.wheelchairId r =? wheelchairId)
            && isActive r
            && (Reservation.startDate r <=? endDate)
            && (Reservation.endDate r >=? startDate))
         allReservations.

(** The condition of routes.ts 238. *)
Definition checksAvailability (body : ReservationPatch.t) : bool :=
  (truthyObj (ReservationPatch.startDate body)
   || truthyObj (ReservationPatch.endDate body)
   || truthyNum (ReservationPatch.wheelchairId body))
  && negb match ReservationPatch.status body with
          | Some s => (s =? "cancelled")%string
          | None => false
          end.

(** The block of routes.ts 239-265: [Some response] is an early [return]. *)
Definition availabilityBlock (id : Z) (body : ReservationPatch.t)
  : M (option Response) :=
  existingReservation <- getReservation id ;;
  match existingReservation with
  | None =>
      r <- respond 404 (JsonError "Reservation not found") ;; ret (Some r)
  | Some existing =>
      let startDate :=
        spread (ReservationPatch.startDate body) (Reservation.startDate existing) in
      let endDate :=
        spread (ReservationPatch.endDate body) (Reservation.endDate existing) in
      let wheelchairId :=
        orNum (ReservationPatch.wheelchairId body) (Reservation.wheelchairId existing) in
      if startDate >=? endDate
      then r <- respond 400 (JsonError "End date must be after start date") ;;
           ret (Some r)
      else
        availability <- checkAvailability startDate endDate ;;
        allReservations <- getAllReservations ;;
        let overlapping :=
          overlappingReservations id wheelchairId startDate endDate allReservations in
        if 0 <? Z.of_nat (List.length overlapping)
        then r <- respond 400
                    (JsonError "Wheelchair is not available for the requested dates") ;;
             ret (Some r)
        else ret None
  end.

(** The handler of [PUT /reservations/:id], routes.ts 233-278.  It reads
    [req.body.status]; the body it gets through the route has no such
    key. *)
Definition putReservations (id : Z) (body : ReservationPatch.t) : M Response :=
  returned <-
    (if checksAvailability body then availabilityBlock id body else ret None) ;;
  match returned with
  | Some response => ret response
  | None =>
      updatedReservation <- updateReservation id body ;;
      match updatedReservation with
      | None => respond 404 (JsonError "Reservation not found")
      | Some r => respond 200 (JsonReservation r)
      end
  end.

Definition deleteReservations (id : Z) : M Response :=
  success <- deleteReservation id ;;
  if negb success then respond 404 (JsonError "Reservation not found")
  else respond 204 JsonEnd.

(** ** Runs of the handlers *)

Inductive Request : Type :=
| PostWheelchairs (body : InsertWheelchair.t)
| PutWheelchairs (id : Z) (body : WheelchairPatch.t)
| DeleteWheelchairs (id : Z)
| PostClients (body : InsertClient.t)
| PutClients (id : Z) (body : ClientPatch.t)
| DeleteClients (id : Z)
| PostReservations (body : InsertReservation.t)
| PutReservations (id : Z) (body : ReservationPatch.t)
| DeleteReservations (id : Z).

Definition handle (req : Request) : M Response :=
  match req with
  | PostWheelchairs body => postWheelchairs body
  | PutWheelchairs id body => putWheelchairs id body
  | DeleteWheelchairs id => deleteWheelchairs id
  | PostClients body => postClients body
  | PutClients id body => putClients id body
  | DeleteClients id => deleteClients id
  | PostReservations body => postReservations body
  | PutReservations id body => putReservations id body
  | DeleteReservations id => deleteReservations id
  end.

(** The store after a sequence of requests, served one after the other. *)
Fixpoint run (reqs : list Request) (st : MemStorage) : MemStorage :=
  match reqs with
  | [] => st
  | req :: reqs' => run reqs' (snd (handle req st))
  end.

(** The responses of the same run. *)
Fixpoint responses (reqs : list Request) (st : MemStorage) : list Response :=
  match reqs with
  | [] => []
  | req :: reqs' => fst (handle req st) :: responses reqs' (snd (handle req st))
  end.

Definition isSuccess (r : Response) : bool :=
  (200 <=? statusCode r) && (statusCode r <? 300).

(** States reached from [storage] by handler calls; the states reached
    through the routes are among them. *)
Inductive Reachable : MemStorage -> Prop :=
| reach_init : Reachable storage
| reach_step : forall st req,
    Reachable st -> Reachable (snd (handle req st)).

(** ** Request validation (routes.ts 17-29, shared/schema.ts 72-86) *)

(** What the schemas take from outside the repository. *)
Record Schemas : Type := {
  currentYear : Z;                  (* new Date().getFullYear(), when schema.ts is loaded *)
  isEmail : string -> bool;         (* z.string().email() *)
  zodMessage : Request -> string    (* fromZodError(error).message *)
}.

(** [z.string().min(n)]; the characters of a [string] are the code units
    that [s.length] counts. *)
Definition minLength (n : nat) (s : string) : bool := (n <=? String.length s)%nat.

(** [z.number().min(2000).max(new Date().getFullYear())]. *)
Definition yearInRange (z : Schemas) (year : Z) : bool :=
  (2000 <=? year) && (year <=? currentYear z).

(** A refinement on a key of a partial schema: an absent key passes. *)
Definition optionally {A : Type} (check : A -> bool) (x : option A) : bool :=
  match x with Some v => check v | None => true end.

Definition wheelchairSchema (z : Schemas) (body : InsertWheelchair.t) : bool :=
  yearInRange z (InsertWheelchair.year body).

Definition wheelchairSchemaPartial (z : Schemas) (body : WheelchairPatch.t) : bool :=
  optionally (yearInRange z) (WheelchairPatch.year body).

Definition clientSchema (z : Schemas) (body : InsertClient.t) : bool :=
  isEmail z (InsertClient.email body)
  && minLength 6 (InsertClient.phone body)
  && minLength 6 (InsertClient.dni body).

Definition clientSchemaPartial (z : Schemas) (body : ClientPatch.t) : bool :=
  optionally (isEmail z) (ClientPatch.email body)
  && optionally (minLength 6) (ClientPatch.phone body)
  && optionally (minLength 6) (ClientPatch.dni body).

(** [reservationSchema.partial().parse(body)]: the keys of the schema are
    kept, the key [status] is not one of them. *)
Definition reservationSchemaPartial (body : ReservationPatch.t) : ReservationPatch.t :=
  {| ReservationPatch.clientId := ReservationPatch.clientId body;
     ReservationPatch.wheelchairId := ReservationPatch.wheelchairId body;
     ReservationPatch.startDate := ReservationPatch.startDate body;
     ReservationPatch.endDate := ReservationPatch.endDate body;
     ReservationPatch.status := None;
     ReservationPatch.notes := ReservationPatch.notes body |}.

(** [validateBody(schema)]: [req.body = schema.parse(req.body)] and [next()],
    or the answer 400 ([None]).  The [DELETE] routes have no middleware. *)
Definition validateBody (z : Schemas) (req : Request) : option Request :=
  match req with
  | PostWheelchairs body => if wheelchairSchema z body then Some req else None
  | PutWheelchairs id body => if wheelchairSchemaPartial z body then Some req else None
  | PostClients body => if clientSchema z body then Some req else None
  | PutClients id body => if clientSchemaPartial z body then Some req else None
  | PostReservations body => Some req
  | PutReservations id body => Some (PutReservations id (reservationSchemaPartial body))
  | DeleteWheelchairs _ | DeleteClients _ | DeleteReservations _ => Some req
  end.

(** A route: the middleware, then the handler. *)
Definition serve (z : Schemas) (req : Request) : M Response :=
  match validateBody z req with
  | Some req' => handle req'
  | None => respond 400 (JsonError (zodMessage z req))
  end.

(** The store after a sequence of requests sent to the routes. *)
Fixpoint serveRun (z : Schemas) (reqs : list Request) (st : MemStorage) : MemStorage :=
  match reqs with
  | [] => st
  | req :: reqs' => serveRun z reqs' (snd (serve z req st))
  end.

(** The answers of the same run. *)
Fixpoint serveResponses (z : Schemas) (reqs : list Request) (st : MemStorage)
  : list Response :=
  match reqs with
  | [] => []
  | req :: reqs' => fst (serve z req st) :: serveResponses z reqs' (snd (serve z req st))
  end.

(** The requests of a list that pass their middleware, as the handlers
    receive them. *)
Fixpoint validated (z : Schemas) (reqs : list Request) : list Request :=
  match reqs with
  | [] => []
  | req :: reqs' =>
      match validateBody z req with
      | Some req' => req' :: validated z reqs'
      | None => validated z reqs'
      end
  end.

(** States reached from [storage] through the routes. *)
Inductive Served (z : Schemas) : MemStorage -> Prop :=
| served_init : Served z storage
| served_step : forall st req,
    Served z st -> Served z (snd (serve z req st)).

(** ** Vocabulary of the properties *)

(** Inclusive overlap of [s1, e1] and [s2, e2]. *)
Definition overlap (s1 e1 s2 e2 : Z) : Prop := s1 <= e2 /\ e1 >= s2.

(** [r] is a reservation of the store. *)
Definition storedReservation (st : MemStorage) (r : Reservation.t) : Prop :=
  In r (JsMap.values (reservationsData st)).

(** [w] is a wheelchair of the store. *)
Definition storedWheelchair (st : MemStorage) (w : Wheelchair.t) : Prop :=
  In w (JsMap.values (wheelchairsData st)).

(** [r] has status "active", references wheelchair [u] and overlaps
    [startDate, endDate]. *)
Definition blocks (u startDate endDate : Z) (r : Reservation.t) : Prop :=
  Reservation.status r = "active"
  /\ Reservation.wheelchairId r = u
  /\ overlap (Reservation.startDate r) (Reservation.endDate r) startDate endDate.

(** Wheelchair id [u] is offered by an availability result. *)
Definition offers (result : AvailabilityResult) (u : Z) : Prop :=
  exists w, In w (availableWheelchairs result) /\ Wheelchair.id w = u.

(** [r] has status "active" and has not ended before [today]. *)
Definition effectivelyActive (today : Z) (r : Reservation.t) : Prop :=
  Reservation.status r = "active" /\ Reservation.endDate r >= today.

(** ** Scenarios *)

Definition sampleClient : InsertClient.t :=
  InsertClient.mk "Ana" "Ruiz" "12345678" "Calle Mayor 1" "600123123"
                  "ana@example.com" "2024-01-01" "Madrid" "ES".

(** A store with three wheelchairs and one client, and a reservation of
    wheelchair 2 for the days [100, 200]. *)
Definition threeWheelchairs : MemStorage :=
  run [ PostWheelchairs (InsertWheelchair.mk "XR-500" "MobilityPlus" 2022 "350W" "12" None);
        PostWheelchairs (InsertWheelchair.mk "CT-200" "EasyRide" 2021 "280W" "10" None);
        PostWheelchairs (InsertWheelchair.mk "ZT-800" "PowerMove" 2023 "450W" "14" None);
        PostClients sampleClient;
        PostReservations (InsertReservation.mk 1 2 100 200 None) ]
      emptyStorage.

(** The usage counter of a wheelchair as a number. *)
Definition usage (w : Wheelchair.t) : Z := orZero (Wheelchair.rentalCount w).

(** The store after [POST /clients] with [sampleClient]. *)
Definition oneClient : MemStorage := run [PostClients sampleClient] storage.

(** A client patch with the key [registerDate] only. *)
Definition registerDateOnly (d : string) : ClientPatch.t :=
  ClientPatch.mk None None None None None None (Some d) None None.

(** A client patch with the key [phone] only. *)
Definition phoneOnly (p : string) : ClientPatch.t :=
  ClientPatch.mk None None None None (Some p) None None None None.

(** A reservation request for a wheelchair id that [storage] does not
    hold. *)
Definition unknownWheelchair : InsertReservation.t :=
  InsertReservation.mk 1 999 10 20 None.

(** The new reservation of [createReservation]. *)
Definition newReservation (id : Z) (reservation : InsertReservation.t) : Reservation.t :=
  {| Reservation.id := id;
     Reservation.clientId := InsertReservation.clientId reservation;
     Reservation.wheelchairId := InsertReservation.wheelchairId reservation;
     Reservation.startDate := InsertReservation.startDate reservation;
     Reservation.endDate := InsertReservation.endDate reservation;
     Reservation.status := "active";
     Reservation.notes := InsertReservation.notes reservation |}.

(** The response to a rejected request. *)
Definition rejected (code : Z) (error : string) : Response :=
  {| statusCode := code; json := JsonError error |}.

(** What every store reached from [storage] satisfies: reservation keys
    are distinct, each entry carries its key as [id], keys are below the
    next identifier, and wheelchair identifiers start at 1. *)
Definition wellFormed (st : MemStorage) : Prop :=
  NoDup (JsMap.keys (reservationsData st))
  /\ (forall k r, In (k, r) (reservationsData st) ->
                  Reservation.id r = k /\ k < reservationCurrentId st)
  /\ 1 <= wheelchairCurrentId st
  /\ (forall k w, In (k, w) (wheelchairsData st) ->
                  Wheelchair.id w = k /\ 1 <= k < wheelchairCurrentId st).

(** No two distinct stored reservations with status "active" that
    reference wheelchair id [u] overlap. *)
Definition noDoubleBooking (u : Z) (st : MemStorage) : Prop :=
  forall r1 r2,
    storedReservation st r1 -> storedReservation st r2 ->
    Reservation.id r1 <> Reservation.id r2 ->
    Reservation.status r1 = "active" -> Reservation.status r2 = "active" ->
    Reservation.wheelchairId r1 = u -> Reservation.wheelchairId r2 = u ->
    ~ overlap (Reservation.startDate r1) (Reservation.endDate r1)
              (Reservation.startDate r2) (Reservation.endDate r2).

(** Every stored reservation starts strictly before it ends. *)
Definition startBeforeEnd (st : MemStorage) : Prop :=
  forall r, storedReservation st r -> Reservation.startDate r < Reservation.endDate r.

Definition statusIs (s : string) (body : ReservationPatch.t) : bool :=
  match ReservationPatch.status body with
  | Some s' => (s' =? s)%string
  | None => false
  end.

(** A body, as the handler reads it, that sets status "active" while the
    condition of routes.ts 238 is false: the availability block is skipped.
    [validateBody] hands over no such body, it strips the key. *)
Definition reactivatesUnchecked (body : ReservationPatch.t) : bool :=
  statusIs "active" body && negb (checksAvailability body).

(** A body, as the handler reads it, that sets status "cancelled" and a
    date: the block with the date test is skipped.  [validateBody] hands
    over no such body either. *)
Definition cancelsWithDates (body : ReservationPatch.t) : bool :=
  statusIs "cancelled" body
  && (truthyObj (ReservationPatch.startDate body)
      || truthyObj (ReservationPatch.endDate body)).

Definition noUncheckedReactivation (req : Request) : bool :=
  match req with
  | PutReservations _ body => negb (reactivatesUnchecked body)
  | _ => true
  end.

Definition noCancelWithDates (req : Request) : bool :=
  match req with
  | PutReservations _ body => negb (cancelsWithDates body)
  | _ => true
  end.

(** Every request of the run was answered with a 2xx status. *)
Definition allAccepted (reqs : list Request) (st : MemStorage) : Prop :=
  Forall (fun response => isSuccess response = true) (responses reqs st).

Definition patchWheelchairId (u : Z) : ReservationPatch.t :=
  ReservationPatch.mk None (Some u) None None None None.

Definition patchStatus (s : string) : ReservationPatch.t :=
  ReservationPatch.mk None None None None (Some s) None.

Definition patchStartDate (d : Z) : ReservationPatch.t :=
  ReservationPatch.mk None None (Some d) None None None.

(** Two overlapping reservations of wheelchairs 1 and 2, both then moved
    to wheelchair id 0. *)
Definition zeroWheelchairTrace : list Request :=
  [ PostClients sampleClient;
    PostReservations (InsertReservation.mk 1 1 10 20 None);
    PostReservations (InsertReservation.mk 1 2 15 25 None);
    PutReservations 1 (patchWheelchairId 0);
    PutReservations 2 (patchWheelchairId 0) ].

(** A reservation for [10, 20] is created; the update then sends an end
    date before its start date together with the key [status]. *)
Definition cancelInvertedTrace : list Request :=
  [ PostReservations (InsertReservation.mk 1 1 10 20 None);
    PutReservations 1 (ReservationPatch.mk None None None (Some 5)
                                           (Some "cancelled") None) ].

(** A reservation is created and its start date is moved. *)
Definition moveStartTrace : list Request :=
  [ PostClients sampleClient;
    PostReservations (InsertReservation.mk 1 1 10 20 None);
    PutReservations 1 (patchStartDate 12) ].

(** The body of a reservation update has no [status] key: only the keys
    of [reservationSchema]. *)
Definition schemaKeysOnly (req : Request) : bool :=
  match req with
  | PutReservations _ body =>
      match ReservationPatch.status body with Some _ => false | None => true end
  | _ => true
  end.

(** ** Read-only routes (routes.ts 35-57, 99-121, 163-194, 296-331) *)

(** The answer of a [GET] route: the status code with an error message or
    with the JSON payload. *)
Record Reply (A : Type) : Type := { replyCode : Z; replyBody : string + A }.
Arguments replyCode {A} _.
Arguments replyBody {A} _.

Definition found {A : Type} (a : A) : Reply A :=
  {| replyCode := 200; replyBody := inr a |}.

Definition failed {A : Type} (code : Z) (error : string) : Reply A :=
  {| replyCode := code; replyBody := inl error |}.

Definition routeGetWheelchairs : M (Reply (list Wheelchair.t)) :=
  wheelchairs <- getAllWheelchairs ;;
  ret (found wheelchairs).

Definition routeGetWheelchair (id : Z) : M (Reply Wheelchair.t) :=
  wheelchair <- getWheelchair id ;;
  match wheelchair with
  | None => ret (failed 404 "Wheelchair not found")
  | Some w => ret (found w)
  end.

Definition routeGetClients : M (Reply (list Client.t)) :=
  clients <- getAllClients ;;
  ret (found clients).

Definition routeGetClient (id : Z) : M (Reply Client.t) :=
  client <- getClient id ;;
  match client with
  | None => ret (failed 404 "Client not found")
  | Some c => ret (found c)
  end.

Definition routeGetReservations : M (Reply (list Reservation.t)) :=
  reservations <- getAllReservations ;;
  ret (found reservations).

Definition routeGetActiveReservations (today : Z) : M (Reply (list Reservation.t)) :=
  activeReservations <- getActiveReservations today ;;
  ret (found activeReservations).


Definition routeGetStats (today : Z) : M (Reply DashboardStats.t) :=
  stats <- getDashboardStats today ;;
  ret (found stats).

(** [!param] for a query parameter: absent and the empty string are falsy. *)
Definition falsyParam (param : option string) : bool :=
  match param with
  | None => true
  | Some s => (s =? "")%string
  end.

Section Availability.

(** [new Date(s).getTime()]: [None] is an Invalid Date ([NaN]). *)
Variable parseDate : string -> option Z.

(** [GET /availability], routes.ts 296-321. *)
Definition routeGetAvailability (startDateParam endDateParam : option string)
  : M (Reply AvailabilityResult) :=
  if falsyParam startDateParam || falsyParam endDateParam
  then ret (failed 400 "Start date and end date are required")
  else
    match startDateParam, endDateParam with
    | Some sp, Some ep =>
        match parseDate sp, parseDate ep with
        | Some startDate, Some endDate =>
            if startDate >=? endDate
            then ret (failed 400 "End date must be after start date")
            else
              availability <- checkAvailability startDate endDate ;;
              ret (found availability)
        | _, _ => ret (failed 400 "Invalid date format")
        end
    | _, _ => ret (failed 400 "Start date and end date are required")
    end.

End Availability.

(** ** Integrity of the store *)

(** A map whose keys are distinct and lie in [1, next), and whose entries
    carry their key as identifier. *)
Definition mapOk {V : Type} (idOf : V -> Z) (m : JsMap.t V) (next : Z) : Prop :=
  NoDup (JsMap.keys m)
  /\ 1 <= next
  /\ forall k v, In (k, v) m -> idOf v = k /\ 1 <= k < next.

Definition storeIntegrity (st : MemStorage) : Prop :=
  mapOk Wheelchair.id (wheelchairsData st) (wheelchairCurrentId st)
  /\ mapOk Client.id (clientsData st) (clientCurrentId st)
  /\ mapOk Reservation.id (reservationsData st) (reservationCurrentId st).

(** Every stored wheelchair has a counter that is a number and not
    negative. *)
Definition countersNatural (st : MemStorage) : Prop :=
  forall w, storedWheelchair st w ->
            exists n, Wheelchair.rentalCount w = Some n /\ 0 <= n.

(** [c] is a client of the store. *)
Definition storedClient (st : MemStorage) (c : Client.t) : Prop :=
  In c (JsMap.values (clientsData st)).

(** The sum of the usage counters of a list of wheelchairs. *)
Definition totalUsage (ws : list Wheelchair.t) : Z :=
  fold_right (fun w acc => usage w + acc) 0 ws.

(** Patches of a reservation. *)
Definition emptyPatch : ReservationPatch.t :=
  ReservationPatch.mk None None None None None None.

Definition notesOnly (n : option string) : ReservationPatch.t :=
  ReservationPatch.mk None None None None None (Some n).

(** The patch that sends back the wheelchair and the dates of [r]. *)
Definition sameBooking (r : Reservation.t) : ReservationPatch.t :=
  ReservationPatch.mk None (Some (Reservation.wheelchairId r))
                      (Some (Reservation.startDate r)) (Some (Reservation.endDate r))
                      None None.

(** Wheelchair 2 reserved for [100, 200], then deleted. *)
Definition danglingReservation : MemStorage :=
  run [DeleteWheelchairs 2] threeWheelchairs.

(** The requests of a run that were answered with a 2xx status. *)
Fixpoint acceptedOnly (reqs : list Request) (st : MemStorage) : list Request :=
  match reqs with
  | [] => []
  | req :: reqs' =>
      if isSuccess (fst (handle req st))
      then req :: acceptedOnly reqs' (snd (handle req st))
      else acceptedOnly reqs' (snd (handle req st))
  end.

(** The initial store after a client is registered and wheelchair 2 is
    reserved for [100, 200]. *)
Definition threeWheelchairsReached : MemStorage :=
  run [ PostClients sampleClient;
        PostReservations (InsertReservation.mk 1 2 100 200 None) ]
      storage.

(** One value of the parameters of the schemas, for instances: the year
    2026, and an e-mail test that asks for an at-sign. *)
Definition sampleSchemas : Schemas :=
  {| currentYear := 2026;
     isEmail := fun s =>
       existsb (fun c => Ascii.eqb c "@"%char) (list_ascii_of_string s);
     zodMessage := fun _ => "Validation error" |}.

(** * Properties *)

(** ** Facts about [JsMap] *)

Section JsMapFacts.
Context {V : Type}.
Implicit Types (m : JsMap.t V) (k : Z) (v : V).

Lemma get_In m k v : JsMap.get k m = Some v -> In (k, v) m.
Proof.
  induction m as [|[k' v'] m IH]; simpl; [discriminate|].
  destruct (Z.eqb_spec k k') as [->|Hne]; intro H.
  - injection H as ->. now left.
  - right. now apply IH.
Qed.

Lemma get_set_same m k v : JsMap.get k (JsMap.set k v m) = Some v.
Proof.
  induction m as [|[k' v'] m IH]; simpl.
  - now rewrite Z.eqb_refl.
  - destruct (Z.eqb_spec k k') as [->|Hne]; simpl.
    + now rewrite Z.eqb_refl.
    + destruct (Z.eqb_spec k k'); [contradiction|exact IH].
Qed.

Lemma get_set_other m k k' v :
  k' <> k -> JsMap.get k' (JsMap.set k v m) = JsMap.get k' m.
Proof.
  intro Hne. induction m as [|[k0 v0] m IH]; simpl.
  - destruct (Z.eqb_spec k' k); [contradiction|reflexivity].
  - destruct (Z.eqb_spec k k0) as [->|Hk]; simpl.
    + destruct (Z.eqb_spec k' k0); [contradiction|reflexivity].
    + destruct (Z.eqb_spec k' k0); [reflexivity|exact IH].
Qed.

(** Every entry after [set] is the new one or an old one. *)
Lemma In_set_inv m k v k' v' :
  In (k', v') (JsMap.set k v m) -> (k' = k /\ v' = v) \/ In (k', v') m.
Proof.
  induction m as [|[k0 v0] m IH]; simpl.
  - intros [H|[]]. injection H as <- <-. now left.
  - destruct (Z.eqb_spec k k0) as [->|Hk]; simpl.
    + intros [H|H]; [injection H as <- <-; now left | right; now right].
    + intros [H|H]; [right; now left|].
      destruct (IH H) as [?|?]; [now left | right; now right].
Qed.

Lemma keys_set_incl m k v k' :
  In k' (JsMap.keys (JsMap.set k v m)) -> k' = k \/ In k' (JsMap.keys m).
Proof.
  unfold JsMap.keys. induction m as [|[k0 v0] m IH]; simpl.
  - intros [H|[]]; now left.
  - destruct (Z.eqb_spec k k0) as [->|Hk]; simpl.
    + intros [H|H]; [now left | right; now right].
    + intros [H|H]; [right; now left|].
      destruct (IH H) as [?|?]; [now left | right; now right].
Qed.

Lemma NoDup_keys_set m k v :
  NoDup (JsMap.keys m) -> NoDup (JsMap.keys (JsMap.set k v m)).
Proof.
  unfold JsMap.keys. induction m as [|[k0 v0] m IH]; simpl; intro H.
  - constructor; [intros []|constructor].
  - inversion H as [|? ? Hnotin Hnd]; subst.
    destruct (Z.eqb_spec k k0) as [->|Hk]; simpl.
    + now constructor.
    + constructor; [|now apply IH].
      intro Hin. apply (keys_set_incl m k v k0) in Hin.
      destruct Hin as [->|Hin]; [now apply Hk | now apply Hnotin].
Qed.

(** With distinct keys, [set] leaves no old entry under its key. *)
Lemma In_set_inv_strong m k v k' v' :
  NoDup (JsMap.keys m) ->
  In (k', v') (JsMap.set k v m) ->
  (k' = k /\ v' = v) \/ (k' <> k /\ In (k', v') m).
Proof.
  unfold JsMap.keys. induction m as [|[k0 v0] m IH]; simpl; intro Hnd.
  - intros [H|[]]. injection H as <- <-. now left.
  - inversion Hnd as [|? ? Hnotin Hnd']; subst.
    destruct (Z.eqb_spec k k0) as [->|Hk]; simpl.
    + intros [H|H]; [injection H as <- <-; now left|].
      right. split; [|now right].
      intros ->. apply Hnotin. now apply (in_map fst) in H.
    + intros [H|H].
      * injection H as <- <-. right. split; [congruence | now left].
      * destruct (IH Hnd' H) as [?|[? ?]]; [now left | right; split; auto].
Qed.

Lemma In_get m k v : NoDup (JsMap.keys m) -> In (k, v) m -> JsMap.get k m = Some v.
Proof.
  unfold JsMap.keys. induction m as [|[k0 v0] m IH]; simpl; intros Hnd Hin; [easy|].
  inversion Hnd as [|? ? Hnotin Hnd']; subst.
  destruct Hin as [H|H].
  - injection H as -> ->. now rewrite Z.eqb_refl.
  - destruct (Z.eqb_spec k k0) as [->|Hk]; [|now apply IH].
    exfalso. apply Hnotin. now apply (in_map fst) in H.
Qed.

Lemma In_delete m k k' v' :
  In (k', v') (snd (JsMap.delete k m)) -> In (k', v') m.
Proof.
  induction m as [|[k0 v0] m IH]; simpl; [easy|].
  destruct (Z.eqb_spec k k0) as [->|Hk]; simpl.
  - now right.
  - destruct (JsMap.delete k m) as [found rest]; simpl in *.
    intros [H|H]; [now left | right; now apply IH].
Qed.

Lemma NoDup_keys_delete m k :
  NoDup (JsMap.keys m) -> NoDup (JsMap.keys (snd (JsMap.delete k m))).
Proof.
  unfold JsMap.keys. induction m as [|[k0 v0] m IH]; simpl; intro Hnd.
  - constructor.
  - inversion Hnd as [|? ? Hnotin Hnd']; subst.
    destruct (Z.eqb_spec k k0) as [->|Hk]; simpl; [assumption|].
    specialize (IH Hnd').
    pose proof (In_delete m k) as Hsub.
    destruct (JsMap.delete k m) as [found rest]; simpl in *.
    constructor; [|assumption].
    intro Hin. apply in_map_iff in Hin as [[k1 v1] [Hk1 Hin]]. simpl in Hk1. subst k1.
    apply Hnotin. apply (in_map fst) in Hin as Hin'.
    apply Hsub in Hin. now apply (in_map fst) in Hin.
Qed.

Lemma In_values m v : In v (JsMap.values m) <-> exists k, In (k, v) m.
Proof.
  unfold JsMap.values. rewrite in_map_iff. split.
  - intros [[k v0] [Hv Hin]]. simpl in Hv. subst. now exists k.
  - intros [k Hin]. now exists (k, v).
Qed.

End JsMapFacts.

(** ** Availability *)

Lemma isActive_iff r : isActive r = true <-> Reservation.status r = "active".
Proof. unfold isActive. apply String.eqb_eq. Qed.

Lemma has_newSet xs x : has (newSet xs) x = true <-> In x xs.
Proof.
  unfold has, newSet. rewrite existsb_exists. split.
  - intros [y [Hy Heq]]. apply Z.eqb_eq in Heq. subst y. now apply nodup_In in Hy.
  - intro H. exists x. split; [now apply nodup_In | apply Z.eqb_refl].
Qed.

Lemma overlapsActive_iff startDate endDate r :
  overlapsActive startDate endDate r = true <->
  blocks (Reservation.wheelchairId r) startDate endDate r.
Proof.
  unfold overlapsActive, blocks, overlap.
  rewrite !andb_true_iff, isActive_iff, Z.leb_le, Z.geb_le. intuition lia.
Qed.

(** The reserved ids of [checkAvailability] are the ids blocked by a stored
    reservation. *)
Lemma reserved_iff st startDate endDate u :
  has (newSet (map Reservation.wheelchairId
                   (filter (overlapsActive startDate endDate)
                           (JsMap.values (reservationsData st))))) u = true <->
  exists r, storedReservation st r /\ blocks u startDate endDate r.
Proof.
  rewrite has_newSet, in_map_iff. unfold storedReservation. split.
  - intros [r [Hu Hin]]. apply filter_In in Hin as [Hin Hov].
    apply overlapsActive_iff in Hov. rewrite Hu in Hov. now exists r.
  - intros [r [Hin Hb]]. exists r. split; [apply Hb|].
    apply filter_In. split; [assumption|].
    apply overlapsActive_iff. destruct Hb as (Ha & Hu & Ho). now rewrite Hu.
Qed.

Lemma In_available st startDate endDate w :
  In w (availableWheelchairs (fst (checkAvailability startDate endDate st))) <->
  storedWheelchair st w /\
  ~ exists r, storedReservation st r /\ blocks (Wheelchair.id w) startDate endDate r.
Proof.
  unfold checkAvailability, gets, storedWheelchair. simpl.
  rewrite filter_In, negb_true_iff, <- reserved_iff.
  split; intros [Hin H]; split; try assumption.
  - now rewrite H.
  - now apply not_true_is_false.
Qed.

(** C2. [checkAvailability(start, end)] leaves the store as it is and
    returns, in store order, exactly the stored wheelchairs whose id no
    stored reservation with status "active" overlapping [start, end]
    (inclusively) references; [available] says whether that list is
    non-empty.  A wheelchair all of whose reservations have another status
    is returned; a wheelchair with an active reservation that shares a
    boundary day with the range is not. *)
Theorem checkAvailability_exact :
  forall (st : MemStorage) (startDate endDate : Z),
    let result := fst (checkAvailability startDate endDate st) in
    snd (checkAvailability startDate endDate st) = st
    /\ (forall w,
          In w (availableWheelchairs result) <->
          storedWheelchair st w /\
          ~ exists r, storedReservation st r
                      /\ blocks (Wheelchair.id w) startDate endDate r)
    /\ (exists keep,
          availableWheelchairs result = filter keep (JsMap.values (wheelchairsData st)))
    /\ (available result = true <-> availableWheelchairs result <> [])
    /\ (forall w,
          storedWheelchair st w ->
          (forall r, storedReservation st r ->
                     Reservation.wheelchairId r = Wheelchair.id w ->
                     Reservation.status r = "completed"
                     \/ Reservation.status r = "cancelled") ->
          In w (availableWheelchairs result))
    /\ (forall w r,
          storedReservation st r ->
          Reservation.status r = "active" ->
          Reservation.wheelchairId r = Wheelchair.id w ->
          Reservation.startDate r <= Reservation.endDate r ->
          startDate <= endDate ->
          Reservation.endDate r = startDate \/ Reservation.startDate r = endDate ->
          ~ In w (availableWheelchairs result)).
Proof.
  intros st startDate endDate result. subst result.
  split; [reflexivity|].
  split; [intro w; apply In_available|].
  split; [eexists; reflexivity|].
  split.
  - unfold checkAvailability, gets. simpl.
    destruct (filter _ (JsMap.values (wheelchairsData st))) as [|w ws]; simpl.
    + split; [discriminate | intro H; now elim H].
    + split; [discriminate | reflexivity].
  - split.
    + intros w Hw Hall. apply In_available. split; [assumption|].
      intros [r (Hr & Ha & Hu & _)].
      destruct (Hall r Hr Hu) as [H|H]; rewrite H in Ha; discriminate.
    + intros w r Hr Ha Hu Hse Hq Hb Hin.
      apply In_available in Hin as [_ Hno]. apply Hno.
      exists r. split; [assumption|].
      unfold blocks, overlap. repeat split; try assumption; lia.
Qed.

Lemma overlappingReservations_nil id u startDate endDate rs :
  overlappingReservations id u startDate endDate rs = [] <->
  forall r, In r rs -> Reservation.id r <> id -> ~ blocks u startDate endDate r.
Proof.
  unfold overlappingReservations, blocks, overlap. split.
  - intros Hnil r Hin Hid (Ha & Hu & Hs & He).
    assert (Hf : In r []); [|exact Hf].
    rewrite <- Hnil. apply filter_In. split; [assumption|].
    rewrite !andb_true_iff, negb_true_iff, isActive_iff, Z.leb_le, Z.geb_le, !Z.eqb_eq.
    repeat split; try assumption; try lia; try (now apply Z.eqb_neq).
  - intro H.
    destruct (filter _ rs) as [|r l] eqn:E; [reflexivity|].
    assert (Hin : In r (r :: l)) by now left.
    rewrite <- E in Hin. apply filter_In in Hin as [Hin Hc].
    rewrite !andb_true_iff, negb_true_iff, isActive_iff, Z.leb_le, Z.geb_le, !Z.eqb_eq in Hc.
    destruct Hc as ((((Hid & Hu) & Ha) & Hs) & He).
    exfalso. apply (H r Hin); [now apply Z.eqb_neq|].
    repeat split; try assumption; lia.
Qed.

(** C3. For a wheelchair id [u] of the store and a range [s, e]: the
    overlap filter of the update path, run with an [id] that excludes no
    stored reservation, finds nothing for [u] exactly when
    [checkAvailability(s, e)] lists [u] among [availableWheelchairs]. *)
Theorem update_filter_agrees_with_checkAvailability :
  forall (st : MemStorage) (u s e id : Z),
    (exists w, storedWheelchair st w /\ Wheelchair.id w = u) ->
    (forall r, storedReservation st r -> Reservation.id r <> id) ->
    (overlappingReservations id u s e (fst (getAllReservations st)) = []
     <-> offers (fst (checkAvailability s e st)) u)
    /\ ((~ exists r, storedReservation st r /\ blocks u s e r)
        <-> offers (fst (checkAvailability s e st)) u).
Proof.
  intros st u s e id [w [Hw Hid]] Hnone.
  assert (Hsem : (~ exists r, storedReservation st r /\ blocks u s e r)
                 <-> offers (fst (checkAvailability s e st)) u).
  { unfold offers. split.
    - intro H. exists w. split; [|assumption].
      apply In_available. split; [assumption | now rewrite Hid].
    - intros [w' [Hin Hid']].
      apply In_available in Hin as [_ Hno]. now rewrite Hid' in Hno. }
  split; [|exact Hsem].
  rewrite <- Hsem, overlappingReservations_nil. simpl. split.
  - intros H [r [Hr Hb]]. exact (H r Hr (Hnone r Hr) Hb).
  - intros H r Hr _ Hb. apply H. now exists r.
Qed.

Lemma update_filter_agrees_with_checkAvailability_witness :
  (overlappingReservations 99 1 120 130 (fst (getAllReservations threeWheelchairs)) = []
   <-> offers (fst (checkAvailability 120 130 threeWheelchairs)) 1)
  /\ ((~ exists r, storedReservation threeWheelchairs r /\ blocks 1 120 130 r)
      <-> offers (fst (checkAvailability 120 130 threeWheelchairs)) 1).
Proof.
  apply (update_filter_agrees_with_checkAvailability threeWheelchairs 1 120 130 99).
  - exists (Wheelchair.mk 1 "XR-500" "MobilityPlus" 2022 "350W" (Some 0) "12" None).
    split; [vm_compute; auto | reflexivity].
  - intros r Hr. unfold storedReservation in Hr. vm_compute in Hr.
    destruct Hr as [<-|[]]. vm_compute. discriminate.
Defined.

(** ** Dashboard *)

Lemma activeAndUnexpired_iff today r :
  activeAndUnexpired today r = true <-> effectivelyActive today r.
Proof.
  unfold activeAndUnexpired, effectivelyActive.
  rewrite andb_true_iff, isActive_iff, Z.geb_le. intuition lia.
Qed.

(** C8. [getDashboardStats] counts the reservations with status "active"
    and [endDate >= today], subtracts the number of distinct wheelchair ids
    they reference from the number of stored wheelchairs, and reports the
    numbers of stored wheelchairs and clients; with three wheelchairs and
    one such reservation the result is 2 available, 3 in total, 1 active. *)
Theorem getDashboardStats_counts :
  forall (st : MemStorage) (today : Z),
    let stats := fst (getDashboardStats today st) in
    (exists (act : list Reservation.t) (ids : list Z),
        act = filter (activeAndUnexpired today) (JsMap.values (reservationsData st))
        /\ (forall r, In r act <-> storedReservation st r /\ effectivelyActive today r)
        /\ NoDup ids
        /\ (forall u, In u ids <-> exists r, In r act /\ Reservation.wheelchairId r = u)
        /\ DashboardStats.activeReservations stats = Z.of_nat (List.length act)
        /\ DashboardStats.availableWheelchairs stats
           = DashboardStats.totalWheelchairs stats - Z.of_nat (List.length ids))
    /\ DashboardStats.totalWheelchairs stats
       = Z.of_nat (List.length (JsMap.values (wheelchairsData st)))
    /\ DashboardStats.totalClients stats
       = Z.of_nat (List.length (JsMap.values (clientsData st)))
    /\ fst (getDashboardStats 150 threeWheelchairs)
       = DashboardStats.mk 2 3 1 1.
Proof.
  intros st today stats. subst stats. split; [|split; [|split]].
  - exists (filter (activeAndUnexpired today) (JsMap.values (reservationsData st))).
    exists (newSet (map Reservation.wheelchairId
                        (filter (activeAndUnexpired today)
                                (JsMap.values (reservationsData st))))).
    split; [reflexivity|]. split.
    { intro r. rewrite filter_In, activeAndUnexpired_iff. reflexivity. }
    split; [apply NoDup_nodup|]. split.
    { intro u. unfold newSet. rewrite nodup_In, in_map_iff.
      split; intros [r [H1 H2]]; exists r; tauto. }
    split; reflexivity.
  - unfold getDashboardStats, gets, JsMap.size, JsMap.values. simpl.
    now rewrite length_map.
  - unfold getDashboardStats, gets, JsMap.size, JsMap.values. simpl.
    now rewrite length_map.
  - reflexivity.
Qed.

(** C10. [checkAvailability] looks at status and overlap only: an "active"
    reservation that ended before [today] still keeps its wheelchair out of
    the result for every range it overlaps.  [getActiveReservations]
    returns exactly the stored reservations that are "active" and end at or
    after [today], and [getDashboardStats] counts exactly these and
    subtracts exactly the wheelchair ids they reference: when every
    "active" reservation has ended, it reports every stored wheelchair
    available.  So there is a store where the dashboard counts three of
    three wheelchairs available while [checkAvailability] over a past range
    returns two and withholds the third. *)
Theorem expiry_ignored_by_checkAvailability :
  (forall (st : MemStorage) (today s e : Z) (r : Reservation.t) (w : Wheelchair.t),
      storedReservation st r ->
      Reservation.status r = "active" ->
      Reservation.endDate r < today ->
      overlap (Reservation.startDate r) (Reservation.endDate r) s e ->
      Reservation.wheelchairId r = Wheelchair.id w ->
      ~ In w (availableWheelchairs (fst (checkAvailability s e st))))
  /\ (forall (st : MemStorage) (today : Z) (r : Reservation.t),
         In r (fst (getActiveReservations today st)) <->
         storedReservation st r
         /\ Reservation.status r = "active"
         /\ Reservation.endDate r >= today)
  /\ (forall (st : MemStorage) (today : Z),
         let stats := fst (getDashboardStats today st) in
         DashboardStats.activeReservations stats
         = Z.of_nat (List.length (fst (getActiveReservations today st)))
         /\ DashboardStats.totalWheelchairs stats
            = Z.of_nat (List.length (fst (getAllWheelchairs st)))
         /\ (exists ids : list Z,
                NoDup ids
                /\ (forall u, In u ids <->
                              exists r, storedReservation st r
                                        /\ Reservation.status r = "active"
                                        /\ Reservation.endDate r >= today
                                        /\ Reservation.wheelchairId r = u)
                /\ DashboardStats.availableWheelchairs stats
                   = DashboardStats.totalWheelchairs stats - Z.of_nat (List.length ids))
         /\ ((forall r, storedReservation st r -> Reservation.status r = "active" ->
                        Reservation.endDate r < today) ->
             DashboardStats.activeReservations stats = 0
             /\ DashboardStats.availableWheelchairs stats
                = Z.of_nat (List.length (fst (getAllWheelchairs st)))))
  /\ (exists (st : MemStorage) (today s e : Z) (w : Wheelchair.t) (r : Reservation.t),
        storedWheelchair st w
        /\ storedReservation st r
        /\ Reservation.status r = "active"
        /\ Reservation.wheelchairId r = Wheelchair.id w
        /\ Reservation.endDate r < today
        /\ ~ In w (availableWheelchairs (fst (checkAvailability s e st)))
        /\ List.length (availableWheelchairs (fst (checkAvailability s e st))) = 2%nat
        /\ fst (getActiveReservations today st) = []
        /\ fst (getDashboardStats today st) = DashboardStats.mk 3 3 0 1).
Proof.
  split; [|split; [|split]].
  - intros st today s e r w Hr Ha Hexp Hov Hu Hin.
    apply In_available in Hin as [_ Hno]. apply Hno.
    exists r. split; [assumption|]. split; [assumption | split; assumption].
  - intros st today r. unfold getActiveReservations, gets. simpl.
    rewrite filter_In, activeAndUnexpired_iff. unfold effectivelyActive. tauto.
  - intros st today stats. subst stats.
    unfold getDashboardStats, getActiveReservations, getAllWheelchairs, gets. simpl.
    set (act := filter (activeAndUnexpired today) (JsMap.values (reservationsData st))).
    assert (Hsize : JsMap.size (wheelchairsData st)
                    = Z.of_nat (List.length (JsMap.values (wheelchairsData st)))).
    { unfold JsMap.size, JsMap.values. now rewrite length_map. }
    split; [reflexivity|]. split; [exact Hsize|]. split.
    + exists (newSet (map Reservation.wheelchairId act)).
      split; [apply NoDup_nodup|]. split; [|reflexivity].
      intro u. unfold newSet. rewrite nodup_In, in_map_iff. split.
      * intros [r [Hu Hr]]. apply filter_In in Hr as [Hr Ha].
        apply activeAndUnexpired_iff in Ha as [Ha He].
        exists r. split; [exact Hr|]. split; [exact Ha|]. split; [exact He | exact Hu].
      * intros [r (Hr & Ha & He & Hu)]. exists r. split; [exact Hu|].
        apply filter_In. split; [exact Hr|].
        apply activeAndUnexpired_iff. split; [exact Ha | exact He].
    + intro Hexpired.
      assert (Hnone : act = []).
      { destruct act as [|r l] eqn:E; [reflexivity|].
        assert (Hin : In r act) by (rewrite E; now left).
        apply filter_In in Hin as [Hr Ha].
        apply activeAndUnexpired_iff in Ha as [Ha He].
        specialize (Hexpired r Hr Ha). lia. }
      rewrite Hnone. simpl. split; [reflexivity|]. rewrite Hsize. lia.
  - exists threeWheelchairs, 300, 120, 130.
    exists (Wheelchair.mk 2 "CT-200" "EasyRide" 2021 "280W" (Some 1) "10" None).
    exists (Reservation.mk 1 1 2 100 200 "active" None).
    split; [right; left; reflexivity|].
    split; [left; reflexivity|].
    split; [reflexivity|]. split; [reflexivity|]. split; [simpl; lia|].
    split; [|split; [|split]]; try reflexivity.
    vm_compute. intros [H|[H|[]]]; discriminate.
Qed.

(** ** The middleware *)

Lemma serve_valid z req req' st :
  validateBody z req = Some req' -> serve z req st = handle req' st.
Proof. intro H. unfold serve. now rewrite H. Qed.

Lemma serve_refused z req st :
  validateBody z req = None ->
  serve z req st = (rejected 400 (zodMessage z req), st).
Proof. intro H. unfold serve. now rewrite H. Qed.

(** What the handler receives has no [status] key. *)
Lemma validateBody_schemaKeysOnly z req req' :
  validateBody z req = Some req' -> schemaKeysOnly req' = true.
Proof.
  destruct req as [body|id body|id|body|id body|id|body|id body|id]; simpl;
    try (destruct (_ z body)); intro H; inversion H; reflexivity.
Qed.

Lemma serveRun_validated z reqs :
  forall st, serveRun z reqs st = run (validated z reqs) st.
Proof.
  induction reqs as [|req reqs IH]; intro st; simpl; [reflexivity|].
  unfold serve. destruct (validateBody z req) as [req'|]; simpl; apply IH.
Qed.

Lemma validated_schemaKeysOnly z reqs :
  Forall (fun req => schemaKeysOnly req = true) (validated z reqs).
Proof.
  induction reqs as [|req reqs IH]; simpl; [constructor|].
  destruct (validateBody z req) as [req'|] eqn:H; [|exact IH].
  constructor; [exact (validateBody_schemaKeysOnly z req req' H) | exact IH].
Qed.

(** The stores reached through the routes are reached by handler calls. *)
Lemma Served_Reachable z st : Served z st -> Reachable st.
Proof.
  induction 1 as [|st req _ IH]; [constructor|].
  unfold serve. destruct (validateBody z req) as [req'|]; [|exact IH].
  now constructor.
Qed.

Lemma Served_serveRun z reqs :
  forall st, Served z st -> Served z (serveRun z reqs st).
Proof.
  induction reqs as [|req reqs IH]; intros st H; simpl; [exact H|].
  apply IH. now constructor.
Qed.

(** ** Clients *)

Lemma updateClient_found st id body c :
  JsMap.get id (clientsData st) = Some c ->
  exists c',
    updateClient id body st
    = (Some c', setClients (JsMap.set id c' (clientsData st)) st)
    /\ Client.id c' = Client.id c
    /\ Client.registerDate c'
       = spread (ClientPatch.registerDate body) (Client.registerDate c).
Proof.
  intro H. unfold updateClient, bind, gets, modify, ret. rewrite H.
  eexists. split; [reflexivity|]. split; reflexivity.
Qed.

(** A body with the key [registerDate] only passes [clientSchema.partial()]. *)
Lemma registerDateOnly_valid z d id :
  validateBody z (PutClients id (registerDateOnly d))
  = Some (PutClients id (registerDateOnly d)).
Proof. reflexivity. Qed.

(** C9, as it fails: the body [{registerDate: "1999-12-31"}] passes
    [clientSchema.partial()], and [PUT /clients/1] answers 200 and replaces
    the registration date of client 1. *)
Lemma registerDate_overwritten :
  exists c c',
    JsMap.get 1 (clientsData oneClient) = Some c
    /\ serve sampleSchemas (PutClients 1 (registerDateOnly "1999-12-31")) oneClient
       = putClients 1 (registerDateOnly "1999-12-31") oneClient
    /\ statusCode (fst (putClients 1 (registerDateOnly "1999-12-31") oneClient)) = 200
    /\ JsMap.get 1 (clientsData (snd (putClients 1 (registerDateOnly "1999-12-31") oneClient)))
       = Some c'
    /\ Client.registerDate c' <> Client.registerDate c.
Proof.
  do 2 eexists. split; [reflexivity|]. split; [reflexivity|]. split; [reflexivity|].
  split; [reflexivity|]. discriminate.
Qed.

(** C9, amended.  [PUT /clients/:id] for a stored client answers 400 and
    changes nothing when the body fails [clientSchema.partial()];
    otherwise it answers 200, and the client then has the [registerDate] of
    the body when the body has that key and the stored one when it has
    not; no other client is touched.  So an accepted update whose body has
    no [registerDate] key leaves every registration date as it was. *)
Theorem registerDate_kept_without_key :
  forall (z : Schemas) (st : MemStorage) (id : Z) (body : ClientPatch.t) (c : Client.t),
    JsMap.get id (clientsData st) = Some c ->
    (clientSchemaPartial z body = false ->
     serve z (PutClients id body) st
     = (rejected 400 (zodMessage z (PutClients id body)), st))
    /\ (clientSchemaPartial z body = true ->
        exists c',
          fst (serve z (PutClients id body) st)
          = {| statusCode := 200; json := JsonClient c' |}
          /\ JsMap.get id (clientsData (snd (serve z (PutClients id body) st))) = Some c'
          /\ Client.registerDate c'
             = spread (ClientPatch.registerDate body) (Client.registerDate c)
          /\ (ClientPatch.registerDate body = None ->
              Client.registerDate c' = Client.registerDate c)
          /\ (forall k, k <> id ->
                        JsMap.get k (clientsData (snd (serve z (PutClients id body) st)))
                        = JsMap.get k (clientsData st))).
Proof.
  intros z st id body c Hget. split; intro Hschema.
  - apply serve_refused. simpl. now rewrite Hschema.
  - rewrite (serve_valid z _ (PutClients id body)) by (simpl; now rewrite Hschema).
    destruct (updateClient_found st id body c Hget) as [c' (Hrun & _ & Hdate)].
    exists c'. simpl. unfold putClients, bind, respond, ret. rewrite Hrun. simpl.
    split; [reflexivity|]. split; [apply get_set_same|]. split; [exact Hdate|]. split.
    + intro Hkey. rewrite Hdate, Hkey. reflexivity.
    + intros k Hk. now apply get_set_other.
Qed.

Lemma registerDate_kept_without_key_witness :
  exists c',
    fst (serve sampleSchemas (PutClients 1 (phoneOnly "600999999")) oneClient)
    = {| statusCode := 200; json := JsonClient c' |}
    /\ Client.phone c' = "600999999"
    /\ Client.email c' = "ana@example.com"
    /\ Client.registerDate c' = "2024-01-01".
Proof.
  destruct (registerDate_kept_without_key sampleSchemas oneClient 1 (phoneOnly "600999999")
              (Client.mk 1 "Ana" "Ruiz" "12345678" "Calle Mayor 1" "600123123"
                         "ana@example.com" "2024-01-01" "Madrid" "ES")
              eq_refl)
    as [_ Hvalid].
  destruct (Hvalid eq_refl) as [c' (Hresp & _ & _ & Hkept & _)].
  exists c'. split; [exact Hresp|].
  assert (Hc : c' = Client.mk 1 "Ana" "Ruiz" "12345678" "Calle Mayor 1" "600999999"
                              "ana@example.com" "2024-01-01" "Madrid" "ES").
  { vm_compute in Hresp. injection Hresp as <-. reflexivity. }
  split; [now rewrite Hc|]. split; [now rewrite Hc | exact (Hkept eq_refl)].
Defined.

(** ** Creating a reservation *)

Lemma usage_Some n : orZero (Some n) = n.
Proof. simpl. destruct (Z.eqb_spec n 0); congruence. Qed.

Lemma createReservation_fst st ins :
  fst (createReservation ins st) = newReservation (reservationCurrentId st) ins.
Proof.
  unfold createReservation, incrementWheelchairRentalCount, nextReservationId,
    bind, gets, modify, ret. simpl.
  destruct (JsMap.get _ (wheelchairsData st)); reflexivity.
Qed.

Lemma createReservation_reservations st ins :
  reservationsData (snd (createReservation ins st))
  = JsMap.set (reservationCurrentId st)
              (newReservation (reservationCurrentId st) ins) (reservationsData st)
  /\ reservationCurrentId (snd (createReservation ins st)) = reservationCurrentId st + 1
  /\ clientsData (snd (createReservation ins st)) = clientsData st
  /\ clientCurrentId (snd (createReservation ins st)) = clientCurrentId st
  /\ wheelchairCurrentId (snd (createReservation ins st)) = wheelchairCurrentId st.
Proof.
  unfold createReservation, incrementWheelchairRentalCount, nextReservationId,
    bind, gets, modify, ret. simpl.
  destruct (JsMap.get _ (wheelchairsData st)); simpl; repeat split; reflexivity.
Qed.

Lemma createReservation_wheelchairs_found st ins w :
  JsMap.get (InsertReservation.wheelchairId ins) (wheelchairsData st) = Some w ->
  exists w',
    wheelchairsData (snd (createReservation ins st))
    = JsMap.set (InsertReservation.wheelchairId ins) w' (wheelchairsData st)
    /\ Wheelchair.id w' = Wheelchair.id w
    /\ usage w' = usage w + 1.
Proof.
  intro H.
  unfold createReservation, incrementWheelchairRentalCount, nextReservationId,
    bind, gets, modify, ret. simpl. rewrite H. simpl.
  eexists. split; [reflexivity|]. split; [reflexivity|].
  unfold usage. simpl Wheelchair.rentalCount. apply usage_Some.
Qed.

Lemma createReservation_wheelchairs_missing st ins :
  JsMap.get (InsertReservation.wheelchairId ins) (wheelchairsData st) = None ->
  wheelchairsData (snd (createReservation ins st)) = wheelchairsData st.
Proof.
  intro H.
  unfold createReservation, incrementWheelchairRentalCount, nextReservationId,
    bind, gets, modify, ret. simpl. now rewrite H.
Qed.

(** The five outcomes of [POST /reservations], in the order of the code. *)
Lemma postReservations_cases st body :
  postReservations body st =
  match JsMap.get (InsertReservation.clientId body) (clientsData st) with
  | None => (rejected 400 "Client not found", st)
  | Some _ =>
      match JsMap.get (InsertReservation.wheelchairId body) (wheelchairsData st) with
      | None => (rejected 400 "Wheelchair not found", st)
      | Some _ =>
          if InsertReservation.startDate body >=? InsertReservation.endDate body
          then (rejected 400 "End date must be after start date", st)
          else if negb (someWithId (InsertReservation.wheelchairId body)
                          (availableWheelchairs
                             (fst (checkAvailability (InsertReservation.startDate body)
                                                     (InsertReservation.endDate body) st))))
               then (rejected 400 "Wheelchair is not available for the requested dates", st)
               else ({| statusCode := 201;
                        json := JsonReservation (fst (createReservation body st)) |},
                     snd (createReservation body st))
      end
  end.
Proof.
  unfold postReservations, getClient, getWheelchair, bind, gets, respond, ret, rejected.
  destruct (JsMap.get _ (clientsData st)); [|reflexivity].
  destruct (JsMap.get _ (wheelchairsData st)); [|reflexivity].
  destruct (_ >=? _); [reflexivity|].
  unfold checkAvailability, gets. simpl.
  destruct (negb _); [reflexivity|].
  destruct (createReservation body st). reflexivity.
Qed.

(** C7, as it fails: [createReservation] for a wheelchair id that the
    store does not hold stores the reservation and changes no wheelchair. *)
Lemma createReservation_without_increment :
  JsMap.get 1 (reservationsData (snd (createReservation unknownWheelchair storage)))
  = Some (fst (createReservation unknownWheelchair storage))
  /\ JsMap.get 1 (reservationsData storage) = None
  /\ wheelchairsData (snd (createReservation unknownWheelchair storage))
     = wheelchairsData storage.
Proof. repeat split. Qed.

(** C7, amended.  For every call of the store's [createReservation] whose
    [wheelchairId] resolves to a stored wheelchair, the reservation insert
    and the counter increment both take effect: the new reservation is
    stored under the next identifier and that wheelchair's counter is one
    higher. *)
Theorem createReservation_insert_and_increment :
  forall (st : MemStorage) (ins : InsertReservation.t) (w : Wheelchair.t),
    JsMap.get (InsertReservation.wheelchairId ins) (wheelchairsData st) = Some w ->
    let r := fst (createReservation ins st) in
    let st' := snd (createReservation ins st) in
    Reservation.id r = reservationCurrentId st
    /\ JsMap.get (reservationCurrentId st) (reservationsData st') = Some r
    /\ exists w',
         JsMap.get (InsertReservation.wheelchairId ins) (wheelchairsData st') = Some w'
         /\ usage w' = usage w + 1.
Proof.
  intros st ins w Hw r st'. subst r st'.
  destruct (createReservation_reservations st ins) as (Hres & _).
  destruct (createReservation_wheelchairs_found st ins w Hw) as [w' (Hws & _ & Hu)].
  rewrite createReservation_fst, Hres, Hws.
  split; [reflexivity|]. split; [apply get_set_same|].
  exists w'. split; [apply get_set_same | exact Hu].
Qed.

Lemma createReservation_insert_and_increment_witness :
  let ins := InsertReservation.mk 1 2 10 20 None in
  let r := fst (createReservation ins storage) in
  let st' := snd (createReservation ins storage) in
  Reservation.id r = 1
  /\ JsMap.get 1 (reservationsData st') = Some r
  /\ exists w', JsMap.get 2 (wheelchairsData st') = Some w' /\ usage w' = 0 + 1.
Proof.
  exact (createReservation_insert_and_increment storage
           (InsertReservation.mk 1 2 10 20 None)
           (Wheelchair.mk 2 "CT-200" "EasyRide" 2021 "280W" (Some 0) (inches "10")
                          (Some "2023-02-10"))
           eq_refl).
Defined.

(** ** What a request does to the store *)

Ltac run_storage :=
  unfold postWheelchairs, putWheelchairs, deleteWheelchairs,
    postClients, putClients, deleteClients, deleteReservations,
    createWheelchair, updateWheelchair, deleteWheelchair,
    createClient, updateClient, deleteClient,
    updateReservation, deleteReservation,
    getReservation, getAllReservations, getClient, getWheelchair,
    nextWheelchairId, nextClientId, nextReservationId,
    respond, bind, gets, modify, ret in *;
  simpl in *.

(** [PUT /reservations/:id] leaves the store alone or replaces the entry
    of [id] by the spread; when the availability block ran, its two tests
    passed. *)
Lemma putReservations_cases st id body :
  snd (putReservations id body st) = st
  \/ exists existing,
       JsMap.get id (reservationsData st) = Some existing
       /\ putReservations id body st
          = ({| statusCode := 200;
                json := JsonReservation (spreadReservation existing body) |},
             setReservations
               (JsMap.set id (spreadReservation existing body) (reservationsData st)) st)
       /\ (checksAvailability body = true ->
           spread (ReservationPatch.startDate body) (Reservation.startDate existing)
           < spread (ReservationPatch.endDate body) (Reservation.endDate existing)
           /\ overlappingReservations id
                (orNum (ReservationPatch.wheelchairId body)
                       (Reservation.wheelchairId existing))
                (spread (ReservationPatch.startDate body) (Reservation.startDate existing))
                (spread (ReservationPatch.endDate body) (Reservation.endDate existing))
                (JsMap.values (reservationsData st)) = []).
Proof.
  unfold putReservations, availabilityBlock, checkAvailability.
  run_storage.
  destruct (checksAvailability body) eqn:Hc; simpl.
  - destruct (JsMap.get id (reservationsData st)) as [existing|] eqn:Hget; simpl;
      [|now left].
    destruct (_ >=? _) eqn:Hge; simpl; [now left|].
    destruct (overlappingReservations _ _ _ _ _) as [|r l] eqn:Hov; simpl;
      [|now left].
    rewrite Hget. simpl. right. exists existing.
    split; [reflexivity|]. split; [reflexivity|].
    intros _. split; [|exact Hov].
    rewrite Z.geb_leb in Hge. apply Z.leb_gt in Hge. exact Hge.
  - destruct (JsMap.get id (reservationsData st)) as [existing|] eqn:Hget; simpl;
      [|now left].
    right. exists existing. split; [reflexivity|]. split; [reflexivity|].
    discriminate.
Qed.

Lemma deleteReservations_snd st id :
  snd (deleteReservations id st)
  = setReservations (snd (JsMap.delete id (reservationsData st))) st.
Proof.
  run_storage. destruct (JsMap.delete id (reservationsData st)) as [[|] m]; reflexivity.
Qed.

(** ** Well-formed stores *)

Lemma wellFormed_storage : wellFormed storage.
Proof.
  unfold wellFormed.
  remember (wheelchairCurrentId storage) as c eqn:Hc. vm_compute in Hc.
  remember (reservationsData storage) as rs eqn:Hrs. vm_compute in Hrs.
  remember (wheelchairsData storage) as ws eqn:Hws. vm_compute in Hws.
  subst c rs ws.
  split; [constructor|]. split; [intros k r []|].
  split; [lia|].
  intros k w H.
  repeat (destruct H as [H|H]; [injection H as <- <-; split; [reflexivity|lia]|]).
  destruct H.
Qed.

Lemma wellFormed_wheelchairs_set st k w :
  wellFormed st ->
  Wheelchair.id w = k -> 1 <= k < wheelchairCurrentId st ->
  wellFormed (setWheelchairs (JsMap.set k w (wheelchairsData st)) st).
Proof.
  intros (Hnd & Hres & Hc & Hws) Hid Hk. unfold wellFormed. simpl.
  split; [assumption|]. split; [assumption|]. split; [assumption|].
  intros k' w' H.
  apply In_set_inv in H as [[-> ->]|H]; [split; assumption | now apply Hws].
Qed.

Lemma wellFormed_reservations_set st k r :
  wellFormed st ->
  Reservation.id r = k -> k < reservationCurrentId st ->
  wellFormed (setReservations (JsMap.set k r (reservationsData st)) st).
Proof.
  intros (Hnd & Hres & Hc & Hws) Hid Hk. unfold wellFormed. simpl.
  split; [now apply NoDup_keys_set|].
  split; [|split; assumption].
  intros k' r' H.
  apply In_set_inv in H as [[-> ->]|H]; [split; assumption | now apply Hres].
Qed.

Lemma wellFormed_createReservation st ins :
  wellFormed st -> wellFormed (snd (createReservation ins st)).
Proof.
  intros (Hnd & Hres & Hc & Hws).
  destruct (createReservation_reservations st ins) as (Hr & Hn & _ & _ & Hwc).
  unfold wellFormed. rewrite Hr, Hn, Hwc.
  split; [now apply NoDup_keys_set|].
  split; [|split; [assumption|]].
  - intros k r H.
    apply In_set_inv in H as [[-> ->]|H]; [simpl; split; [reflexivity|lia]|].
    destruct (Hres k r H). split; [assumption|lia].
  - destruct (JsMap.get (InsertReservation.wheelchairId ins) (wheelchairsData st))
      as [w|] eqn:Hget.
    + destruct (createReservation_wheelchairs_found st ins w Hget) as [w' (Hw & Hid & _)].
      rewrite Hw. intros k w0 H.
      apply get_In, Hws in Hget.
      apply In_set_inv in H as [[-> ->]|H]; [|now apply Hws].
      rewrite Hid. exact Hget.
    + rewrite (createReservation_wheelchairs_missing st ins Hget). exact Hws.
Qed.

Lemma wellFormed_handle st req :
  wellFormed st -> wellFormed (snd (handle req st)).
Proof.
  intro Hwf. destruct req as [body|id body|id|body|id body|id|body|id body|id];
    unfold handle.
  - (* POST /wheelchairs *)
    destruct Hwf as (Hnd & Hres & Hc & Hws). run_storage. unfold wellFormed. simpl.
    split; [assumption|]. split; [assumption|]. split; [lia|].
    intros k w H.
    apply In_set_inv in H as [[-> ->]|H]; [simpl; lia|].
    destruct (Hws k w H). lia.
  - (* PUT /wheelchairs/:id *)
    run_storage.
    destruct (JsMap.get id (wheelchairsData st)) as [existing|] eqn:Hget; simpl;
      [|assumption].
    pose proof Hwf as (_ & _ & _ & Hws). apply get_In, Hws in Hget.
    apply wellFormed_wheelchairs_set; [assumption| |]; apply Hget.
  - (* DELETE /wheelchairs/:id *)
    destruct Hwf as (Hnd & Hres & Hc & Hws). run_storage.
    pose proof (In_delete (wheelchairsData st) id) as Hsub.
    destruct (JsMap.delete id (wheelchairsData st)) as [[|] m]; simpl in *;
      (split; [assumption|]; split; [assumption|]; split; [assumption|]);
      intros k w H; apply Hws, Hsub, H.
  - (* POST /clients *)
    run_storage. exact Hwf.
  - (* PUT /clients/:id *)
    run_storage. destruct (JsMap.get id (clientsData st)); exact Hwf.
  - (* DELETE /clients/:id *)
    run_storage. destruct (JsMap.delete id (clientsData st)) as [[|] m]; exact Hwf.
  - (* POST /reservations *)
    rewrite postReservations_cases.
    destruct (JsMap.get _ (clientsData st)); [|assumption].
    destruct (JsMap.get _ (wheelchairsData st)); [|assumption].
    destruct (_ >=? _); [assumption|].
    destruct (negb _); [assumption|].
    now apply wellFormed_createReservation.
  - (* PUT /reservations/:id *)
    destruct (putReservations_cases st id body) as [->|[existing (Hget & -> & _)]];
      [assumption|].
    pose proof Hwf as (_ & Hres & _). apply get_In, Hres in Hget.
    apply wellFormed_reservations_set; [assumption| |]; apply Hget.
  - (* DELETE /reservations/:id *)
    rewrite deleteReservations_snd.
    destruct Hwf as (Hnd & Hres & Hc & Hws). unfold wellFormed. simpl.
    split; [now apply NoDup_keys_delete|]. split; [|split; assumption].
    intros k r H. apply Hres. now apply In_delete in H.
Qed.

Lemma wellFormed_run reqs st : wellFormed st -> wellFormed (run reqs st).
Proof.
  revert st. induction reqs as [|req reqs IH]; intros st H; simpl; [assumption|].
  apply IH. now apply wellFormed_handle.
Qed.

Lemma Reachable_wellFormed st : Reachable st -> wellFormed st.
Proof.
  induction 1; [apply wellFormed_storage | now apply wellFormed_handle].
Qed.

Lemma Reachable_run reqs st : Reachable st -> Reachable (run reqs st).
Proof.
  revert st. induction reqs as [|req reqs IH]; intros st H; simpl; [assumption|].
  apply IH. now constructor.
Qed.

(** ** The create path *)

Lemma someWithId_offers result u :
  someWithId u (availableWheelchairs result) = true <-> offers result u.
Proof.
  unfold someWithId, offers. rewrite existsb_exists.
  split; intros [w [Hin Hid]]; exists w; (split; [assumption|]); now apply Z.eqb_eq.
Qed.

(** For a wheelchair of a well-formed store, the test of the create path
    is the absence of a blocking reservation. *)
Lemma someWithId_iff_unblocked st u s e w :
  wellFormed st ->
  JsMap.get u (wheelchairsData st) = Some w ->
  (someWithId u (availableWheelchairs (fst (checkAvailability s e st))) = true
   <-> ~ exists r, storedReservation st r /\ blocks u s e r).
Proof.
  intros (_ & _ & _ & Hws) Hget. apply get_In in Hget as Hin.
  destruct (Hws u w Hin) as [Hid _].
  rewrite someWithId_offers. unfold offers. split.
  - intros [w' [Hav Hid']]. apply In_available in Hav as [_ Hno]. now rewrite Hid' in Hno.
  - intro Hno. exists w. split; [|assumption].
    apply In_available. split; [|now rewrite Hid].
    apply In_values. now exists u.
Qed.

Lemma fresh_reservation_id st :
  wellFormed st ->
  ~ In (reservationCurrentId st) (JsMap.keys (reservationsData st))
  /\ forall r, storedReservation st r -> Reservation.id r <> reservationCurrentId st.
Proof.
  intros (_ & Hres & _). split.
  - unfold JsMap.keys. rewrite in_map_iff. intros [[k r] [Hk Hin]]. simpl in Hk.
    destruct (Hres k r Hin). lia.
  - intros r Hr. apply In_values in Hr as [k Hin]. destruct (Hres k r Hin). lia.
Qed.

(** C4. [POST /reservations] tests, in this order, that the client exists,
    that the wheelchair exists, that start is strictly before end and that
    the wheelchair is available for the range; the first test that fails
    gives the error and the store stays as it was.  When all pass the
    answer is 201 with a reservation that has the next, unused identifier
    and status "active"; it is stored, and the counter of its wheelchair is
    one higher. *)
Theorem postReservations_checks_in_order :
  forall (st : MemStorage) (body : InsertReservation.t),
    Reachable st ->
    let clientId := InsertReservation.clientId body in
    let wheelchairId := InsertReservation.wheelchairId body in
    let startDate := InsertReservation.startDate body in
    let endDate := InsertReservation.endDate body in
    let client := JsMap.get clientId (clientsData st) in
    let wheelchair := JsMap.get wheelchairId (wheelchairsData st) in
    let free := ~ exists r, storedReservation st r
                            /\ blocks wheelchairId startDate endDate r in
    (client = None ->
     postReservations body st = (rejected 400 "Client not found", st))
    /\ (client <> None -> wheelchair = None ->
        postReservations body st = (rejected 400 "Wheelchair not found", st))
    /\ (client <> None -> wheelchair <> None -> startDate >= endDate ->
        postReservations body st
        = (rejected 400 "End date must be after start date", st))
    /\ (client <> None -> wheelchair <> None -> startDate < endDate -> ~ free ->
        postReservations body st
        = (rejected 400 "Wheelchair is not available for the requested dates", st))
    /\ (client <> None -> wheelchair <> None -> startDate < endDate -> free ->
        exists r st' w w',
          postReservations body st
          = ({| statusCode := 201; json := JsonReservation r |}, st')
          /\ r = newReservation (reservationCurrentId st) body
          /\ Reservation.status r = "active"
          /\ ~ In (Reservation.id r) (JsMap.keys (reservationsData st))
          /\ (forall r0, storedReservation st r0 -> Reservation.id r0 <> Reservation.id r)
          /\ JsMap.get (Reservation.id r) (reservationsData st') = Some r
          /\ (forall k, k <> Reservation.id r ->
                        JsMap.get k (reservationsData st') = JsMap.get k (reservationsData st))
          /\ reservationCurrentId st' = reservationCurrentId st + 1
          /\ wheelchair = Some w
          /\ JsMap.get wheelchairId (wheelchairsData st') = Some w'
          /\ usage w' = usage w + 1).
Proof.
  intros st body Hreach clientId wheelchairId startDate endDate client wheelchair free.
  apply Reachable_wellFormed in Hreach as Hwf.
  subst client wheelchair.
  rewrite postReservations_cases.
  fold clientId wheelchairId startDate endDate.
  destruct (JsMap.get clientId (clientsData st)) as [c|] eqn:Hc;
    [|repeat split; intros; congruence].
  destruct (JsMap.get wheelchairId (wheelchairsData st)) as [w|] eqn:Hw;
    [|repeat split; intros; congruence].
  pose proof (someWithId_iff_unblocked st wheelchairId startDate endDate w Hwf Hw) as Hfree.
  fold free in Hfree.
  destruct (Z.geb_spec startDate endDate) as [Hge|Hlt].
  { repeat split; intros; try congruence; lia. }
  destruct (someWithId wheelchairId _) eqn:Hav; simpl.
  - assert (Hf : free) by now apply Hfree.
    split; [discriminate|]. split; [discriminate|]. split; [intros; lia|].
    split; [intros _ _ _ Hn; now elim Hn|]. intros _ _ _ _.
    destruct (createReservation_reservations st body) as (Hres & Hn & _).
    destruct (createReservation_wheelchairs_found st body w Hw) as [w' (Hws & _ & Hu)].
    destruct (fresh_reservation_id st Hwf) as [Hfresh Hdistinct].
    exists (fst (createReservation body st)), (snd (createReservation body st)), w, w'.
    rewrite createReservation_fst, Hres, Hn, Hws. simpl.
    split; [reflexivity|]. split; [reflexivity|]. split; [reflexivity|].
    split; [assumption|]. split; [assumption|].
    split; [apply get_set_same|].
    split; [intros k Hk; now apply get_set_other|].
    split; [reflexivity|]. split; [reflexivity|].
    split; [apply get_set_same | exact Hu].
  - assert (Hnf : ~ free) by (intro Hf; apply Hfree in Hf; discriminate).
    split; [discriminate|]. split; [discriminate|]. split; [intros; lia|].
    split; [reflexivity|]. intros _ _ _ Hf. contradiction.
Qed.

Lemma postReservations_checks_in_order_witness :
  Reachable oneClient
  /\ statusCode (fst (postReservations (InsertReservation.mk 1 2 10 20 None) oneClient))
     = 201.
Proof.
  assert (Hreach : Reachable oneClient)
    by exact (Reachable_run [PostClients sampleClient] storage reach_init).
  split; [exact Hreach|].
  destruct (postReservations_checks_in_order oneClient
              (InsertReservation.mk 1 2 10 20 None) Hreach)
    as (_ & _ & _ & _ & Hok).
  destruct Hok as (r & st' & w & w' & Hrun & _).
  - vm_compute. discriminate.
  - vm_compute. discriminate.
  - vm_compute. reflexivity.
  - intros [r (Hr & _)]. vm_compute in Hr. exact Hr.
  - rewrite Hrun. reflexivity.
Defined.

(** ** The usage counter *)

Lemma updateReservation_wheelchairs st id patch :
  wheelchairsData (snd (updateReservation id patch st)) = wheelchairsData st.
Proof.
  run_storage. destruct (JsMap.get id (reservationsData st)); reflexivity.
Qed.

Lemma putReservations_wheelchairs st id body :
  wheelchairsData (snd (putReservations id body st)) = wheelchairsData st.
Proof.
  destruct (putReservations_cases st id body) as [->|[existing (_ & -> & _)]];
    reflexivity.
Qed.

(** C6. A [createReservation] for a stored wheelchair, and so every
    [POST /reservations] answered 201, raises the counter of that
    wheelchair by exactly one and leaves the other wheelchairs alone;
    [updateReservation] with any patch (so also a change of status),
    [deleteReservation] and their handlers leave every wheelchair as it
    was. *)
Theorem rentalCount_changes_only_on_create :
  (forall (st : MemStorage) (ins : InsertReservation.t) (w : Wheelchair.t),
      JsMap.get (InsertReservation.wheelchairId ins) (wheelchairsData st) = Some w ->
      exists w',
        JsMap.get (InsertReservation.wheelchairId ins)
                  (wheelchairsData (snd (createReservation ins st))) = Some w'
        /\ usage w' = usage w + 1
        /\ forall u, u <> InsertReservation.wheelchairId ins ->
                     JsMap.get u (wheelchairsData (snd (createReservation ins st)))
                     = JsMap.get u (wheelchairsData st))
  /\ (forall (st : MemStorage) (body : InsertReservation.t),
         statusCode (fst (postReservations body st)) = 201 ->
         exists w w',
           JsMap.get (InsertReservation.wheelchairId body) (wheelchairsData st) = Some w
           /\ JsMap.get (InsertReservation.wheelchairId body)
                        (wheelchairsData (snd (postReservations body st))) = Some w'
           /\ usage w' = usage w + 1
           /\ forall u, u <> InsertReservation.wheelchairId body ->
                        JsMap.get u (wheelchairsData (snd (postReservations body st)))
                        = JsMap.get u (wheelchairsData st))
  /\ (forall (st : MemStorage) (id : Z) (patch : ReservationPatch.t),
         wheelchairsData (snd (updateReservation id patch st)) = wheelchairsData st
         /\ wheelchairsData (snd (putReservations id patch st)) = wheelchairsData st)
  /\ (forall (st : MemStorage) (id : Z),
         wheelchairsData (snd (deleteReservation id st)) = wheelchairsData st
         /\ wheelchairsData (snd (deleteReservations id st)) = wheelchairsData st).
Proof.
  assert (Hcreate :
    forall st ins w,
      JsMap.get (InsertReservation.wheelchairId ins) (wheelchairsData st) = Some w ->
      exists w',
        JsMap.get (InsertReservation.wheelchairId ins)
                  (wheelchairsData (snd (createReservation ins st))) = Some w'
        /\ usage w' = usage w + 1
        /\ forall u, u <> InsertReservation.wheelchairId ins ->
                     JsMap.get u (wheelchairsData (snd (createReservation ins st)))
                     = JsMap.get u (wheelchairsData st)).
  { intros st ins w Hw.
    destruct (createReservation_wheelchairs_found st ins w Hw) as [w' (Hws & _ & Hu)].
    exists w'. rewrite Hws. split; [apply get_set_same|]. split; [exact Hu|].
    intros u Hne. now apply get_set_other. }
  split; [exact Hcreate|]. split; [|split].
  - intros st body. rewrite postReservations_cases.
    destruct (JsMap.get _ (clientsData st)); [|discriminate].
    destruct (JsMap.get _ (wheelchairsData st)) as [w|] eqn:Hw; [|discriminate].
    destruct (_ >=? _); [discriminate|].
    destruct (negb _); [discriminate|]. intros _. simpl.
    destruct (Hcreate st body w Hw) as [w' H]. now exists w, w'.
  - intros st id patch.
    split; [apply updateReservation_wheelchairs | apply putReservations_wheelchairs].
  - intros st id. split.
    + run_storage. destruct (JsMap.delete id (reservationsData st)); reflexivity.
    + rewrite deleteReservations_snd. reflexivity.
Qed.

(** ** Reservations of a store after [set] and [delete] *)

Lemma values_set_weak {V : Type} (m : JsMap.t V) k v x :
  In x (JsMap.values (JsMap.set k v m)) -> x = v \/ In x (JsMap.values m).
Proof.
  intro Hx. apply In_values in Hx as [k' Hin].
  apply In_set_inv in Hin as [[_ ->]|Hin]; [now left|].
  right. apply In_values. now exists k'.
Qed.

Lemma values_delete {V : Type} (m : JsMap.t V) k x :
  In x (JsMap.values (snd (JsMap.delete k m))) -> In x (JsMap.values m).
Proof.
  intro Hx. apply In_values in Hx as [k' Hin]. apply In_delete in Hin.
  apply In_values. now exists k'.
Qed.

(** In a well-formed store the reservations after [set] under key [k] are
    the new one and the old ones with another [id]. *)
Lemma stored_after_set st k r x :
  wellFormed st ->
  In x (JsMap.values (JsMap.set k r (reservationsData st))) ->
  x = r \/ (storedReservation st x /\ Reservation.id x <> k).
Proof.
  intros (Hnd & Hres & _) Hx. unfold storedReservation.
  apply In_values in Hx as [k' Hin].
  apply (In_set_inv_strong _ _ _ _ _ Hnd) in Hin as [[_ ->]|[Hne Hin]]; [now left|].
  right. split; [apply In_values; now exists k'|].
  destruct (Hres k' x Hin) as [-> _]. exact Hne.
Qed.

(** Requests on wheelchairs and clients leave the reservations alone. *)
Lemma other_requests_keep_reservations st req :
  match req with
  | PostReservations _ | PutReservations _ _ | DeleteReservations _ => True
  | _ => reservationsData (snd (handle req st)) = reservationsData st
  end.
Proof.
  destruct req as [body|id body|id|body|id body|id|body|id body|id];
    try exact I; unfold handle; run_storage; try reflexivity.
  - destruct (JsMap.get id (wheelchairsData st)); reflexivity.
  - destruct (JsMap.delete id (wheelchairsData st)) as [[|] m]; reflexivity.
  - destruct (JsMap.get id (clientsData st)); reflexivity.
  - destruct (JsMap.delete id (clientsData st)) as [[|] m]; reflexivity.
Qed.

Lemma delete_absent {V : Type} (m : JsMap.t V) k :
  fst (JsMap.delete k m) = false -> snd (JsMap.delete k m) = m.
Proof.
  induction m as [|[k' v'] m IH]; simpl; [reflexivity|].
  destruct (k =? k'); [discriminate|].
  destruct (JsMap.delete k m) as [found rest]; simpl in *.
  intro H. now rewrite (IH H).
Qed.

Lemma setReservations_same st : setReservations (reservationsData st) st = st.
Proof. now destruct st. Qed.

Lemma setWheelchairs_same st : setWheelchairs (wheelchairsData st) st = st.
Proof. now destruct st. Qed.

Lemma setClients_same st : setClients (clientsData st) st = st.
Proof. now destruct st. Qed.

(** A request that is not answered with a 2xx status leaves the store as
    it was. *)
Lemma rejected_request_keeps_store st req :
  isSuccess (fst (handle req st)) = false -> snd (handle req st) = st.
Proof.
  destruct req as [body|id body|id|body|id body|id|body|id body|id]; unfold handle.
  - run_storage. discriminate.
  - run_storage. destruct (JsMap.get id (wheelchairsData st)); [discriminate|reflexivity].
  - run_storage. pose proof (delete_absent (wheelchairsData st) id) as Habs.
    destruct (JsMap.delete id (wheelchairsData st)) as [[|] m]; simpl in *;
      [discriminate|]. intros _. rewrite Habs by reflexivity. apply setWheelchairs_same.
  - run_storage. discriminate.
  - run_storage. destruct (JsMap.get id (clientsData st)); [discriminate|reflexivity].
  - run_storage. pose proof (delete_absent (clientsData st) id) as Habs.
    destruct (JsMap.delete id (clientsData st)) as [[|] m]; simpl in *;
      [discriminate|]. intros _. rewrite Habs by reflexivity. apply setClients_same.
  - rewrite postReservations_cases.
    destruct (JsMap.get _ (clientsData st)); [|reflexivity].
    destruct (JsMap.get _ (wheelchairsData st)); [|reflexivity].
    destruct (_ >=? _); [reflexivity|].
    destruct (negb _); [reflexivity|discriminate].
  - destruct (putReservations_cases st id body) as [->|[existing (_ & -> & _)]];
      [reflexivity|discriminate].
  - run_storage. pose proof (delete_absent (reservationsData st) id) as Habs.
    destruct (JsMap.delete id (reservationsData st)) as [[|] m]; simpl in *;
      [discriminate|]. intros _. rewrite Habs by reflexivity. apply setReservations_same.
Qed.

(** ** No double-booking *)

Lemma noDoubleBooking_subset u st st' :
  (forall r, storedReservation st' r -> storedReservation st r) ->
  noDoubleBooking u st -> noDoubleBooking u st'.
Proof.
  intros Hsub H r1 r2 H1 H2. apply H; now apply Hsub.
Qed.

Lemma noDoubleBooking_postReservations u st body :
  noDoubleBooking u st -> noDoubleBooking u (snd (postReservations body st)).
Proof.
  intro Hinv. rewrite postReservations_cases.
  destruct (JsMap.get _ (clientsData st)); [|assumption].
  destruct (JsMap.get _ (wheelchairsData st)); [|assumption].
  destruct (_ >=? _); [assumption|].
  destruct (someWithId _ _) eqn:Hav; simpl; [|assumption].
  apply someWithId_offers in Hav as [w [Hin Hid]].
  apply In_available in Hin as [_ Hfree]. rewrite Hid in Hfree.
  destruct (createReservation_reservations st body) as (Hres & _).
  assert (Hnew : forall r r',
             r = newReservation (reservationCurrentId st) body ->
             storedReservation st r' ->
             Reservation.status r' = "active" ->
             Reservation.wheelchairId r' = Reservation.wheelchairId r ->
             ~ (Reservation.startDate r <= Reservation.endDate r'
                /\ Reservation.endDate r >= Reservation.startDate r')).
  { intros r r' -> Hr' Ha Hu [Hs He]. simpl in *. apply Hfree.
    exists r'. split; [assumption|]. unfold blocks, overlap. repeat split; try assumption; lia. }
  intros r1 r2 H1 H2 Hne Ha1 Ha2 Hu1 Hu2 [Hs He].
  unfold storedReservation in H1, H2. rewrite Hres in H1, H2.
  apply values_set_weak in H1 as [E1|H1]; apply values_set_weak in H2 as [E2|H2].
  - subst. now apply Hne.
  - apply (Hnew r1 r2 E1 H2 Ha2); [congruence | split; assumption].
  - apply (Hnew r2 r1 E2 H1 Ha1); [congruence | split; lia].
  - apply (Hinv r1 r2); try assumption. split; assumption.
Qed.

Lemma checksAvailability_false body :
  checksAvailability body = false ->
  statusIs "cancelled" body = true
  \/ (ReservationPatch.startDate body = None
      /\ ReservationPatch.endDate body = None
      /\ (ReservationPatch.wheelchairId body = None
          \/ ReservationPatch.wheelchairId body = Some 0)).
Proof.
  unfold checksAvailability, statusIs.
  destruct (ReservationPatch.status body) as [s|];
    [destruct (s =? "cancelled")%string; [now left|]|];
    simpl; rewrite andb_true_r;
    destruct (ReservationPatch.startDate body), (ReservationPatch.endDate body);
    simpl; try discriminate;
    destruct (ReservationPatch.wheelchairId body) as [n|]; simpl;
    try (destruct (Z.eqb_spec n 0) as [->|]; simpl; try discriminate);
    intros _; right; auto.
Qed.

(** When the patched wheelchair id is not [0], the id tested by the block
    is the one stored afterwards. *)
Lemma orNum_spread x d : spread x d <> 0 -> orNum x d = spread x d.
Proof.
  destruct x as [n|]; simpl; [|reflexivity].
  destruct (Z.eqb_spec n 0); [contradiction|reflexivity].
Qed.

Lemma noDoubleBooking_putReservations u st id body :
  wellFormed st ->
  u <> 0 ->
  reactivatesUnchecked body = false ->
  noDoubleBooking u st -> noDoubleBooking u (snd (putReservations id body st)).
Proof.
  intros Hwf Hu0 Hgate Hinv.
  destruct (putReservations_cases st id body) as [->|[existing (Hget & -> & Hblock)]];
    [assumption|].
  pose proof Hwf as (_ & Hres & _).
  apply get_In in Hget as Hin. destruct (Hres id existing Hin) as [Hid _].
  assert (Hold : storedReservation st existing) by (apply In_values; now exists id).
  set (r' := spreadReservation existing body) in *.
  (* the updated reservation against an old one *)
  assert (Hnew : forall r,
             storedReservation st r -> Reservation.id r <> id ->
             Reservation.status r' = "active" -> Reservation.status r = "active" ->
             Reservation.wheelchairId r' = u -> Reservation.wheelchairId r = u ->
             ~ (Reservation.startDate r <= Reservation.endDate r'
                /\ Reservation.endDate r >= Reservation.startDate r')).
  { intros r Hr Hne Ha' Ha Hu' Hu [Hs He].
    destruct (checksAvailability body) eqn:Hc.
    - destruct (Hblock eq_refl) as [_ Hnone].
      rewrite overlappingReservations_nil in Hnone.
      apply (Hnone r Hr Hne). unfold blocks, overlap.
      rewrite orNum_spread by (subst r'; simpl in Hu'; congruence).
      subst r'. simpl in *. repeat split; try assumption; try congruence; lia.
    - unfold reactivatesUnchecked in Hgate. rewrite Hc, andb_true_r in Hgate.
      unfold statusIs in Hgate.
      destruct (checksAvailability_false body Hc) as [Hcan|(Hsd & Hed & Hw)].
      + unfold statusIs in Hcan. subst r'. simpl in Ha'.
        destruct (ReservationPatch.status body) as [s|]; [|discriminate].
        simpl in Ha'. apply String.eqb_eq in Hcan. subst s. discriminate.
      + subst r'. simpl in *. rewrite Hsd, Hed in *. simpl in *.
        destruct (ReservationPatch.status body) as [s|]; simpl in *.
        { subst s. discriminate. }
        destruct Hw as [Hw|Hw]; rewrite Hw in Hu'; simpl in Hu'; [|congruence].
        apply (Hinv r existing); try assumption; try congruence.
        split; assumption. }
  intros r1 r2 H1 H2 Hne Ha1 Ha2 Hu1 Hu2 [Hs He].
  unfold storedReservation in H1, H2. simpl in H1, H2.
  apply (stored_after_set st _ _ _ Hwf) in H1 as [E1|[H1 N1]];
    apply (stored_after_set st _ _ _ Hwf) in H2 as [E2|[H2 N2]].
  - subst. now apply Hne.
  - subst r1. apply (Hnew r2); try assumption. split; lia.
  - subst r2. apply (Hnew r1); try assumption. split; assumption.
  - apply (Hinv r1 r2); try assumption. split; assumption.
Qed.

Lemma noDoubleBooking_handle u st req :
  wellFormed st ->
  u <> 0 ->
  noUncheckedReactivation req = true ->
  noDoubleBooking u st -> noDoubleBooking u (snd (handle req st)).
Proof.
  intros Hwf Hu0 Hgate Hinv.
  pose proof (other_requests_keep_reservations st req) as Hkeep.
  destruct req as [body|id body|id|body|id body|id|body|id body|id];
    try (apply (noDoubleBooking_subset u st); [|assumption];
         unfold storedReservation; now rewrite Hkeep).
  - now apply noDoubleBooking_postReservations.
  - apply noDoubleBooking_putReservations; try assumption.
    simpl in Hgate. now apply negb_true_iff in Hgate.
  - simpl. rewrite deleteReservations_snd.
    apply (noDoubleBooking_subset u st); [|assumption].
    unfold storedReservation. simpl. intros r. apply values_delete.
Qed.

Lemma wellFormed_wheelchair_ids st w :
  wellFormed st -> storedWheelchair st w -> 1 <= Wheelchair.id w.
Proof.
  intros (_ & _ & _ & Hws) Hw. apply In_values in Hw as [k Hin].
  destruct (Hws k w Hin) as [-> ?]. lia.
Qed.

Lemma noDoubleBooking_run reqs :
  Forall (fun req => noUncheckedReactivation req = true) reqs ->
  forall st,
    wellFormed st ->
    (forall u, u <> 0 -> noDoubleBooking u st) ->
    forall u, u <> 0 -> noDoubleBooking u (run reqs st).
Proof.
  induction 1 as [|req reqs Hreq _ IH]; intros st Hwf Hinv; simpl; [assumption|].
  apply IH; [now apply wellFormed_handle|].
  intros u Hu. apply noDoubleBooking_handle; auto.
Qed.

(** ** Start before end *)

Lemma startBeforeEnd_handle st req :
  noCancelWithDates req = true ->
  startBeforeEnd st -> startBeforeEnd (snd (handle req st)).
Proof.
  intros Hgate Hinv.
  pose proof (other_requests_keep_reservations st req) as Hkeep.
  destruct req as [body|id body|id|body|id body|id|body|id body|id];
    try (intros r Hr; apply Hinv; unfold storedReservation in *; now rewrite Hkeep in Hr).
  - (* POST /reservations *)
    simpl. rewrite postReservations_cases.
    destruct (JsMap.get _ (clientsData st)); [|assumption].
    destruct (JsMap.get _ (wheelchairsData st)); [|assumption].
    destruct (Z.geb_spec (InsertReservation.startDate body) (InsertReservation.endDate body))
      as [Hge|Hlt]; [assumption|].
    destruct (negb _); [assumption|]. simpl.
    destruct (createReservation_reservations st body) as (Hres & _).
    intros r Hr. unfold storedReservation in Hr. rewrite Hres in Hr.
    apply values_set_weak in Hr as [->|Hr]; [exact Hlt | now apply Hinv].
  - (* PUT /reservations/:id *)
    simpl in *. apply negb_true_iff in Hgate.
    destruct (putReservations_cases st id body) as [->|[existing (Hget & -> & Hblock)]];
      [assumption|].
    assert (Hold : storedReservation st existing)
      by (apply In_values; exists id; now apply get_In).
    intros r Hr. unfold storedReservation in Hr. simpl in Hr.
    apply values_set_weak in Hr as [->|Hr]; [|now apply Hinv].
    simpl. destruct (checksAvailability body) eqn:Hc; [now apply Hblock|].
    assert (Hnone : ReservationPatch.startDate body = None
                    /\ ReservationPatch.endDate body = None).
    { destruct (checksAvailability_false body Hc) as [Hcan|(Hs & He & _)]; [|now split].
      unfold cancelsWithDates in Hgate. rewrite Hcan in Hgate. simpl in Hgate.
      destruct (ReservationPatch.startDate body), (ReservationPatch.endDate body);
        try discriminate. now split. }
    destruct Hnone as [-> ->]. simpl. now apply Hinv.
  - (* DELETE /reservations/:id *)
    simpl. rewrite deleteReservations_snd. intros r Hr. apply Hinv.
    unfold storedReservation in *. simpl in Hr. now apply values_delete in Hr.
Qed.

Lemma startBeforeEnd_run reqs :
  Forall (fun req => noCancelWithDates req = true) reqs ->
  forall st, startBeforeEnd st -> startBeforeEnd (run reqs st).
Proof.
  induction 1 as [|req reqs Hreq _ IH]; intros st Hinv; simpl; [assumption|].
  apply IH. now apply startBeforeEnd_handle.
Qed.

(** ** Bodies with the keys of [reservationSchema] only *)

Lemma schemaKeysOnly_gates req :
  schemaKeysOnly req = true ->
  noUncheckedReactivation req = true /\ noCancelWithDates req = true.
Proof.
  destruct req as [body|id body|id|body|id body|id|body|id body|id];
    try (intros _; split; reflexivity).
  unfold schemaKeysOnly, noUncheckedReactivation, noCancelWithDates,
    reactivatesUnchecked, cancelsWithDates, statusIs.
  destruct (ReservationPatch.status body); [discriminate|].
  intros _. split; reflexivity.
Qed.

(** When no reservation update carries a [status] key, every stored
    reservation keeps status "active" and both invariants hold. *)
Lemma invariants_without_status_key reqs :
  Forall (fun req => schemaKeysOnly req = true) reqs ->
  startBeforeEnd (run reqs storage)
  /\ forall u, u <> 0 -> noDoubleBooking u (run reqs storage).
Proof.
  intro Hreqs.
  assert (Hempty : forall r, ~ storedReservation storage r).
  { intros r Hr. unfold storedReservation in Hr. vm_compute in Hr. exact Hr. }
  split.
  - apply startBeforeEnd_run.
    + eapply Forall_impl; [|exact Hreqs]. intros req H.
      apply (schemaKeysOnly_gates req H).
    + intros r Hr. elim (Hempty r Hr).
  - apply noDoubleBooking_run.
    + eapply Forall_impl; [|exact Hreqs]. intros req H.
      apply (schemaKeysOnly_gates req H).
    + apply wellFormed_storage.
    + intros u _ r1 r2 H1. elim (Hempty r1 H1).
Qed.

(** ** The invariants through the routes *)

Lemma startBeforeEnd_serve z st req :
  startBeforeEnd st -> startBeforeEnd (snd (serve z req st)).
Proof.
  intro Hinv. unfold serve.
  destruct (validateBody z req) as [req'|] eqn:Hv; [|exact Hinv].
  apply startBeforeEnd_handle; [|exact Hinv].
  exact (proj2 (schemaKeysOnly_gates req' (validateBody_schemaKeysOnly z req req' Hv))).
Qed.

Lemma noDoubleBooking_serve z u st req :
  wellFormed st -> u <> 0 ->
  noDoubleBooking u st -> noDoubleBooking u (snd (serve z req st)).
Proof.
  intros Hwf Hu Hinv. unfold serve.
  destruct (validateBody z req) as [req'|] eqn:Hv; [|exact Hinv].
  apply noDoubleBooking_handle; try assumption.
  exact (proj1 (schemaKeysOnly_gates req' (validateBody_schemaKeysOnly z req req' Hv))).
Qed.

Lemma storage_has_no_reservation r : ~ storedReservation storage r.
Proof.
  intro Hr. unfold storedReservation in Hr. vm_compute in Hr. exact Hr.
Qed.

(** Through the routes no wheelchair id other than [0] is ever
    double-booked; the identifiers of stored wheelchairs start at 1. *)
Lemma no_double_booking_through_routes z st :
  Served z st ->
  (forall u, u <> 0 -> noDoubleBooking u st)
  /\ (forall w, storedWheelchair st w -> noDoubleBooking (Wheelchair.id w) st).
Proof.
  intro Hs.
  assert (Hall : forall u, u <> 0 -> noDoubleBooking u st).
  { induction Hs as [|st req Hs IH].
    - intros u _ r1 r2 H1. elim (storage_has_no_reservation r1 H1).
    - intros u Hu. apply noDoubleBooking_serve; [|exact Hu|exact (IH u Hu)].
      exact (Reachable_wellFormed st (Served_Reachable z st Hs)). }
  split; [exact Hall|].
  intros w Hw. apply Hall.
  pose proof (wellFormed_wheelchair_ids st w
                (Reachable_wellFormed st (Served_Reachable z st Hs)) Hw).
  lia.
Qed.

(** C1.  The invariant is broken through wheelchair id 0.  The body
    [{wheelchairId: 0}] passes [reservationSchema.partial()] and is falsy
    in the condition of routes.ts 238, so the availability block is
    skipped and [updateReservation] stores it.  The five requests are
    answered 201, 201, 201, 200, 200, and afterwards reservations 1 and 2
    are both "active", both reference wheelchair id 0 and overlap.  The
    sibling paths do test: [POST /reservations] with wheelchair id 0 is
    answered 400, and so is the update of reservation 2 to wheelchair 1. *)
Lemma double_booking_on_id_zero :
  map statusCode (serveResponses sampleSchemas zeroWheelchairTrace storage)
  = [201; 201; 201; 200; 200]
  /\ checksAvailability (reservationSchemaPartial (patchWheelchairId 0)) = false
  /\ storedReservation (serveRun sampleSchemas zeroWheelchairTrace storage)
                       (Reservation.mk 1 1 0 10 20 "active" None)
  /\ storedReservation (serveRun sampleSchemas zeroWheelchairTrace storage)
                       (Reservation.mk 2 1 0 15 25 "active" None)
  /\ ~ noDoubleBooking 0 (serveRun sampleSchemas zeroWheelchairTrace storage)
  /\ fst (serve sampleSchemas (PostReservations (InsertReservation.mk 1 0 15 25 None))
                (serveRun sampleSchemas (firstn 2 zeroWheelchairTrace) storage))
     = rejected 400 "Wheelchair not found"
  /\ fst (serve sampleSchemas (PutReservations 2 (patchWheelchairId 1))
                (serveRun sampleSchemas (firstn 3 zeroWheelchairTrace) storage))
     = rejected 400 "Wheelchair is not available for the requested dates".
Proof.
  assert (H1 : storedReservation (serveRun sampleSchemas zeroWheelchairTrace storage)
                 (Reservation.mk 1 1 0 10 20 "active" None))
    by (unfold storedReservation; vm_compute; left; reflexivity).
  assert (H2 : storedReservation (serveRun sampleSchemas zeroWheelchairTrace storage)
                 (Reservation.mk 2 1 0 15 25 "active" None))
    by (unfold storedReservation; vm_compute; right; left; reflexivity).
  split; [vm_compute; reflexivity|]. split; [reflexivity|].
  split; [exact H1|]. split; [exact H2|].
  split; [|split; vm_compute; reflexivity].
  intro H. unfold noDoubleBooking in H.
  specialize (H (Reservation.mk 1 1 0 10 20 "active" None)
                (Reservation.mk 2 1 0 15 25 "active" None) H1 H2).
  clear H1 H2. apply H; clear H.
  - vm_compute. discriminate.
  - reflexivity.
  - reflexivity.
  - reflexivity.
  - reflexivity.
  - vm_compute. split; discriminate.
Qed.

(** The date test of the availability block, routes.ts 244-250. *)
Lemma putReservations_dates st id body existing :
  checksAvailability body = true ->
  JsMap.get id (reservationsData st) = Some existing ->
  (spread (ReservationPatch.startDate body) (Reservation.startDate existing)
   >= spread (ReservationPatch.endDate body) (Reservation.endDate existing) ->
   putReservations id body st
   = (rejected 400 "End date must be after start date", st))
  /\ (forall r,
         fst (putReservations id body st)
         = {| statusCode := 200; json := JsonReservation r |} ->
         Reservation.startDate r
         = spread (ReservationPatch.startDate body) (Reservation.startDate existing)
         /\ Reservation.endDate r
            = spread (ReservationPatch.endDate body) (Reservation.endDate existing)
         /\ spread (ReservationPatch.startDate body) (Reservation.startDate existing)
            < spread (ReservationPatch.endDate body) (Reservation.endDate existing)
         /\ JsMap.get id (reservationsData (snd (putReservations id body st))) = Some r).
Proof.
  intros Hc Hget.
  unfold putReservations, availabilityBlock, checkAvailability. run_storage.
  rewrite Hc, Hget. simpl.
  destruct (Z.geb_spec
              (spread (ReservationPatch.startDate body) (Reservation.startDate existing))
              (spread (ReservationPatch.endDate body) (Reservation.endDate existing)))
    as [Hge|Hlt]; simpl.
  - split; [reflexivity|]. intros r Hr. discriminate.
  - split; [intro Hge; lia|].
    destruct (overlappingReservations _ _ _ _ _); simpl; [|intros r Hr; discriminate].
    rewrite Hget. simpl. intros r Hr. injection Hr as <-. simpl.
    split; [reflexivity|]. split; [reflexivity|]. split; [exact Hlt|].
    apply get_set_same.
Qed.

Lemma checksAvailability_dates body :
  ReservationPatch.startDate body <> None \/ ReservationPatch.endDate body <> None ->
  checksAvailability (reservationSchemaPartial body) = true.
Proof.
  intro Hdates. unfold checksAvailability, reservationSchemaPartial. simpl.
  destruct (ReservationPatch.startDate body), (ReservationPatch.endDate body);
    try reflexivity.
  destruct Hdates; congruence.
Qed.

(** C5.  [POST /reservations] refuses a start date that is not strictly
    before the end date and stores the dates of the body otherwise.
    [PUT /reservations/:id] with a start or an end date in the body,
    whatever else the body carries (a [status] included, which
    [validateBody] strips), computes the effective dates from the body and
    the stored reservation, answers 400 and changes nothing when the
    effective start is not strictly before the effective end, and stores
    exactly the effective dates when it answers 200.  So every request
    keeps the invariant, and every store reached through the routes
    satisfies it. *)
Theorem start_before_end_through_routes :
  forall z : Schemas,
    (forall (st : MemStorage) (body : InsertReservation.t),
        (InsertReservation.startDate body >= InsertReservation.endDate body ->
         statusCode (fst (serve z (PostReservations body) st)) = 400
         /\ snd (serve z (PostReservations body) st) = st)
        /\ (forall r,
               fst (serve z (PostReservations body) st)
               = {| statusCode := 201; json := JsonReservation r |} ->
               Reservation.startDate r = InsertReservation.startDate body
               /\ Reservation.endDate r = InsertReservation.endDate body
               /\ Reservation.startDate r < Reservation.endDate r
               /\ storedReservation (snd (serve z (PostReservations body) st)) r))
    /\ (forall (st : MemStorage) (id : Z) (body : ReservationPatch.t)
               (existing : Reservation.t),
           ReservationPatch.startDate body <> None
           \/ ReservationPatch.endDate body <> None ->
           JsMap.get id (reservationsData st) = Some existing ->
           let startDate :=
             spread (ReservationPatch.startDate body) (Reservation.startDate existing) in
           let endDate :=
             spread (ReservationPatch.endDate body) (Reservation.endDate existing) in
           (startDate >= endDate ->
            serve z (PutReservations id body) st
            = (rejected 400 "End date must be after start date", st))
           /\ (forall r,
                  fst (serve z (PutReservations id body) st)
                  = {| statusCode := 200; json := JsonReservation r |} ->
                  Reservation.startDate r = startDate
                  /\ Reservation.endDate r = endDate
                  /\ startDate < endDate
                  /\ JsMap.get id (reservationsData (snd (serve z (PutReservations id body) st)))
                     = Some r))
    /\ (forall (st : MemStorage) (id : Z) (body : ReservationPatch.t) (r : Reservation.t),
           ReservationPatch.startDate body <> None
           \/ ReservationPatch.endDate body <> None ->
           fst (serve z (PutReservations id body) st)
           = {| statusCode := 200; json := JsonReservation r |} ->
           Reservation.startDate r < Reservation.endDate r)
    /\ (map statusCode (serveResponses z cancelInvertedTrace oneClient) = [201; 400]
        /\ serveRun z cancelInvertedTrace oneClient
           = serveRun z (firstn 1 cancelInvertedTrace) oneClient)
    /\ (forall (st : MemStorage) (req : Request),
           startBeforeEnd st -> startBeforeEnd (snd (serve z req st)))
    /\ (forall st : MemStorage, Served z st -> startBeforeEnd st)
    /\ (forall reqs : list Request, startBeforeEnd (serveRun z reqs storage)).
Proof.
  intro z.
  assert (Hstep : forall st req,
             startBeforeEnd st -> startBeforeEnd (snd (serve z req st)))
    by (intros st req; apply startBeforeEnd_serve).
  assert (Hserved : forall st, Served z st -> startBeforeEnd st).
  { induction 1 as [|st req _ IH]; [|now apply Hstep].
    intros r Hr. elim (storage_has_no_reservation r Hr). }
  assert (Hput : forall st id body existing,
             ReservationPatch.startDate body <> None
             \/ ReservationPatch.endDate body <> None ->
             JsMap.get id (reservationsData st) = Some existing ->
             (spread (ReservationPatch.startDate body) (Reservation.startDate existing)
              >= spread (ReservationPatch.endDate body) (Reservation.endDate existing) ->
              serve z (PutReservations id body) st
              = (rejected 400 "End date must be after start date", st))
             /\ (forall r,
                    fst (serve z (PutReservations id body) st)
                    = {| statusCode := 200; json := JsonReservation r |} ->
                    Reservation.startDate r
                    = spread (ReservationPatch.startDate body)
                             (Reservation.startDate existing)
                    /\ Reservation.endDate r
                       = spread (ReservationPatch.endDate body)
                                (Reservation.endDate existing)
                    /\ spread (ReservationPatch.startDate body)
                              (Reservation.startDate existing)
                       < spread (ReservationPatch.endDate body)
                                (Reservation.endDate existing)
                    /\ JsMap.get id
                         (reservationsData (snd (serve z (PutReservations id body) st)))
                       = Some r)).
  { intros st id body existing Hdates Hget.
    exact (putReservations_dates st id (reservationSchemaPartial body) existing
             (checksAvailability_dates body Hdates) Hget). }
  split; [|split; [|split; [|split; [|split; [|split]]]]].
  - intros st body.
    change (serve z (PostReservations body) st) with (postReservations body st).
    rewrite postReservations_cases. split.
    + intro Hge.
      destruct (JsMap.get _ (clientsData st)); [|split; reflexivity].
      destruct (JsMap.get _ (wheelchairsData st)); [|split; reflexivity].
      destruct (Z.geb_spec (InsertReservation.startDate body)
                           (InsertReservation.endDate body)); [split; reflexivity | lia].
    + intro r.
      destruct (JsMap.get _ (clientsData st)); [|discriminate].
      destruct (JsMap.get _ (wheelchairsData st)); [|discriminate].
      destruct (Z.geb_spec (InsertReservation.startDate body)
                           (InsertReservation.endDate body)) as [Hge|Hlt]; [discriminate|].
      destruct (negb _); [discriminate|]. simpl.
      rewrite createReservation_fst. intro Hr. injection Hr as <-. simpl.
      split; [reflexivity|]. split; [reflexivity|]. split; [exact Hlt|].
      destruct (createReservation_reservations st body) as (Hres & _).
      unfold storedReservation. rewrite Hres.
      apply In_values. exists (reservationCurrentId st).
      apply get_In, get_set_same.
  - intros st id body existing Hdates Hget startDate endDate.
    exact (Hput st id body existing Hdates Hget).
  - intros st id body r Hdates Hresp.
    destruct (JsMap.get id (reservationsData st)) as [existing|] eqn:Hget.
    + destruct (Hput st id body existing Hdates Hget) as [_ Hok].
      destruct (Hok r Hresp) as (Hs & He & Hlt & _). rewrite Hs, He. exact Hlt.
    + generalize Hresp.
      change (serve z (PutReservations id body) st)
        with (putReservations id (reservationSchemaPartial body) st).
      unfold putReservations, availabilityBlock. run_storage.
      rewrite (checksAvailability_dates body Hdates), Hget. simpl. discriminate.
  - split; vm_compute; reflexivity.
  - exact Hstep.
  - exact Hserved.
  - intro reqs. apply Hserved. apply Served_serveRun. constructor.
Qed.

(** * Further properties of the store and of the routes *)

(** ** More facts about [JsMap] *)

Section JsMapMore.
Context {V : Type}.
Implicit Types (m : JsMap.t V) (k : Z) (v : V).

Lemma get_None_keys m k : JsMap.get k m = None <-> ~ In k (JsMap.keys m).
Proof.
  unfold JsMap.keys. induction m as [|[k' v'] m IH]; simpl; [tauto|].
  destruct (Z.eqb_spec k k') as [->|Hne].
  - split; [discriminate | intro H; elim H; now left].
  - rewrite IH. split; intros H; [intros [E|Hin]; [congruence | now apply H] | tauto].
Qed.

Lemma get_delete_other m k k' :
  k' <> k -> JsMap.get k' (snd (JsMap.delete k m)) = JsMap.get k' m.
Proof.
  intro Hne. induction m as [|[k0 v0] m IH]; simpl; [reflexivity|].
  destruct (Z.eqb_spec k k0) as [->|Hk]; simpl.
  - destruct (Z.eqb_spec k' k0); [contradiction|reflexivity].
  - destruct (JsMap.delete k m) as [found rest]; simpl in *.
    destruct (k' =? k0); [reflexivity|exact IH].
Qed.

Lemma get_delete_same m k :
  NoDup (JsMap.keys m) -> JsMap.get k (snd (JsMap.delete k m)) = None.
Proof.
  unfold JsMap.keys. induction m as [|[k0 v0] m IH]; simpl; intro Hnd; [reflexivity|].
  inversion Hnd as [|? ? Hnotin Hnd']; subst.
  destruct (Z.eqb_spec k k0) as [->|Hk]; simpl.
  - now apply get_None_keys.
  - specialize (IH Hnd'). destruct (JsMap.delete k m) as [found rest]; simpl in *.
    destruct (Z.eqb_spec k k0); [contradiction|exact IH].
Qed.

Lemma delete_fst m k :
  fst (JsMap.delete k m) = match JsMap.get k m with Some _ => true | None => false end.
Proof.
  induction m as [|[k0 v0] m IH]; simpl; [reflexivity|].
  destruct (k =? k0); simpl; [reflexivity|].
  destruct (JsMap.delete k m) as [found rest]; simpl in *. exact IH.
Qed.

Lemma set_same m k v : JsMap.get k m = Some v -> JsMap.set k v m = m.
Proof.
  induction m as [|[k0 v0] m IH]; simpl; [discriminate|].
  destruct (Z.eqb_spec k k0) as [->|Hk]; intro H.
  - now injection H as ->.
  - now rewrite IH.
Qed.

Lemma set_absent m k v :
  JsMap.get k m = None -> JsMap.set k v m = (m ++ [(k, v)])%list.
Proof.
  induction m as [|[k0 v0] m IH]; simpl; [reflexivity|].
  destruct (k =? k0); [discriminate|]. intro H. now rewrite IH.
Qed.

Lemma length_set_present m k v old :
  JsMap.get k m = Some old -> List.length (JsMap.set k v m) = List.length m.
Proof.
  induction m as [|[k0 v0] m IH]; simpl; [discriminate|].
  destruct (k =? k0); simpl; [reflexivity|]. intro H. now rewrite IH.
Qed.

End JsMapMore.

(** ** [mapOk] under [set] and [delete] *)

Section MapOk.
Context {V : Type} (idOf : V -> Z).
Implicit Types (m : JsMap.t V) (k next : Z) (v : V).

Lemma mapOk_below m next k v :
  mapOk idOf m next -> JsMap.get k m = Some v -> idOf v = k /\ 1 <= k < next.
Proof. intros (_ & _ & H) Hget. apply H. now apply get_In. Qed.

Lemma mapOk_next_absent m next : mapOk idOf m next -> JsMap.get next m = None.
Proof.
  intros (_ & _ & H). apply get_None_keys. unfold JsMap.keys.
  rewrite in_map_iff. intros [[k v] [Hk Hin]]. simpl in Hk. subst k.
  destruct (H next v Hin). lia.
Qed.

Lemma mapOk_set_next m next v :
  mapOk idOf m next -> idOf v = next -> mapOk idOf (JsMap.set next v m) (next + 1).
Proof.
  intros (Hnd & Hn & H) Hid. split; [now apply NoDup_keys_set|]. split; [lia|].
  intros k v' Hin. apply In_set_inv in Hin as [[-> ->]|Hin]; [split; [assumption|lia]|].
  destruct (H k v' Hin). split; [assumption|lia].
Qed.

Lemma mapOk_set_present m next k v old :
  mapOk idOf m next -> JsMap.get k m = Some old -> idOf v = k ->
  mapOk idOf (JsMap.set k v m) next.
Proof.
  intros Hok Hget Hid. destruct (mapOk_below m next k old Hok Hget) as [_ Hk].
  destruct Hok as (Hnd & Hn & H).
  split; [now apply NoDup_keys_set|]. split; [assumption|].
  intros k' v' Hin. apply In_set_inv in Hin as [[-> ->]|Hin]; [now split | now apply H].
Qed.

Lemma mapOk_delete m next k :
  mapOk idOf m next -> mapOk idOf (snd (JsMap.delete k m)) next.
Proof.
  intros (Hnd & Hn & H). split; [now apply NoDup_keys_delete|]. split; [assumption|].
  intros k' v' Hin. apply H. now apply In_delete in Hin.
Qed.

Lemma mapOk_weaken m next next' :
  mapOk idOf m next -> next <= next' -> mapOk idOf m next'.
Proof.
  intros (Hnd & Hn & H) Hle. split; [assumption|]. split; [lia|].
  intros k v Hin. destruct (H k v Hin). split; [assumption|lia].
Qed.

End MapOk.

Lemma storeIntegrity_wellFormed st : storeIntegrity st -> wellFormed st.
Proof.
  intros ((_ & Hwn & Hw) & _ & (Hnd & _ & Hr)).
  split; [assumption|]. split; [|split; [assumption|exact Hw]].
  intros k r Hin. destruct (Hr k r Hin). split; [assumption|lia].
Qed.

Lemma storeIntegrity_storage : storeIntegrity storage.
Proof.
  unfold storeIntegrity, mapOk.
  remember (wheelchairCurrentId storage) as c eqn:Hc. vm_compute in Hc.
  remember (clientCurrentId storage) as cc eqn:Hcc. vm_compute in Hcc.
  remember (reservationCurrentId storage) as rc eqn:Hrc. vm_compute in Hrc.
  remember (reservationsData storage) as rs eqn:Hrs. vm_compute in Hrs.
  remember (clientsData storage) as cs eqn:Hcs. vm_compute in Hcs.
  remember (JsMap.keys (wheelchairsData storage)) as ks eqn:Hks. vm_compute in Hks.
  remember (wheelchairsData storage) as ws eqn:Hws. vm_compute in Hws.
  subst c cc rc rs cs ks.
  split; [|split; (split; [constructor|]; split; [lia|intros k v []])].
  split.
  - repeat (constructor; [simpl; intuition discriminate|]). constructor.
  - split; [lia|]. subst ws. intros k w H.
    repeat (destruct H as [H|H]; [injection H as <- <-; split; [reflexivity|lia]|]).
    destruct H.
Qed.

(** ** Integrity is kept by every request *)

Lemma createReservation_bumps st ins w :
  JsMap.get (InsertReservation.wheelchairId ins) (wheelchairsData st) = Some w ->
  exists w',
    wheelchairsData (snd (createReservation ins st))
    = JsMap.set (InsertReservation.wheelchairId ins) w' (wheelchairsData st)
    /\ Wheelchair.id w' = Wheelchair.id w
    /\ Wheelchair.rentalCount w' = Some (usage w + 1).
Proof.
  intro H.
  unfold createReservation, incrementWheelchairRentalCount, nextReservationId,
    bind, gets, modify, ret. simpl. rewrite H. simpl.
  eexists. split; [reflexivity|]. split; reflexivity.
Qed.

Lemma storeIntegrity_handle st req :
  storeIntegrity st -> storeIntegrity (snd (handle req st)).
Proof.
  intros Hall. pose proof Hall as (Hw & Hc & Hr).
  destruct req as [body|id body|id|body|id body|id|body|id body|id]; unfold handle.
  - run_storage. split; [|split; assumption].
    now apply mapOk_set_next.
  - run_storage.
    destruct (JsMap.get id (wheelchairsData st)) as [existing|] eqn:Hget; simpl;
      [|exact Hall].
    split; [|split; assumption].
    apply (mapOk_set_present _ _ _ _ _ existing); try assumption.
    simpl. now destruct (mapOk_below _ _ _ _ _ Hw Hget).
  - run_storage. pose proof (mapOk_delete _ _ _ id Hw) as Hd.
    destruct (JsMap.delete id (wheelchairsData st)) as [[|] m]; simpl in *;
      (split; [assumption|split; assumption]).
  - run_storage. split; [assumption|]. split; [|assumption].
    now apply mapOk_set_next.
  - run_storage.
    destruct (JsMap.get id (clientsData st)) as [existing|] eqn:Hget; simpl;
      [|exact Hall].
    split; [assumption|]. split; [|assumption].
    apply (mapOk_set_present _ _ _ _ _ existing); try assumption.
    simpl. now destruct (mapOk_below _ _ _ _ _ Hc Hget).
  - run_storage. pose proof (mapOk_delete _ _ _ id Hc) as Hd.
    destruct (JsMap.delete id (clientsData st)) as [[|] m]; simpl in *;
      (split; [assumption|split; assumption]).
  - rewrite postReservations_cases.
    destruct (JsMap.get _ (clientsData st)); [|exact Hall].
    destruct (JsMap.get _ (wheelchairsData st)) as [w|] eqn:Hget; [|exact Hall].
    destruct (_ >=? _); [exact Hall|].
    destruct (negb _); [exact Hall|]. simpl.
    destruct (createReservation_reservations st body) as (Hres & Hn & Hcs & Hcn & Hwn).
    destruct (createReservation_bumps st body w Hget) as [w' (Hws & Hid & _)].
    unfold storeIntegrity. rewrite Hres, Hn, Hcs, Hcn, Hwn, Hws.
    split; [|split; [assumption|]].
    + apply (mapOk_set_present _ _ _ _ _ w); try assumption.
      rewrite Hid. now destruct (mapOk_below _ _ _ _ _ Hw Hget).
    + now apply mapOk_set_next.
  - destruct (putReservations_cases st id body) as [->|[existing (Hget & -> & _)]];
      [exact Hall|].
    simpl. split; [assumption|]. split; [assumption|].
    apply (mapOk_set_present _ _ _ _ _ existing); try assumption.
    simpl. now destruct (mapOk_below _ _ _ _ _ Hr Hget).
  - rewrite deleteReservations_snd. split; [assumption|]. split; [assumption|].
    now apply mapOk_delete.
Qed.

Lemma countersNatural_handle st req :
  countersNatural st -> countersNatural (snd (handle req st)).
Proof.
  intro Hn. unfold countersNatural, storedWheelchair in *.
  destruct req as [body|id body|id|body|id body|id|body|id body|id]; unfold handle.
  - run_storage. intros w Hw.
    apply values_set_weak in Hw as [->|Hw]; [|now apply Hn].
    exists 0. split; [reflexivity|lia].
  - run_storage.
    destruct (JsMap.get id (wheelchairsData st)) as [existing|] eqn:Hget; simpl;
      [|assumption].
    intros w Hw. apply values_set_weak in Hw as [->|Hw]; [|now apply Hn].
    simpl. apply Hn. apply In_values. exists id. now apply get_In.
  - run_storage. pose proof (fun x => values_delete (wheelchairsData st) id x) as Hsub.
    destruct (JsMap.delete id (wheelchairsData st)) as [[|] m]; simpl in *;
      intros w Hw; apply Hn, Hsub, Hw.
  - run_storage. assumption.
  - run_storage. destruct (JsMap.get id (clientsData st)); assumption.
  - run_storage. destruct (JsMap.delete id (clientsData st)) as [[|] m]; assumption.
  - rewrite postReservations_cases.
    destruct (JsMap.get _ (clientsData st)); [|assumption].
    destruct (JsMap.get _ (wheelchairsData st)) as [w|] eqn:Hget; [|assumption].
    destruct (_ >=? _); [assumption|].
    destruct (negb _); [assumption|]. simpl.
    destruct (createReservation_bumps st body w Hget) as [w' (Hws & _ & Hrc)].
    rewrite Hws. intros w0 Hw0.
    apply values_set_weak in Hw0 as [->|Hw0]; [|now apply Hn].
    exists (usage w + 1). split; [assumption|].
    destruct (Hn w) as [n [Hcount Hge]];
      [apply In_values; exists (InsertReservation.wheelchairId body); now apply get_In|].
    unfold usage. rewrite Hcount, usage_Some. lia.
  - rewrite putReservations_wheelchairs. assumption.
  - rewrite deleteReservations_snd. assumption.
Qed.

Lemma countersNatural_storage : countersNatural storage.
Proof.
  unfold countersNatural, storedWheelchair.
  remember (JsMap.values (wheelchairsData storage)) as ws eqn:Hws. vm_compute in Hws.
  subst ws. intros w H.
  repeat (destruct H as [H|H]; [subst w; exists 0; split; [reflexivity|lia]|]).
  destruct H.
Qed.

Lemma Reachable_integrity st : Reachable st -> storeIntegrity st /\ countersNatural st.
Proof.
  induction 1 as [|st req _ [Hi Hn]].
  - split; [apply storeIntegrity_storage | apply countersNatural_storage].
  - split; [now apply storeIntegrity_handle | now apply countersNatural_handle].
Qed.

(** ** Identifiers *)

(** X1. In every store reached from the initial one, looking up an
    identifier gives an entity that carries this identifier, identifiers
    lie between 1 and the next identifier of their collection, and a
    wheelchair's counter is a number that is not negative. *)
Theorem lookup_returns_entity_with_that_id :
  forall st : MemStorage,
    Reachable st ->
    (forall id w, fst (getWheelchair id st) = Some w ->
                  Wheelchair.id w = id
                  /\ 1 <= id < wheelchairCurrentId st
                  /\ exists n, Wheelchair.rentalCount w = Some n /\ 0 <= n)
    /\ (forall id c, fst (getClient id st) = Some c ->
                     Client.id c = id /\ 1 <= id < clientCurrentId st)
    /\ (forall id r, fst (getReservation id st) = Some r ->
                     Reservation.id r = id /\ 1 <= id < reservationCurrentId st).
Proof.
  intros st Hreach.
  destruct (Reachable_integrity st Hreach) as [(Hw & Hc & Hr) Hn].
  split; [|split].
  - intros id w Hget. simpl in Hget.
    destruct (mapOk_below _ _ _ _ _ Hw Hget) as [Hid Hb].
    split; [assumption|]. split; [assumption|].
    apply Hn. apply In_values. exists id. now apply get_In.
  - intros id c Hget. exact (mapOk_below _ _ _ _ _ Hc Hget).
  - intros id r Hget. exact (mapOk_below _ _ _ _ _ Hr Hget).
Qed.

Lemma lookup_returns_entity_with_that_id_witness :
  Client.id (Client.mk 1 "Ana" "Ruiz" "12345678" "Calle Mayor 1" "600123123"
                       "ana@example.com" "2024-01-01" "Madrid" "ES") = 1
  /\ 1 <= 1 < clientCurrentId oneClient.
Proof.
  assert (Hreach : Reachable oneClient)
    by exact (Reachable_run [PostClients sampleClient] storage reach_init).
  destruct (lookup_returns_entity_with_that_id oneClient Hreach) as (_ & Hc & _).
  apply (Hc 1). vm_compute. reflexivity.
Defined.

Lemma counters_monotone_handle st req :
  wheelchairCurrentId st <= wheelchairCurrentId (snd (handle req st))
  /\ clientCurrentId st <= clientCurrentId (snd (handle req st))
  /\ reservationCurrentId st <= reservationCurrentId (snd (handle req st)).
Proof.
  destruct req as [body|id body|id|body|id body|id|body|id body|id]; unfold handle.
  - run_storage. lia.
  - run_storage. destruct (JsMap.get id (wheelchairsData st)); simpl; lia.
  - run_storage. destruct (JsMap.delete id (wheelchairsData st)) as [[|] m]; simpl; lia.
  - run_storage. lia.
  - run_storage. destruct (JsMap.get id (clientsData st)); simpl; lia.
  - run_storage. destruct (JsMap.delete id (clientsData st)) as [[|] m]; simpl; lia.
  - rewrite postReservations_cases.
    destruct (JsMap.get _ (clientsData st)); [|simpl; lia].
    destruct (JsMap.get _ (wheelchairsData st)); [|simpl; lia].
    destruct (_ >=? _); [simpl; lia|].
    destruct (negb _); [simpl; lia|]. simpl.
    destruct (createReservation_reservations st body) as (_ & Hn & _ & Hcn & Hwn).
    rewrite Hn, Hcn, Hwn. lia.
  - destruct (putReservations_cases st id body) as [->|[existing (_ & -> & _)]];
      simpl; lia.
  - rewrite deleteReservations_snd. simpl. lia.
Qed.

Lemma counters_monotone_run reqs st :
  wheelchairCurrentId st <= wheelchairCurrentId (run reqs st)
  /\ clientCurrentId st <= clientCurrentId (run reqs st)
  /\ reservationCurrentId st <= reservationCurrentId (run reqs st).
Proof.
  revert st. induction reqs as [|req reqs IH]; intro st; simpl; [lia|].
  pose proof (counters_monotone_handle st req). pose proof (IH (snd (handle req st))). lia.
Qed.

(** X2. Identifiers are never reused: whatever requests are served after
    a reachable store, deletions included, the identifier given to the next
    wheelchair, client or reservation is none of the identifiers that
    store held. *)
Theorem identifiers_never_reused :
  forall (st : MemStorage) (reqs : list Request),
    Reachable st ->
    (forall body, ~ In (Wheelchair.id (fst (createWheelchair body (run reqs st))))
                       (JsMap.keys (wheelchairsData st)))
    /\ (forall body, ~ In (Client.id (fst (createClient body (run reqs st))))
                          (JsMap.keys (clientsData st)))
    /\ (forall body, ~ In (Reservation.id (fst (createReservation body (run reqs st))))
                          (JsMap.keys (reservationsData st))).
Proof.
  intros st reqs Hreach.
  destruct (Reachable_integrity st Hreach) as [(Hw & Hc & Hr) _].
  destruct (counters_monotone_run reqs st) as (Mw & Mc & Mr).
  assert (Hkeys : forall (V : Type) (idOf : V -> Z) (m : JsMap.t V) next k,
             mapOk idOf m next -> In k (JsMap.keys m) -> k < next).
  { intros V idOf m next k (_ & _ & H) Hin. unfold JsMap.keys in Hin.
    apply in_map_iff in Hin as [[k' v] [Hk Hin]]. simpl in Hk. subst k'.
    destruct (H k v Hin). lia. }
  split; [|split]; intros body Hin.
  - apply (Hkeys _ _ _ _ _ Hw) in Hin. run_storage. lia.
  - apply (Hkeys _ _ _ _ _ Hc) in Hin. run_storage. lia.
  - apply (Hkeys _ _ _ _ _ Hr) in Hin. rewrite createReservation_fst in Hin.
    simpl in Hin. lia.
Qed.

Lemma identifiers_never_reused_witness :
  ~ In (Client.id (fst (createClient sampleClient (run [DeleteClients 1] oneClient))))
       (JsMap.keys (clientsData oneClient)).
Proof.
  assert (Hreach : Reachable oneClient)
    by exact (Reachable_run [PostClients sampleClient] storage reach_init).
  destruct (identifiers_never_reused oneClient [DeleteClients 1] Hreach) as (_ & Hc & _).
  exact (Hc sampleClient).
Defined.

(** ** Requests that are not accepted *)

Lemma run_acceptedOnly reqs st : run (acceptedOnly reqs st) st = run reqs st.
Proof.
  revert st. induction reqs as [|req reqs IH]; intro st; simpl; [reflexivity|].
  destruct (isSuccess (fst (handle req st))) eqn:Hs; simpl.
  - apply IH.
  - rewrite <- IH. now rewrite (rejected_request_keeps_store st req Hs).
Qed.

(** X3. A request that is answered with an error changes nothing: the
    store after a run is the store after its accepted requests alone, each
    of which is accepted again in that shorter run. *)
Theorem rejected_requests_can_be_dropped :
  forall (reqs : list Request) (st : MemStorage),
    run (acceptedOnly reqs st) st = run reqs st
    /\ allAccepted (acceptedOnly reqs st) st
    /\ (forall req, isSuccess (fst (handle req st)) = false ->
                    snd (handle req st) = st).
Proof.
  intros reqs st. split; [apply run_acceptedOnly|]. split.
  - unfold allAccepted. revert st.
    induction reqs as [|req reqs IH]; intro st; simpl; [constructor|].
    destruct (isSuccess (fst (handle req st))) eqn:Hs; simpl.
    + constructor; [assumption | apply IH].
    + rewrite (rejected_request_keeps_store st req Hs). apply IH.
  - intro req. apply rejected_request_keeps_store.
Qed.

(** ** Missing identifiers *)



(** ** Deleting *)

Lemma delete_present {V : Type} (m : JsMap.t V) k v :
  JsMap.get k m = Some v -> fst (JsMap.delete k m) = true.
Proof. intro H. now rewrite delete_fst, H. Qed.

(** X5. In a reachable store, deleting a held identifier is answered 204
    and removes that entity and no other; deleting a wheelchair or a client
    asks nothing about reservations and leaves all of them stored, also
    those that reference it. *)
Theorem delete_removes_exactly_one :
  forall (st : MemStorage) (id : Z),
    Reachable st ->
    (forall w, JsMap.get id (wheelchairsData st) = Some w ->
       let st' := snd (deleteWheelchairs id st) in
       fst (deleteWheelchairs id st) = {| statusCode := 204; json := JsonEnd |}
       /\ JsMap.get id (wheelchairsData st') = None
       /\ (forall k, k <> id ->
                     JsMap.get k (wheelchairsData st') = JsMap.get k (wheelchairsData st))
       /\ reservationsData st' = reservationsData st
       /\ clientsData st' = clientsData st)
    /\ (forall c, JsMap.get id (clientsData st) = Some c ->
       let st' := snd (deleteClients id st) in
       fst (deleteClients id st) = {| statusCode := 204; json := JsonEnd |}
       /\ JsMap.get id (clientsData st') = None
       /\ (forall k, k <> id ->
                     JsMap.get k (clientsData st') = JsMap.get k (clientsData st))
       /\ reservationsData st' = reservationsData st
       /\ wheelchairsData st' = wheelchairsData st)
    /\ (forall r, JsMap.get id (reservationsData st) = Some r ->
       let st' := snd (deleteReservations id st) in
       fst (deleteReservations id st) = {| statusCode := 204; json := JsonEnd |}
       /\ JsMap.get id (reservationsData st') = None
       /\ (forall k, k <> id ->
                     JsMap.get k (reservationsData st') = JsMap.get k (reservationsData st))
       /\ wheelchairsData st' = wheelchairsData st
       /\ clientsData st' = clientsData st).
Proof.
  intros st id Hreach.
  destruct (Reachable_integrity st Hreach) as [((Hwn & _) & (Hcn & _) & (Hrn & _)) _].
  split; [|split].
  - intros w Hget st'. subst st'. run_storage.
    pose proof (delete_present _ _ _ Hget) as Hf.
    pose proof (get_delete_same (wheelchairsData st) id Hwn) as Hs.
    pose proof (get_delete_other (wheelchairsData st) id) as Ho.
    destruct (JsMap.delete id (wheelchairsData st)) as [found m]; simpl in *.
    subst found. simpl. repeat split; auto.
  - intros c Hget st'. subst st'. run_storage.
    pose proof (delete_present _ _ _ Hget) as Hf.
    pose proof (get_delete_same (clientsData st) id Hcn) as Hs.
    pose proof (get_delete_other (clientsData st) id) as Ho.
    destruct (JsMap.delete id (clientsData st)) as [found m]; simpl in *.
    subst found. simpl. repeat split; auto.
  - intros r Hget st'. subst st'. run_storage.
    pose proof (delete_present _ _ _ Hget) as Hf.
    pose proof (get_delete_same (reservationsData st) id Hrn) as Hs.
    pose proof (get_delete_other (reservationsData st) id) as Ho.
    destruct (JsMap.delete id (reservationsData st)) as [found m]; simpl in *.
    subst found. simpl. repeat split; auto.
Qed.

Lemma delete_removes_exactly_one_witness :
  fst (deleteWheelchairs 2 threeWheelchairsReached)
  = {| statusCode := 204; json := JsonEnd |}
  /\ reservationsData (snd (deleteWheelchairs 2 threeWheelchairsReached))
     = reservationsData threeWheelchairsReached.
Proof.
  destruct (delete_removes_exactly_one threeWheelchairsReached 2) as (Hw & _ & _).
  - exact (Reachable_run _ storage reach_init).
  - destruct (Hw (Wheelchair.mk 2 "CT-200" "EasyRide" 2021 "280W" (Some 1)
                                (inches "10") (Some "2023-02-10")))
      as (Hresp & _ & _ & Hres & _).
    + vm_compute. reflexivity.
    + split; [exact Hresp | exact Hres].
Defined.

(** ** Creating and looking up *)

Lemma values_app {V : Type} (m1 m2 : JsMap.t V) :
  JsMap.values (m1 ++ m2)%list = (JsMap.values m1 ++ JsMap.values m2)%list.
Proof. unfold JsMap.values. apply map_app. Qed.

Lemma size_set_absent {V : Type} (m : JsMap.t V) k v :
  JsMap.get k m = None -> JsMap.size (JsMap.set k v m) = JsMap.size m + 1.
Proof.
  intro H. rewrite (set_absent m k v H). unfold JsMap.size.
  rewrite length_app. simpl. lia.
Qed.

(** X6. In a reachable store, [POST /wheelchairs] and [POST /clients]
    answer 400 and change nothing when the body fails the schema of the
    route.  Otherwise they answer 201 with an entity that has the next
    identifier and the fields of the body (a wheelchair starts with counter
    0); the entity is what a lookup of its identifier returns afterwards,
    it is listed last, and every entity held before is still returned
    unchanged. *)
Theorem create_then_get :
  forall (z : Schemas) (st : MemStorage),
    Reachable st ->
    (forall body : InsertWheelchair.t,
        (wheelchairSchema z body = false ->
         serve z (PostWheelchairs body) st
         = (rejected 400 (zodMessage z (PostWheelchairs body)), st))
        /\ (wheelchairSchema z body = true ->
            exists w st',
              serve z (PostWheelchairs body) st
              = ({| statusCode := 201; json := JsonWheelchair w |}, st')
              /\ w = Wheelchair.mk (wheelchairCurrentId st)
                       (InsertWheelchair.model body) (InsertWheelchair.brand body)
                       (InsertWheelchair.year body) (InsertWheelchair.motor body) (Some 0)
                       (InsertWheelchair.wheelSize body) (InsertWheelchair.lastService body)
              /\ routeGetWheelchair (Wheelchair.id w) st' = (found w, st')
              /\ fst (getAllWheelchairs st') = (fst (getAllWheelchairs st) ++ [w])%list
              /\ (forall k x, JsMap.get k (wheelchairsData st) = Some x ->
                              JsMap.get k (wheelchairsData st') = Some x)))
    /\ (forall body : InsertClient.t,
        (clientSchema z body = false ->
         serve z (PostClients body) st
         = (rejected 400 (zodMessage z (PostClients body)), st))
        /\ (clientSchema z body = true ->
            exists c st',
              serve z (PostClients body) st
              = ({| statusCode := 201; json := JsonClient c |}, st')
              /\ c = Client.mk (clientCurrentId st)
                       (InsertClient.firstName body) (InsertClient.lastName body)
                       (InsertClient.dni body) (InsertClient.address body)
                       (InsertClient.phone body) (InsertClient.email body)
                       (InsertClient.registerDate body) (InsertClient.city body)
                       (InsertClient.country body)
              /\ routeGetClient (Client.id c) st' = (found c, st')
              /\ fst (getAllClients st') = (fst (getAllClients st) ++ [c])%list
              /\ (forall k x, JsMap.get k (clientsData st) = Some x ->
                              JsMap.get k (clientsData st') = Some x))).
Proof.
  intros z st Hreach.
  destruct (Reachable_integrity st Hreach) as [(Hw & Hc & _) _].
  pose proof (mapOk_next_absent _ _ _ Hw) as Hwa.
  pose proof (mapOk_next_absent _ _ _ Hc) as Hca.
  split; intro body; (split; intro Hschema;
                      [apply serve_refused; simpl; now rewrite Hschema|]).
  - rewrite (serve_valid z _ (PostWheelchairs body)) by (simpl; now rewrite Hschema).
    do 2 eexists. split; [reflexivity|]. split; [reflexivity|].
    unfold routeGetWheelchair, getAllWheelchairs. run_storage.
    rewrite get_set_same. split; [reflexivity|]. split.
    + rewrite (set_absent _ _ _ Hwa), values_app. reflexivity.
    + intros k x Hget. rewrite get_set_other; [assumption|].
      intros ->. congruence.
  - rewrite (serve_valid z _ (PostClients body)) by (simpl; now rewrite Hschema).
    do 2 eexists. split; [reflexivity|]. split; [reflexivity|].
    unfold routeGetClient, getAllClients. run_storage.
    rewrite get_set_same. split; [reflexivity|]. split.
    + rewrite (set_absent _ _ _ Hca), values_app. reflexivity.
    + intros k x Hget. rewrite get_set_other; [assumption|].
      intros ->. congruence.
Qed.

Lemma create_then_get_witness :
  (exists c st',
      serve sampleSchemas (PostClients sampleClient) storage
      = ({| statusCode := 201; json := JsonClient c |}, st')
      /\ routeGetClient (Client.id c) st' = (found c, st'))
  /\ serve sampleSchemas
           (PostWheelchairs (InsertWheelchair.mk "XR-500" "MobilityPlus" 1999 "350W" "12" None))
           storage
     = (rejected 400 "Validation error", storage).
Proof.
  destruct (create_then_get sampleSchemas storage reach_init) as [Hw Hc].
  split.
  - destruct (proj2 (Hc sampleClient) eq_refl) as (c & st' & Hpost & _ & Hget & _).
    exists c, st'. split; [exact Hpost | exact Hget].
  - exact (proj1 (Hw (InsertWheelchair.mk "XR-500" "MobilityPlus" 1999 "350W" "12" None))
                 eq_refl).
Defined.

(** ** The usage counter along requests *)

(** What a request does to the wheelchairs. *)
Lemma wheelchairs_after_handle st req :
  wheelchairsData (snd (handle req st)) = wheelchairsData st
  \/ (exists w, usage w = 0
                /\ wheelchairsData (snd (handle req st))
                   = JsMap.set (wheelchairCurrentId st) w (wheelchairsData st))
  \/ (exists id e e',
         JsMap.get id (wheelchairsData st) = Some e
         /\ Wheelchair.rentalCount e' = Wheelchair.rentalCount e
         /\ wheelchairsData (snd (handle req st))
            = JsMap.set id e' (wheelchairsData st))
  \/ (exists id, wheelchairsData (snd (handle req st))
                 = snd (JsMap.delete id (wheelchairsData st)))
  \/ (exists body w0 w1,
         req = PostReservations body
         /\ statusCode (fst (handle req st)) = 201
         /\ JsMap.get (InsertReservation.wheelchairId body) (wheelchairsData st) = Some w0
         /\ usage w1 = usage w0 + 1
         /\ wheelchairsData (snd (handle req st))
            = JsMap.set (InsertReservation.wheelchairId body) w1 (wheelchairsData st)).
Proof.
  destruct req as [body|id body|id|body|id body|id|body|id body|id]; unfold handle.
  - right; left. run_storage. eexists. split; [|reflexivity]. reflexivity.
  - run_storage.
    destruct (JsMap.get id (wheelchairsData st)) as [existing|] eqn:He; simpl;
      [|now left].
    right; right; left. exists id, existing. eexists.
    split; [exact He|]. split; [|reflexivity]. reflexivity.
  - right; right; right; left. exists id. run_storage.
    destruct (JsMap.delete id (wheelchairsData st)) as [[|] m]; reflexivity.
  - left. run_storage. reflexivity.
  - left. run_storage. destruct (JsMap.get id (clientsData st)); reflexivity.
  - left. run_storage.
    destruct (JsMap.delete id (clientsData st)) as [[|] m]; reflexivity.
  - rewrite postReservations_cases.
    destruct (JsMap.get _ (clientsData st)); [|now left].
    destruct (JsMap.get (InsertReservation.wheelchairId body) (wheelchairsData st))
      as [w0|] eqn:H0; [|now left].
    destruct (_ >=? _); [now left|].
    destruct (negb _); [now left|].
    destruct (createReservation_wheelchairs_found st body w0 H0) as [w1 (Hws & _ & Hu)].
    right; right; right; right. exists body, w0, w1.
    split; [reflexivity|]. split; [reflexivity|]. split; [exact H0|].
    split; [exact Hu | exact Hws].
  - left. apply putReservations_wheelchairs.
  - left. rewrite deleteReservations_snd. reflexivity.
Qed.

(** X7. For a wheelchair that a reachable store holds and that is still
    held after a request, the counter is unchanged or one higher, and it is
    one higher only when the request is a [POST /reservations] for that
    wheelchair answered 201. *)
Theorem usage_steps_by_accepted_reservations :
  forall (st : MemStorage) (req : Request) (k : Z) (w w' : Wheelchair.t),
    Reachable st ->
    JsMap.get k (wheelchairsData st) = Some w ->
    JsMap.get k (wheelchairsData (snd (handle req st))) = Some w' ->
    (usage w' = usage w \/ usage w' = usage w + 1)
    /\ (usage w' = usage w + 1 ->
        exists body,
          req = PostReservations body
          /\ InsertReservation.wheelchairId body = k
          /\ statusCode (fst (handle req st)) = 201).
Proof.
  intros st req k w w' Hreach Hget Hget'.
  destruct (Reachable_integrity st Hreach) as [(Hw & _ & _) _].
  assert (Hsame : usage w' = usage w ->
            (usage w' = usage w \/ usage w' = usage w + 1)
            /\ (usage w' = usage w + 1 ->
                exists body,
                  req = PostReservations body
                  /\ InsertReservation.wheelchairId body = k
                  /\ statusCode (fst (handle req st)) = 201)).
  { intro E. split; [now left | intro; lia]. }
  destruct (wheelchairs_after_handle st req)
    as [E|[[x [_ E]]|[(id & e & e' & He & Hrc & E)|[[id E]|(body & w0 & w1 & Hreq & Hcode & H0 & Hu & E)]]]];
    rewrite E in Hget'; clear E.
  - apply Hsame. congruence.
  - apply Hsame. rewrite get_set_other in Hget'; [congruence|].
    destruct (mapOk_below _ _ _ _ _ Hw Hget). lia.
  - apply Hsame. destruct (Z.eq_dec k id) as [->|Hne].
    + rewrite get_set_same in Hget'. injection Hget' as <-.
      unfold usage. rewrite Hrc. congruence.
    + rewrite get_set_other in Hget' by assumption. congruence.
  - apply Hsame. destruct (Z.eq_dec k id) as [->|Hne].
    + rewrite (get_delete_same _ _ (proj1 Hw)) in Hget'. discriminate.
    + rewrite get_delete_other in Hget' by assumption. congruence.
  - destruct (Z.eq_dec k (InsertReservation.wheelchairId body)) as [->|Hne].
    + rewrite get_set_same in Hget'. injection Hget' as <-.
      assert (w0 = w) by congruence. subst w0.
      split; [right; exact Hu|]. intros _. exists body.
      split; [exact Hreq|]. split; [reflexivity | exact Hcode].
    + rewrite get_set_other in Hget' by assumption. apply Hsame. congruence.
Qed.

Lemma usage_steps_by_accepted_reservations_witness :
  usage (Wheelchair.mk 2 "CT-200" "EasyRide" 2021 "280W" (Some 1)
                       (inches "10") (Some "2023-02-10"))
  = usage (Wheelchair.mk 2 "CT-200" "EasyRide" 2021 "280W" (Some 0)
                         (inches "10") (Some "2023-02-10"))
  \/ usage (Wheelchair.mk 2 "CT-200" "EasyRide" 2021 "280W" (Some 1)
                          (inches "10") (Some "2023-02-10"))
     = usage (Wheelchair.mk 2 "CT-200" "EasyRide" 2021 "280W" (Some 0)
                            (inches "10") (Some "2023-02-10")) + 1.
Proof.
  assert (Hreach : Reachable oneClient)
    by exact (Reachable_run [PostClients sampleClient] storage reach_init).
  assert (Hget : JsMap.get 2 (wheelchairsData oneClient)
                 = Some (Wheelchair.mk 2 "CT-200" "EasyRide" 2021 "280W" (Some 0)
                                       (inches "10") (Some "2023-02-10")))
    by (vm_compute; reflexivity).
  assert (Hget' : JsMap.get 2 (wheelchairsData
                     (snd (handle (PostReservations (InsertReservation.mk 1 2 10 20 None))
                                  oneClient)))
                  = Some (Wheelchair.mk 2 "CT-200" "EasyRide" 2021 "280W" (Some 1)
                                        (inches "10") (Some "2023-02-10")))
    by (vm_compute; reflexivity).
  exact (proj1 (usage_steps_by_accepted_reservations oneClient
                  (PostReservations (InsertReservation.mk 1 2 10 20 None)) 2 _ _
                  Hreach Hget Hget')).
Defined.

(** ** Updating *)

Lemma keys_set_present {V : Type} (m : JsMap.t V) k v old :
  JsMap.get k m = Some old -> JsMap.keys (JsMap.set k v m) = JsMap.keys m.
Proof.
  unfold JsMap.keys. induction m as [|[k0 v0] m IH]; simpl; [discriminate|].
  destruct (Z.eqb_spec k k0) as [->|Hk]; simpl; [reflexivity|].
  intro H. now rewrite IH.
Qed.

(** An accepted reservation update stored the spread. *)
Lemma putReservations_accepted st id body :
  statusCode (fst (putReservations id body st)) = 200 ->
  exists e,
    JsMap.get id (reservationsData st) = Some e
    /\ putReservations id body st
       = ({| statusCode := 200; json := JsonReservation (spreadReservation e body) |},
          setReservations
            (JsMap.set id (spreadReservation e body) (reservationsData st)) st).
Proof.
  unfold putReservations, availabilityBlock, checkAvailability. run_storage.
  destruct (checksAvailability body); simpl.
  - destruct (JsMap.get id (reservationsData st)) as [e|] eqn:Hget; simpl;
      [|discriminate].
    destruct (_ >=? _); simpl; [discriminate|].
    destruct (overlappingReservations _ _ _ _ _); simpl; [|discriminate].
    rewrite Hget. simpl. intros _. exists e. split; reflexivity.
  - destruct (JsMap.get id (reservationsData st)) as [e|] eqn:Hget; simpl;
      [|discriminate].
    intros _. exists e. split; reflexivity.
Qed.

(** X8. [PUT] on a held wheelchair or client answers 400 and changes
    nothing when the body fails the partial schema of the route, and 200
    otherwise; the updated entity keeps its identifier, and a wheelchair
    its usage counter; no entry is created, the order of the collection is
    kept and every other entity is as it was.  A reservation update that is
    answered 200 stored the spread of the body without its [status] key
    over the held reservation, which so keeps its identifier and its
    status, with the same frame. *)
Theorem update_changes_the_addressed_entity_only :
  forall (z : Schemas) (st : MemStorage) (id : Z),
    (forall body e,
        JsMap.get id (wheelchairsData st) = Some e ->
        (wheelchairSchemaPartial z body = false ->
         serve z (PutWheelchairs id body) st
         = (rejected 400 (zodMessage z (PutWheelchairs id body)), st))
        /\ (wheelchairSchemaPartial z body = true ->
            exists e',
              serve z (PutWheelchairs id body) st
              = ({| statusCode := 200; json := JsonWheelchair e' |},
                 setWheelchairs (JsMap.set id e' (wheelchairsData st)) st)
              /\ Wheelchair.id e' = Wheelchair.id e
              /\ Wheelchair.rentalCount e' = Wheelchair.rentalCount e
              /\ JsMap.keys (JsMap.set id e' (wheelchairsData st))
                 = JsMap.keys (wheelchairsData st)
              /\ forall k, k <> id ->
                           JsMap.get k (JsMap.set id e' (wheelchairsData st))
                           = JsMap.get k (wheelchairsData st)))
    /\ (forall body e,
        JsMap.get id (clientsData st) = Some e ->
        (clientSchemaPartial z body = false ->
         serve z (PutClients id body) st
         = (rejected 400 (zodMessage z (PutClients id body)), st))
        /\ (clientSchemaPartial z body = true ->
            exists e',
              serve z (PutClients id body) st
              = ({| statusCode := 200; json := JsonClient e' |},
                 setClients (JsMap.set id e' (clientsData st)) st)
              /\ Client.id e' = Client.id e
              /\ JsMap.keys (JsMap.set id e' (clientsData st)) = JsMap.keys (clientsData st)
              /\ forall k, k <> id ->
                           JsMap.get k (JsMap.set id e' (clientsData st))
                           = JsMap.get k (clientsData st)))
    /\ (forall body,
        statusCode (fst (serve z (PutReservations id body) st)) = 200 ->
        exists e,
          let e' := spreadReservation e (reservationSchemaPartial body) in
          JsMap.get id (reservationsData st) = Some e
          /\ serve z (PutReservations id body) st
             = ({| statusCode := 200; json := JsonReservation e' |},
                setReservations (JsMap.set id e' (reservationsData st)) st)
          /\ Reservation.id e' = Reservation.id e
          /\ Reservation.status e' = Reservation.status e
          /\ JsMap.keys (JsMap.set id e' (reservationsData st))
             = JsMap.keys (reservationsData st)
          /\ forall k, k <> id ->
                       JsMap.get k (JsMap.set id e' (reservationsData st))
                       = JsMap.get k (reservationsData st)).
Proof.
  intros z st id. split; [|split].
  - intros body e Hget. split; intro Hschema;
      [apply serve_refused; simpl; now rewrite Hschema|].
    rewrite (serve_valid z _ (PutWheelchairs id body)) by (simpl; now rewrite Hschema).
    simpl. run_storage. rewrite Hget. simpl.
    eexists. split; [reflexivity|]. split; [reflexivity|]. split; [reflexivity|].
    split; [now apply (keys_set_present _ _ _ e) | intros k Hk; now apply get_set_other].
  - intros body e Hget. split; intro Hschema;
      [apply serve_refused; simpl; now rewrite Hschema|].
    rewrite (serve_valid z _ (PutClients id body)) by (simpl; now rewrite Hschema).
    simpl. run_storage. rewrite Hget. simpl.
    eexists. split; [reflexivity|]. split; [reflexivity|].
    split; [now apply (keys_set_present _ _ _ e) | intros k Hk; now apply get_set_other].
  - intros body.
    change (serve z (PutReservations id body) st)
      with (putReservations id (reservationSchemaPartial body) st).
    intro Hcode.
    destruct (putReservations_accepted st id _ Hcode) as [e [Hget Hrun]].
    exists e. split; [exact Hget|]. split; [exact Hrun|]. split; [reflexivity|].
    split; [reflexivity|].
    split; [now apply (keys_set_present _ _ _ e) | intros k Hk; now apply get_set_other].
Qed.

(** ** Availability and the life of a reservation *)

Lemma filter_length_le {A : Type} (p q : A -> bool) (l : list A) :
  (forall x, In x l -> p x = true -> q x = true) ->
  (List.length (filter p l) <= List.length (filter q l))%nat.
Proof.
  induction l as [|a l IH]; intro H; simpl; [lia|].
  assert (IH' : (List.length (filter p l) <= List.length (filter q l))%nat).
  { apply IH. intros x Hx. apply H. now right. }
  destruct (p a) eqn:Hp.
  - rewrite (H a (or_introl eq_refl) Hp). simpl. lia.
  - destruct (q a); simpl; lia.
Qed.

(** X9. Widening the queried range can only take wheelchairs away: every
    wheelchair offered for a range is offered for each range inside it, so
    the wider list is not longer and [available] for the wider range
    implies [available] for the narrower one. *)
Theorem wider_range_offers_fewer :
  forall (st : MemStorage) (s e s' e' : Z),
    s' <= s -> e <= e' ->
    let wide := fst (checkAvailability s' e' st) in
    let narrow := fst (checkAvailability s e st) in
    (forall w, In w (availableWheelchairs wide) -> In w (availableWheelchairs narrow))
    /\ (List.length (availableWheelchairs wide)
        <= List.length (availableWheelchairs narrow))%nat
    /\ (available wide = true -> available narrow = true).
Proof.
  intros st s e s' e' Hs He wide narrow. subst wide narrow.
  assert (Hin : forall w,
             In w (availableWheelchairs (fst (checkAvailability s' e' st))) ->
             In w (availableWheelchairs (fst (checkAvailability s e st)))).
  { intros w Hw. apply In_available in Hw as [Hst Hno]. apply In_available.
    split; [assumption|]. intros [r (Hr & Ha & Hu & Hov1 & Hov2)]. apply Hno.
    exists r. split; [assumption|]. unfold blocks, overlap. repeat split; try assumption; lia. }
  assert (Hlen : (List.length (availableWheelchairs (fst (checkAvailability s' e' st)))
                  <= List.length (availableWheelchairs (fst (checkAvailability s e st))))%nat).
  { unfold checkAvailability, gets. simpl. apply filter_length_le.
    intros w Hw Hp.
    assert (Hw' : In w (availableWheelchairs (fst (checkAvailability s' e' st)))).
    { unfold checkAvailability, gets. simpl. apply filter_In. now split. }
    apply Hin in Hw'. unfold checkAvailability, gets in Hw'. simpl in Hw'.
    now apply filter_In in Hw'. }
  split; [exact Hin|]. split; [exact Hlen|].
  unfold checkAvailability, gets in *. simpl in *.
  rewrite !Z.ltb_lt. lia.
Qed.

Lemma wider_range_offers_fewer_witness :
  (List.length (availableWheelchairs (fst (checkAvailability 50 300 threeWheelchairs)))
   <= List.length (availableWheelchairs (fst (checkAvailability 210 220 threeWheelchairs))))%nat.
Proof.
  assert (Hs : 50 <= 210) by lia.
  assert (He : 220 <= 300) by lia.
  exact (proj1 (proj2 (wider_range_offers_fewer threeWheelchairs 210 220 50 300 Hs He))).
Defined.

(** X10. After a [POST /reservations] answered 201 the wheelchair is not
    offered for any range that overlaps the reserved one, and sending the
    same request again is answered 400 "not available" without changing
    the store. *)
Theorem accepted_reservation_blocks_its_wheelchair :
  forall (st : MemStorage) (body : InsertReservation.t),
    statusCode (fst (postReservations body st)) = 201 ->
    let st' := snd (postReservations body st) in
    (forall s e,
        overlap (InsertReservation.startDate body) (InsertReservation.endDate body) s e ->
        ~ offers (fst (checkAvailability s e st')) (InsertReservation.wheelchairId body))
    /\ postReservations body st'
       = (rejected 400 "Wheelchair is not available for the requested dates", st').
Proof.
  intros st body Hcode st'. subst st'. revert Hcode.
  rewrite (postReservations_cases st body).
  destruct (JsMap.get _ (clientsData st)) as [c|] eqn:Hc; [|discriminate].
  destruct (JsMap.get (InsertReservation.wheelchairId body) (wheelchairsData st))
    as [w0|] eqn:Hw0; [|discriminate].
  destruct (Z.geb_spec (InsertReservation.startDate body) (InsertReservation.endDate body))
    as [Hge|Hlt]; [discriminate|].
  destruct (negb _); [discriminate|]. intros _. simpl.
  destruct (createReservation_reservations st body) as (Hres & _ & Hcs & _).
  destruct (createReservation_wheelchairs_found st body w0 Hw0) as [w1 (Hws & _)].
  set (st' := snd (createReservation body st)) in *.
  assert (Hstored : storedReservation st' (newReservation (reservationCurrentId st) body)).
  { unfold storedReservation. rewrite Hres. apply In_values.
    exists (reservationCurrentId st). apply get_In, get_set_same. }
  assert (Hblocked : forall s e,
             overlap (InsertReservation.startDate body) (InsertReservation.endDate body) s e ->
             ~ offers (fst (checkAvailability s e st')) (InsertReservation.wheelchairId body)).
  { intros s e Hov [w [Hin Hid]]. apply In_available in Hin as [_ Hno]. apply Hno.
    exists (newReservation (reservationCurrentId st) body).
    split; [exact Hstored|]. split; [reflexivity|]. split; [now rewrite Hid | exact Hov]. }
  split; [exact Hblocked|].
  rewrite (postReservations_cases st' body). rewrite Hcs, Hc, Hws, get_set_same.
  destruct (Z.geb_spec (InsertReservation.startDate body) (InsertReservation.endDate body))
    as [Hge|_]; [lia|].
  destruct (someWithId _ _) eqn:Hav; [|reflexivity].
  exfalso. apply someWithId_offers in Hav. revert Hav. apply Hblocked.
  unfold overlap. lia.
Qed.

Lemma accepted_reservation_blocks_its_wheelchair_witness :
  postReservations (InsertReservation.mk 1 2 10 20 None)
                   (snd (postReservations (InsertReservation.mk 1 2 10 20 None) oneClient))
  = (rejected 400 "Wheelchair is not available for the requested dates",
     snd (postReservations (InsertReservation.mk 1 2 10 20 None) oneClient)).
Proof.
  apply (accepted_reservation_blocks_its_wheelchair oneClient
           (InsertReservation.mk 1 2 10 20 None)).
  vm_compute. reflexivity.
Defined.

Lemma In_delete_strong {V : Type} (m : JsMap.t V) k k' v' :
  NoDup (JsMap.keys m) ->
  In (k', v') (snd (JsMap.delete k m)) -> k' <> k /\ In (k', v') m.
Proof.
  intros Hnd Hin. split; [|now apply In_delete in Hin].
  intros ->. pose proof (get_delete_same m k Hnd) as Hnone.
  apply (In_get _ _ _ (NoDup_keys_delete m k Hnd)) in Hin. congruence.
Qed.

(** ** Patches that change nothing *)

Lemma spreadReservation_empty e : spreadReservation e emptyPatch = e.
Proof. now destruct e. Qed.

Lemma spreadReservation_same e : spreadReservation e (sameBooking e) = e.
Proof. now destruct e. Qed.

Lemma orNum_same n : orNum (Some n) n = n.
Proof. simpl. destruct (Z.eqb_spec n 0); congruence. Qed.

(** A reservation update whose tests pass is answered 200. *)
Lemma putReservations_accepts st id body e :
  JsMap.get id (reservationsData st) = Some e ->
  (checksAvailability body = true ->
   spread (ReservationPatch.startDate body) (Reservation.startDate e)
   < spread (ReservationPatch.endDate body) (Reservation.endDate e)
   /\ overlappingReservations id
        (orNum (ReservationPatch.wheelchairId body) (Reservation.wheelchairId e))
        (spread (ReservationPatch.startDate body) (Reservation.startDate e))
        (spread (ReservationPatch.endDate body) (Reservation.endDate e))
        (JsMap.values (reservationsData st)) = []) ->
  putReservations id body st
  = ({| statusCode := 200; json := JsonReservation (spreadReservation e body) |},
     setReservations (JsMap.set id (spreadReservation e body) (reservationsData st)) st).
Proof.
  intros Hget Htests.
  unfold putReservations, availabilityBlock, checkAvailability. run_storage.
  destruct (checksAvailability body); simpl.
  - destruct (Htests eq_refl) as [Hlt Hnone].
    rewrite Hget. simpl.
    destruct (Z.geb_spec
                (spread (ReservationPatch.startDate body) (Reservation.startDate e))
                (spread (ReservationPatch.endDate body) (Reservation.endDate e)))
      as [Hge|_]; [lia|].
    simpl. rewrite Hnone. simpl. rewrite Hget. reflexivity.
  - rewrite Hget. reflexivity.
Qed.

(** X12. [PUT /reservations/:id] on a held reservation with an empty body
    is answered 200 and changes nothing; with a body that has only notes it
    is answered 200 and changes only the notes, without any availability
    test.  In a reachable store without double-booking, sending back the
    wheelchair and the dates of an "active" reservation that starts before
    it ends is answered 200 and changes nothing: the reservation does not
    conflict with itself. *)
Theorem unchanged_booking_is_accepted :
  forall (st : MemStorage) (id : Z) (e : Reservation.t),
    JsMap.get id (reservationsData st) = Some e ->
    putReservations id emptyPatch st
    = ({| statusCode := 200; json := JsonReservation e |}, st)
    /\ (forall n,
           exists e',
             fst (putReservations id (notesOnly n) st)
             = {| statusCode := 200; json := JsonReservation e' |}
             /\ JsMap.get id (reservationsData (snd (putReservations id (notesOnly n) st)))
                = Some e'
             /\ e' = Reservation.mk (Reservation.id e) (Reservation.clientId e)
                       (Reservation.wheelchairId e) (Reservation.startDate e)
                       (Reservation.endDate e) (Reservation.status e) n)
    /\ (Reachable st ->
        Reservation.status e = "active" ->
        Reservation.startDate e < Reservation.endDate e ->
        noDoubleBooking (Reservation.wheelchairId e) st ->
        putReservations id (sameBooking e) st
        = ({| statusCode := 200; json := JsonReservation e |}, st)).
Proof.
  intros st id e Hget. split; [|split].
  - unfold putReservations. run_storage. rewrite Hget. simpl.
    rewrite spreadReservation_empty, (set_same _ _ _ Hget), setReservations_same.
    reflexivity.
  - intro n. eexists. unfold putReservations. run_storage. rewrite Hget. simpl.
    split; [reflexivity|]. split; [apply get_set_same | reflexivity].
  - intros Hreach Ha Hlt Hndb.
    destruct (Reachable_integrity st Hreach) as [(_ & _ & Hr) _].
    destruct (mapOk_below _ _ _ _ _ Hr Hget) as [Hid _].
    assert (He : storedReservation st e) by (apply In_values; exists id; now apply get_In).
    assert (Hnone : overlappingReservations id (Reservation.wheelchairId e)
                      (Reservation.startDate e) (Reservation.endDate e)
                      (JsMap.values (reservationsData st)) = []).
    { apply overlappingReservations_nil. intros r Hst Hne (Har & Hu & Hov).
      apply (Hndb r e); try assumption; congruence. }
    rewrite (putReservations_accepts st id (sameBooking e) e Hget).
    + rewrite spreadReservation_same, (set_same _ _ _ Hget), setReservations_same.
      reflexivity.
    + intros _. unfold sameBooking. cbn [ReservationPatch.startDate
        ReservationPatch.endDate ReservationPatch.wheelchairId spread].
      rewrite orNum_same. split; assumption.
Qed.

Lemma unchanged_booking_is_accepted_witness :
  putReservations 1 emptyPatch threeWheelchairsReached
  = ({| statusCode := 200;
        json := JsonReservation (Reservation.mk 1 1 2 100 200 "active" None) |},
     threeWheelchairsReached).
Proof.
  exact (proj1 (unchanged_booking_is_accepted threeWheelchairsReached 1
                  (Reservation.mk 1 1 2 100 200 "active" None) eq_refl)).
Defined.

(** ** Releasing a wheelchair *)

(** A body with the key [status] only reaches the handler empty. *)
Lemma serve_status_only z st id status r :
  JsMap.get id (reservationsData st) = Some r ->
  serve z (PutReservations id (patchStatus status)) st
  = ({| statusCode := 200; json := JsonReservation r |}, st).
Proof.
  intro Hget.
  change (serve z (PutReservations id (patchStatus status)) st)
    with (putReservations id emptyPatch st).
  unfold putReservations. run_storage. rewrite Hget. simpl.
  rewrite spreadReservation_empty, (set_same _ _ _ Hget), setReservations_same.
  reflexivity.
Qed.

(** X11. In a reachable store, deleting a reservation releases its
    wheelchair: a stored wheelchair that only the reservation [id] blocks
    for a range is offered for that range after [DELETE /reservations/:id].
    Sending a status does not: [PUT /reservations/:id] with a body that has
    the key [status] only is answered 200 with the reservation as it was,
    the store is unchanged, and a wheelchair the reservation blocks stays
    withheld. *)
Theorem delete_releases_status_key_does_not :
  forall (z : Schemas) (st : MemStorage) (id s e : Z) (w : Wheelchair.t),
    Reachable st ->
    storedWheelchair st w ->
    (forall r, storedReservation st r -> blocks (Wheelchair.id w) s e r ->
               Reservation.id r = id) ->
    In w (availableWheelchairs
            (fst (checkAvailability s e (snd (serve z (DeleteReservations id) st)))))
    /\ (forall (status : string) (r : Reservation.t),
           JsMap.get id (reservationsData st) = Some r ->
           serve z (PutReservations id (patchStatus status)) st
           = ({| statusCode := 200; json := JsonReservation r |}, st)
           /\ (blocks (Wheelchair.id w) s e r ->
               ~ In w (availableWheelchairs
                         (fst (checkAvailability s e
                                 (snd (serve z (PutReservations id (patchStatus status))
                                             st))))))).
Proof.
  intros z st id s e w Hreach Hw Honly.
  destruct (Reachable_integrity st Hreach) as [Hint _].
  destruct Hint as (_ & _ & (Hnd & _ & Hr)).
  split.
  - change (serve z (DeleteReservations id) st) with (deleteReservations id st).
    apply In_available. rewrite deleteReservations_snd. split; [exact Hw|].
    intros [r [Hst Hb]]. unfold storedReservation in Hst. simpl in Hst.
    apply In_values in Hst as [k Hin].
    apply (In_delete_strong _ _ _ _ Hnd) in Hin as [Hne Hin].
    destruct (Hr k r Hin) as [Hid _].
    assert (Hr' : storedReservation st r) by (apply In_values; now exists k).
    specialize (Honly r Hr' Hb). congruence.
  - intros status r Hget.
    rewrite (serve_status_only z st id status r Hget).
    split; [reflexivity|]. simpl. intros Hb Hin.
    apply In_available in Hin as [_ Hno]. apply Hno.
    exists r. split; [|exact Hb].
    apply In_values. exists id. now apply get_In.
Qed.

Lemma delete_releases_status_key_does_not_witness :
  In (Wheelchair.mk 2 "CT-200" "EasyRide" 2021 "280W" (Some 1) (inches "10")
                    (Some "2023-02-10"))
     (availableWheelchairs
        (fst (checkAvailability 120 130
                (snd (serve sampleSchemas (DeleteReservations 1)
                            threeWheelchairsReached)))))
  /\ ~ In (Wheelchair.mk 2 "CT-200" "EasyRide" 2021 "280W" (Some 1) (inches "10")
                         (Some "2023-02-10"))
          (availableWheelchairs
             (fst (checkAvailability 120 130
                     (snd (serve sampleSchemas (PutReservations 1 (patchStatus "cancelled"))
                                 threeWheelchairsReached))))).
Proof.
  assert (Hreach : Reachable threeWheelchairsReached)
    by exact (Reachable_run
                [PostClients sampleClient;
                 PostReservations (InsertReservation.mk 1 2 100 200 None)]
                storage reach_init).
  assert (Hw : storedWheelchair threeWheelchairsReached
                 (Wheelchair.mk 2 "CT-200" "EasyRide" 2021 "280W" (Some 1) (inches "10")
                                (Some "2023-02-10")))
    by (unfold storedWheelchair; vm_compute; auto 20).
  assert (Honly : forall r,
             storedReservation threeWheelchairsReached r ->
             blocks 2 120 130 r -> Reservation.id r = 1).
  { intros r Hr _. unfold storedReservation in Hr. vm_compute in Hr.
    destruct Hr as [<-|[]]. reflexivity. }
  destruct (delete_releases_status_key_does_not sampleSchemas threeWheelchairsReached
              1 120 130 _ Hreach Hw Honly) as [Hdel Hput].
  split; [exact Hdel|].
  destruct (Hput "cancelled" (Reservation.mk 1 1 2 100 200 "active" None) eq_refl)
    as [_ Hkeep].
  apply Hkeep. unfold blocks, overlap.
  split; [reflexivity|]. split; [reflexivity|]. split; discriminate.
Defined.

(** ** The dashboard against the availability query *)

Lemma has_In s x : has s x = true <-> In x s.
Proof.
  unfold has. rewrite existsb_exists. split.
  - intros [y [Hy Heq]]. apply Z.eqb_eq in Heq. now subst.
  - intro H. exists x. split; [assumption | apply Z.eqb_refl].
Qed.

Lemma filter_split_length {A : Type} (p : A -> bool) (l : list A) :
  (List.length (filter p l) + List.length (filter (fun x => negb (p x)) l)
   = List.length l)%nat.
Proof.
  induction l as [|a l IH]; simpl; [reflexivity|].
  destruct (p a); simpl; lia.
Qed.

(** Filtering wheelchairs with distinct identifiers keeps them distinct. *)
Lemma distinct_ids_filter (p : Wheelchair.t -> bool) (ws : list Wheelchair.t) :
  NoDup (map Wheelchair.id ws) -> NoDup (map Wheelchair.id (filter p ws)).
Proof.
  induction ws as [|w ws IH]; simpl; intro Hnd; [constructor|].
  apply NoDup_cons_iff in Hnd as [Hfresh Hrest].
  destruct (p w); simpl; [|exact (IH Hrest)].
  apply NoDup_cons; [|exact (IH Hrest)].
  intro Hin. apply Hfresh. apply in_map_iff in Hin as [x [Hx Hin]].
  apply filter_In in Hin as [Hin _]. apply in_map_iff. exists x. split; assumption.
Qed.

(** Wheelchairs with distinct identifiers: those referenced by a
    duplicate-free list of identifiers are at most as many as the list. *)
Lemma referenced_count (ws : list Wheelchair.t) (ids : list Z) :
  NoDup (map Wheelchair.id ws) -> NoDup ids ->
  (List.length (filter (fun w => has ids (Wheelchair.id w)) ws) <= List.length ids)%nat
  /\ (incl ids (map Wheelchair.id ws) ->
      List.length (filter (fun w => has ids (Wheelchair.id w)) ws) = List.length ids).
Proof.
  intros Hws Hids.
  set (ref := filter (fun w => has ids (Wheelchair.id w)) ws).
  assert (Hnd : NoDup (map Wheelchair.id ref)) by now apply distinct_ids_filter.
  assert (Hincl : incl (map Wheelchair.id ref) ids).
  { intros u Hu. apply in_map_iff in Hu as [w [<- Hw]].
    apply filter_In in Hw as [_ Hw]. now apply has_In. }
  pose proof (NoDup_incl_length Hnd Hincl) as Hle. rewrite length_map in Hle.
  split; [exact Hle|]. intro Hsub.
  assert (Hincl' : incl ids (map Wheelchair.id ref)).
  { intros u Hu. destruct (proj1 (in_map_iff _ _ _) (Hsub u Hu)) as [w [Hid Hw]].
    apply in_map_iff. exists w. split; [assumption|].
    apply filter_In. split; [assumption|]. apply has_In. now rewrite Hid. }
  pose proof (NoDup_incl_length Hids Hincl') as Hge. rewrite length_map in Hge. lia.
Qed.

Lemma mapOk_ids_distinct (m : JsMap.t Wheelchair.t) next :
  mapOk Wheelchair.id m next -> NoDup (map Wheelchair.id (JsMap.values m)).
Proof.
  intros (Hnd & _ & H). unfold JsMap.values. rewrite map_map.
  unfold JsMap.keys in Hnd.
  rewrite (map_ext_in (fun x => Wheelchair.id (snd x)) fst); [assumption|].
  intros [k w] Hin. simpl. now destruct (H k w Hin).
Qed.

(** X13. In a reachable store the dashboard's number of available
    wheelchairs is at most the number of stored wheelchairs and at most the
    number of wheelchairs that [checkAvailability(today, today)] offers,
    and its number of active reservations is the length of
    [getActiveReservations].  When every reservation that is "active" and
    not ended references a stored wheelchair, the number of available
    wheelchairs is not negative and counts exactly the stored wheelchairs
    that no such reservation references. *)
Theorem dashboard_counts_against_availability :
  forall (st : MemStorage) (today : Z),
    Reachable st ->
    let stats := fst (getDashboardStats today st) in
    DashboardStats.availableWheelchairs stats <= DashboardStats.totalWheelchairs stats
    /\ DashboardStats.availableWheelchairs stats
       <= Z.of_nat (List.length
                      (availableWheelchairs (fst (checkAvailability today today st))))
    /\ DashboardStats.activeReservations stats
       = Z.of_nat (List.length (fst (getActiveReservations today st)))
    /\ ((forall r, storedReservation st r -> effectivelyActive today r ->
                   exists w, storedWheelchair st w
                             /\ Wheelchair.id w = Reservation.wheelchairId r) ->
        exists free : list Wheelchair.t,
          (forall w, In w free <->
                     storedWheelchair st w
                     /\ ~ exists r, storedReservation st r
                                    /\ effectivelyActive today r
                                    /\ Reservation.wheelchairId r = Wheelchair.id w)
          /\ NoDup free
          /\ DashboardStats.availableWheelchairs stats = Z.of_nat (List.length free)).
Proof.
  intros st today Hreach stats. subst stats.
  destruct (Reachable_integrity st Hreach) as [(Hw & _ & _) _].
  pose proof (mapOk_ids_distinct _ _ Hw) as Hdistinct.
  unfold getDashboardStats, getActiveReservations, checkAvailability, gets. simpl.
  set (ws := JsMap.values (wheelchairsData st)) in *.
  set (act := filter (activeAndUnexpired today) (JsMap.values (reservationsData st))).
  set (ids := newSet (map Reservation.wheelchairId act)).
  assert (Hsize : JsMap.size (wheelchairsData st) = Z.of_nat (List.length ws)).
  { unfold JsMap.size, ws, JsMap.values. now rewrite length_map. }
  assert (Hids : NoDup ids) by apply NoDup_nodup.
  destruct (referenced_count ws ids Hdistinct Hids) as [Hle Heq].
  pose proof (filter_split_length (fun w => has ids (Wheelchair.id w)) ws) as Hsplit.
  assert (Hidsin : forall u, In u ids <->
                     exists r, storedReservation st r /\ effectivelyActive today r
                               /\ Reservation.wheelchairId r = u).
  { intro u. unfold ids, newSet. rewrite nodup_In, in_map_iff. split.
    - intros [r [Hu Hr]]. apply filter_In in Hr as [Hr Ha].
      apply activeAndUnexpired_iff in Ha. exists r.
      split; [exact Hr|]. split; [exact Ha | exact Hu].
    - intros [r (Hr & Ha & Hu)]. exists r. split; [exact Hu|].
      apply filter_In. split; [exact Hr | apply activeAndUnexpired_iff; exact Ha]. }
  rewrite Hsize. split; [lia|]. split; [|split; [reflexivity|]].
  - assert (Hmono : (List.length (filter (fun w => negb (has ids (Wheelchair.id w))) ws)
                     <= List.length
                          (filter (fun w =>
                                     negb (has (newSet (map Reservation.wheelchairId
                                                  (filter (overlapsActive today today)
                                                     (JsMap.values (reservationsData st)))))
                                               (Wheelchair.id w))) ws))%nat).
    { apply filter_length_le. intros w _ Hfree.
      apply negb_true_iff in Hfree. apply negb_true_iff.
      apply not_true_is_false. intro Hres. apply not_true_iff_false in Hfree.
      apply Hfree. apply has_In, Hidsin.
      apply reserved_iff in Hres as [r [Hr (Ha & Hu & Hov1 & Hov2)]].
      exists r. split; [assumption|]. split; [|assumption].
      split; [assumption|lia]. }
    lia.
  - intro Hrefs.
    exists (filter (fun w => negb (has ids (Wheelchair.id w))) ws).
    split; [|split].
    + intro w. rewrite filter_In, negb_true_iff. unfold storedWheelchair. fold ws.
      split; intros [Hin Hn]; (split; [assumption|]).
      * intro Hex. apply Hidsin, has_In in Hex. congruence.
      * apply not_true_is_false. intro Hh. apply Hn. now apply Hidsin, has_In.
    + apply NoDup_filter. eapply NoDup_map_inv. exact Hdistinct.
    + rewrite <- Heq; [lia|].
      intros u Hu. apply Hidsin in Hu as [r (Hr & Ha & Hu)].
      destruct (Hrefs r Hr Ha) as [w [Hw' Hid]].
      apply in_map_iff. exists w. split; [congruence | exact Hw'].
Qed.

Lemma dashboard_counts_against_availability_witness :
  DashboardStats.availableWheelchairs (fst (getDashboardStats 150 threeWheelchairsReached))
  <= Z.of_nat (List.length
                 (availableWheelchairs
                    (fst (checkAvailability 150 150 threeWheelchairsReached)))).
Proof.
  assert (Hreach : Reachable threeWheelchairsReached)
    by exact (Reachable_run
                [PostClients sampleClient;
                 PostReservations (InsertReservation.mk 1 2 100 200 None)]
                storage reach_init).
  exact (proj1 (proj2 (dashboard_counts_against_availability
                         threeWheelchairsReached 150 Hreach))).
Defined.

(** ** [GET /availability] *)

(** X14. [GET /availability] never changes the store and answers 200 or
    400.  It answers 200 exactly when both parameters are present and not
    empty, both parse to dates and the start is strictly before the end;
    its payload is then the result of [checkAvailability] for these dates,
    so every wheelchair it lists is stored and not blocked for the range. *)
Theorem availability_route_validates_its_range :
  forall (parseDate : string -> option Z) (st : MemStorage)
         (startDateParam endDateParam : option string),
    let reply := fst (routeGetAvailability parseDate startDateParam endDateParam st) in
    snd (routeGetAvailability parseDate startDateParam endDateParam st) = st
    /\ (replyCode reply = 200 \/ replyCode reply = 400)
    /\ (replyCode reply = 200 <->
        exists sp ep s e,
          startDateParam = Some sp /\ endDateParam = Some ep
          /\ sp <> "" /\ ep <> ""
          /\ parseDate sp = Some s /\ parseDate ep = Some e
          /\ s < e)
    /\ (forall result,
           replyBody reply = inr result ->
           exists sp ep s e,
             startDateParam = Some sp /\ endDateParam = Some ep
             /\ parseDate sp = Some s /\ parseDate ep = Some e
             /\ s < e
             /\ result = fst (checkAvailability s e st)
             /\ forall w, In w (availableWheelchairs result) ->
                          storedWheelchair st w
                          /\ ~ exists r, storedReservation st r
                                         /\ blocks (Wheelchair.id w) s e r).
Proof.
  intros parseDate st startDateParam endDateParam reply. subst reply.
  unfold routeGetAvailability.
  destruct startDateParam as [sp|]; destruct endDateParam as [ep|]; simpl;
    rewrite ?orb_true_r; simpl.
  - destruct (String.eqb_spec sp "") as [->|Hsp]; simpl.
    { split; [reflexivity|]. split; [now right|]. split.
      - split; [discriminate|].
        intros (sp' & ep' & s & e & H1 & _ & Hne & _). injection H1 as <-. now elim Hne.
      - discriminate. }
    destruct (String.eqb_spec ep "") as [->|Hep]; simpl.
    { split; [reflexivity|]. split; [now right|]. split.
      - split; [discriminate|].
        intros (sp' & ep' & s & e & _ & H2 & _ & Hne & _). injection H2 as <-. now elim Hne.
      - discriminate. }
    destruct (parseDate sp) as [s|] eqn:Hs; simpl.
    2:{ split; [reflexivity|]. split; [now right|]. split.
        - split; [discriminate|].
          intros (sp' & ep' & s & e & H1 & _ & _ & _ & Hp & _).
          injection H1 as <-. congruence.
        - discriminate. }
    destruct (parseDate ep) as [e|] eqn:He; simpl.
    2:{ split; [reflexivity|]. split; [now right|]. split.
        - split; [discriminate|].
          intros (sp' & ep' & s' & e & _ & H2 & _ & _ & _ & Hp & _).
          injection H2 as <-. congruence.
        - discriminate. }
    destruct (Z.geb_spec s e) as [Hge|Hlt]; simpl.
    { split; [reflexivity|]. split; [now right|]. split.
      - split; [discriminate|].
        intros (sp' & ep' & s' & e' & H1 & H2 & _ & _ & Hp1 & Hp2 & Hlt).
        injection H1 as <-. injection H2 as <-.
        rewrite Hs in Hp1. rewrite He in Hp2.
        injection Hp1 as <-. injection Hp2 as <-. lia.
      - discriminate. }
    split; [reflexivity|]. split; [now left|]. split.
    + split; [|reflexivity]. intros _. exists sp, ep, s, e. repeat split; assumption.
    + intros result Hres. injection Hres as <-.
      exists sp, ep, s, e.
      split; [reflexivity|]. split; [reflexivity|]. split; [assumption|].
      split; [assumption|]. split; [assumption|]. split; [reflexivity|].
      intros w Hw. now apply In_available in Hw.
  - split; [reflexivity|]. split; [now right|]. split.
    + split; [discriminate|]. intros (sp' & ep' & s & e & _ & H2 & _). discriminate.
    + discriminate.
  - split; [reflexivity|]. split; [now right|]. split.
    + split; [discriminate|]. intros (sp' & ep' & s & e & H1 & _). discriminate.
    + discriminate.
  - split; [reflexivity|]. split; [now right|]. split.
    + split; [discriminate|]. intros (sp' & ep' & s & e & H1 & _). discriminate.
    + discriminate.
Qed.

(** ** Status *)

Lemma status_kept_handle st req :
  schemaKeysOnly req = true ->
  (forall r, storedReservation st r -> Reservation.status r = "active") ->
  forall r, storedReservation (snd (handle req st)) r -> Reservation.status r = "active".
Proof.
  intros Hkeys Hinv.
  pose proof (other_requests_keep_reservations st req) as Hkeep.
  destruct req as [body|id body|id|body|id body|id|body|id body|id];
    try (intros r Hr; apply Hinv; unfold storedReservation in *; now rewrite Hkeep in Hr).
  - simpl. rewrite postReservations_cases.
    destruct (JsMap.get _ (clientsData st)); [|assumption].
    destruct (JsMap.get _ (wheelchairsData st)); [|assumption].
    destruct (_ >=? _); [assumption|].
    destruct (negb _); [assumption|]. simpl.
    destruct (createReservation_reservations st body) as (Hres & _).
    intros r Hr. unfold storedReservation in Hr. rewrite Hres in Hr.
    apply values_set_weak in Hr as [->|Hr]; [reflexivity | now apply Hinv].
  - simpl in *.
    destruct (putReservations_cases st id body) as [->|[existing (Hget & -> & _)]];
      [assumption|].
    intros r Hr. unfold storedReservation in Hr. simpl in Hr.
    apply values_set_weak in Hr as [->|Hr]; [|now apply Hinv].
    simpl. destruct (ReservationPatch.status body); [discriminate|]. simpl.
    apply Hinv. apply In_values. exists id. now apply get_In.
  - simpl. rewrite deleteReservations_snd. intros r Hr. apply Hinv.
    unfold storedReservation in *. simpl in Hr. now apply values_delete in Hr.
Qed.

(** X15. A reservation is created with status "active", and only a
    reservation update whose body has a [status] key changes a status:
    after any run in which no update body has that key, every stored
    reservation has status "active". *)
Theorem status_changes_only_by_status_key :
  forall reqs : list Request,
    Forall (fun req => schemaKeysOnly req = true) reqs ->
    forall r, storedReservation (run reqs storage) r -> Reservation.status r = "active".
Proof.
  intros reqs Hreqs.
  assert (Hgen : forall st,
             (forall r, storedReservation st r -> Reservation.status r = "active") ->
             forall r, storedReservation (run reqs st) r -> Reservation.status r = "active").
  { induction Hreqs as [|req reqs Hreq _ IH]; intros st Hinv; simpl; [assumption|].
    apply IH. now apply status_kept_handle. }
  apply Hgen. intros r Hr. unfold storedReservation in Hr. vm_compute in Hr. destruct Hr.
Qed.

Lemma status_changes_only_by_status_key_witness :
  storedReservation (run moveStartTrace storage)
                    (Reservation.mk 1 1 1 12 20 "active" None)
  /\ Reservation.status (Reservation.mk 1 1 1 12 20 "active" None) = "active".
Proof.
  assert (Hreqs : Forall (fun req => schemaKeysOnly req = true) moveStartTrace)
    by (repeat constructor).
  assert (Hst : storedReservation (run moveStartTrace storage)
                  (Reservation.mk 1 1 1 12 20 "active" None))
    by (unfold storedReservation; vm_compute; auto).
  split; [exact Hst|].
  exact (status_changes_only_by_status_key moveStartTrace Hreqs _ Hst).
Defined.

(** ** Active reservations *)

(** X16. [getActiveReservations] leaves the store as it is and returns, in
    store order, exactly the stored reservations with status "active" that
    end at or after [today]; a later [today] returns a part of what an
    earlier one returns, and [GET /reservations/active] always answers 200
    with that list. *)
Theorem active_reservations_shrink_with_time :
  forall (st : MemStorage) (today later : Z),
    today <= later ->
    snd (getActiveReservations today st) = st
    /\ (forall r, In r (fst (getActiveReservations today st)) <->
                  storedReservation st r /\ effectivelyActive today r)
    /\ (exists keep, fst (getActiveReservations today st)
                     = filter keep (fst (getAllReservations st)))
    /\ (forall r, In r (fst (getActiveReservations later st)) ->
                  In r (fst (getActiveReservations today st)))
    /\ (List.length (fst (getActiveReservations later st))
        <= List.length (fst (getActiveReservations today st)))%nat
    /\ routeGetActiveReservations today st
       = (found (fst (getActiveReservations today st)), st).
Proof.
  intros st today later Hle.
  assert (Hmem : forall d r, In r (fst (getActiveReservations d st)) <->
                             storedReservation st r /\ effectivelyActive d r).
  { intros d r. unfold getActiveReservations, gets. simpl.
    rewrite filter_In, activeAndUnexpired_iff. reflexivity. }
  split; [reflexivity|]. split; [apply Hmem|]. split; [eexists; reflexivity|].
  split; [|split; [|reflexivity]].
  - intros r Hr. apply Hmem in Hr as [Hst [Ha He]]. apply Hmem.
    split; [assumption|]. split; [assumption|lia].
  - unfold getActiveReservations, gets. simpl. apply filter_length_le.
    intros r _ Hr. apply activeAndUnexpired_iff in Hr as [Ha He].
    apply activeAndUnexpired_iff. split; [assumption|lia].
Qed.

Lemma active_reservations_shrink_with_time_witness :
  (List.length (fst (getActiveReservations 300 threeWheelchairs))
   <= List.length (fst (getActiveReservations 150 threeWheelchairs)))%nat.
Proof.
  assert (Hle : 150 <= 300) by lia.
  exact (proj1 (proj2 (proj2 (proj2 (proj2
           (active_reservations_shrink_with_time threeWheelchairs 150 300 Hle)))))).
Defined.

(** ** Counters against created reservations *)

Lemma totalUsage_app ws1 ws2 : totalUsage (ws1 ++ ws2) = totalUsage ws1 + totalUsage ws2.
Proof. induction ws1 as [|w ws1 IH]; simpl; [reflexivity|]. rewrite IH. lia. Qed.

Lemma totalUsage_set_present (m : JsMap.t Wheelchair.t) k v old :
  JsMap.get k m = Some old ->
  totalUsage (JsMap.values (JsMap.set k v m))
  = totalUsage (JsMap.values m) - usage old + usage v.
Proof.
  induction m as [|[k0 v0] m IH]; simpl; [discriminate|].
  destruct (Z.eqb_spec k k0) as [->|Hk]; simpl; intro H.
  - injection H as ->. lia.
  - rewrite (IH H). lia.
Qed.

Lemma totalUsage_set_absent (m : JsMap.t Wheelchair.t) k v :
  JsMap.get k m = None ->
  totalUsage (JsMap.values (JsMap.set k v m)) = totalUsage (JsMap.values m) + usage v.
Proof.
  intro H. rewrite (set_absent m k v H), values_app, totalUsage_app. simpl. lia.
Qed.

Lemma totalUsage_delete (m : JsMap.t Wheelchair.t) k :
  (forall w, In w (JsMap.values m) -> 0 <= usage w) ->
  totalUsage (JsMap.values (snd (JsMap.delete k m))) <= totalUsage (JsMap.values m).
Proof.
  induction m as [|[k0 v0] m IH]; simpl; intro H; [lia|].
  assert (H0 : 0 <= usage v0) by (apply H; now left).
  assert (IH' : totalUsage (JsMap.values (snd (JsMap.delete k m)))
                <= totalUsage (JsMap.values m)) by (apply IH; intros w Hw; apply H; now right).
  destruct (k =? k0); simpl; [lia|].
  destruct (JsMap.delete k m) as [found rest]; simpl in *. lia.
Qed.

Lemma countersNatural_usage st w : countersNatural st -> storedWheelchair st w -> 0 <= usage w.
Proof.
  intros Hn Hw. destruct (Hn w Hw) as [n [Hrc Hge]].
  unfold usage. rewrite Hrc, usage_Some. exact Hge.
Qed.

Lemma accepted_reservation_counter st body :
  statusCode (fst (handle (PostReservations body) st)) = 201 ->
  reservationCurrentId (snd (handle (PostReservations body) st))
  = reservationCurrentId st + 1.
Proof.
  simpl. rewrite postReservations_cases.
  destruct (JsMap.get _ (clientsData st)); [|discriminate].
  destruct (JsMap.get _ (wheelchairsData st)); [|discriminate].
  destruct (_ >=? _); [discriminate|].
  destruct (negb _); [discriminate|]. intros _. simpl.
  now destruct (createReservation_reservations st body) as (_ & Hn & _).
Qed.

Lemma totalUsage_handle st req :
  storeIntegrity st -> countersNatural st ->
  totalUsage (JsMap.values (wheelchairsData st)) <= reservationCurrentId st - 1 ->
  totalUsage (JsMap.values (wheelchairsData (snd (handle req st))))
  <= reservationCurrentId (snd (handle req st)) - 1.
Proof.
  intros (Hw & _ & _) Hn Hinv.
  destruct (counters_monotone_handle st req) as (_ & _ & Hmono).
  destruct (wheelchairs_after_handle st req)
    as [E|[[x [Hx E]]|[(id & e & e' & He & Hrc & E)|[[id E]|(body & w0 & w1 & Hreq & Hcode & H0 & Hu & E)]]]];
    rewrite E; clear E.
  - lia.
  - rewrite totalUsage_set_absent by (now apply (mapOk_next_absent Wheelchair.id)). lia.
  - rewrite (totalUsage_set_present _ _ _ e He).
    assert (usage e' = usage e) by (unfold usage; now rewrite Hrc). lia.
  - pose proof (totalUsage_delete (wheelchairsData st) id
                  (fun w Hw' => countersNatural_usage st w Hn Hw')). lia.
  - rewrite (totalUsage_set_present _ _ _ w0 H0). subst req.
    rewrite (accepted_reservation_counter st body Hcode). lia.
Qed.

Lemma totalUsage_nonneg ws : (forall x, In x ws -> 0 <= usage x) -> 0 <= totalUsage ws.
Proof.
  induction ws as [|a ws IH]; simpl; intro Hall; [lia|].
  assert (0 <= usage a) by (apply Hall; now left).
  assert (0 <= totalUsage ws) by (apply IH; intros x Hx; apply Hall; now right).
  lia.
Qed.

Lemma totalUsage_member ws w :
  (forall x, In x ws -> 0 <= usage x) -> In w ws -> usage w <= totalUsage ws.
Proof.
  induction ws as [|a ws IH]; simpl; intros Hall Hin; [elim Hin|].
  assert (Hrest : forall x, In x ws -> 0 <= usage x) by (intros x Hx; apply Hall; now right).
  destruct Hin as [->|Hin].
  - pose proof (totalUsage_nonneg ws Hrest). lia.
  - assert (0 <= usage a) by (apply Hall; now left).
    pose proof (IH Hrest Hin). lia.
Qed.

(** X17. In a reachable store the usage counters of the stored
    wheelchairs add up to at most the number of reservations created so
    far (the next reservation identifier minus one); in particular no
    wheelchair's counter exceeds that number. *)
Theorem counters_bounded_by_created_reservations :
  forall st : MemStorage,
    Reachable st ->
    totalUsage (fst (getAllWheelchairs st)) <= reservationCurrentId st - 1
    /\ forall w, storedWheelchair st w -> 0 <= usage w <= reservationCurrentId st - 1.
Proof.
  intros st Hreach.
  assert (Htotal : totalUsage (JsMap.values (wheelchairsData st))
                   <= reservationCurrentId st - 1).
  { induction Hreach as [|st req Hreach IH].
    - vm_compute. discriminate.
    - destruct (Reachable_integrity st Hreach) as [Hi Hn].
      now apply totalUsage_handle. }
  split; [exact Htotal|].
  destruct (Reachable_integrity st Hreach) as [_ Hn].
  intros w Hw. pose proof (countersNatural_usage st w Hn Hw) as H0.
  split; [assumption|].
  unfold storedWheelchair in Hw.
  pose proof (totalUsage_member _ w (fun x Hx => countersNatural_usage st x Hn Hx) Hw).
  lia.
Qed.

Lemma counters_bounded_by_created_reservations_witness :
  totalUsage (fst (getAllWheelchairs threeWheelchairsReached))
  <= reservationCurrentId threeWheelchairsReached - 1.
Proof.
  assert (Hreach : Reachable threeWheelchairsReached)
    by exact (Reachable_run
                [PostClients sampleClient;
                 PostReservations (InsertReservation.mk 1 2 100 200 None)]
                storage reach_init).
  exact (proj1 (counters_bounded_by_created_reservations threeWheelchairsReached Hreach)).
Defined.
